(** * The OpenMW scene lighting manager

    A shallow embedding of [components/sceneutil/lightmanager.cpp]:
    the packed GPU light buffer, the lighting-method selection, the
    per-frame bookkeeping of [LightManager], the light selection of
    [LightListCallback] and the light state of the fixed-function tier,
    followed by the properties proved about them.

    Conventions of the embedding.
    - A C++ [int] is a [Z]; conversions to [size_t] and [unsigned] and
      back are written out ([to_size_t], [to_unsigned], [to_int]).
      Signed overflow is undefined in C++ and is not given a meaning.
    - A [float] is a rational ([Q]): the arithmetic is the exact one.
      What is not rational ([sqrt]) and the matrix code of OpenSceneGraph
      are fields of the class [External].
    - A read or write outside an array is undefined behaviour; the
      operations return [None] there.
    - Objects shared through pointers (light sources, state sets) live in
      a store indexed by address. *)

From Stdlib Require Import ZArith QArith Qround List Lia String Permutation Sorted.
From stdpp Require Import gmap strings list.

Open Scope Z_scope.

(** ** Integer conversions *)

Definition to_size_t (z : Z) : Z := z mod 2 ^ 64.
Definition to_unsigned (z : Z) : Z := z mod 2 ^ 32.
Definition to_int (z : Z) : Z := (z + 2 ^ 31) mod 2 ^ 32 - 2 ^ 31.

(** ** Vectors of floats *)

Record Vec4 := mkVec4 { v4_0 : Q; v4_1 : Q; v4_2 : Q; v4_3 : Q }.

Definition Vec4_scale (v : Vec4) (k : Q) : Vec4 :=
  mkVec4 (v4_0 v * k) (v4_1 v * k) (v4_2 v * k) (v4_3 v * k).

Definition Qltb (a b : Q) : bool := negb (Qle_bool b a).

Definition clampTo (v lo hi : Q) : Q :=
  if Qltb v lo then lo else if Qltb hi v then hi else v.


(** Modelled from the spec: [osg::Vec4f::asRGBA] and [asABGR] belong to
    OpenSceneGraph and are not under src/.  The spec says a colour is
    packed "as 4 unsigned bytes", "big-endian systems pack in reverse
    channel order": each channel is scaled by 255, clamped to [0, 255] and
    truncated to a byte; [asRGBA] puts channel 0 in the low byte,
    [asABGR] in the high byte. *)
Definition channel_byte (c : Q) : Z := Qfloor (clampTo (c * 255) 0 255).

Definition pack_bytes (b3 b2 b1 b0 : Z) : Z :=
  Z.lor (Z.lor (Z.lor (Z.shiftl b3 24) (Z.shiftl b2 16)) (Z.shiftl b1 8)) b0.

Definition Vec4_asRGBA (v : Vec4) : Z :=
  pack_bytes (channel_byte (v4_3 v)) (channel_byte (v4_2 v))
             (channel_byte (v4_1 v)) (channel_byte (v4_0 v)).

Definition Vec4_asABGR (v : Vec4) : Z :=
  pack_bytes (channel_byte (v4_0 v)) (channel_byte (v4_1 v))
             (channel_byte (v4_2 v)) (channel_byte (v4_3 v)).

(** ** LightBuffer *)

Module LightBuffer.

Inductive LayoutOffset :=
| Diffuse | DiffuseSign | Ambient | Specular | Position | AttenuationRadius.

Inductive Endian := BigEndian | LittleEndian.

(** One element of the [osg::FloatArray]: four bytes, which hold a float
    or, after a [memcpy] of an [unsigned int], its 32 bits. *)
Inductive Cell :=
| FloatBits (q : Q)
| UIntBits (u : Z).

(** [class Offsets]: [mValues] is a [std::array<int, 6>] indexed by
    [LayoutOffset]. *)
Record Offsets := mkOffsets { mStride : Z; mValues : LayoutOffset -> Z }.

(** [Offsets()] *)
Definition Offsets_default : Offsets :=
  mkOffsets 12 (fun slot =>
    match slot with
    | Diffuse => 0
    | Ambient => 1
    | Specular => 2
    | DiffuseSign => 3
    | Position => 4
    | AttenuationRadius => 8
    end).


(** [Offsets::get] *)
Definition Offsets_get (o : Offsets) (index : Z) (slot : LayoutOffset) : Z :=
  mStride o * index + mValues o slot.

Record t := mkLightBuffer {
  mData : list Cell;
  mEndian : Endian;
  mCount : Z;
  mOffsets : Offsets;
  mCachedSunPos : Vec4
}.

(** [LightBuffer(int count)]: [3*4*count] floats, all zero. *)
Definition create (endian : Endian) (count : Z) : t :=
  mkLightBuffer (replicate (Z.to_nat (3 * 4 * count)) (FloatBits 0))
                endian count Offsets_default (mkVec4 0 0 0 0).

Definition getOffset (b : t) (index : Z) (slot : LayoutOffset) : Z :=
  Offsets_get (mOffsets b) index slot.

Definition asRGBA (b : t) (value : Vec4) : Z :=
  match mEndian b with
  | BigEndian => Vec4_asABGR value
  | LittleEndian => Vec4_asRGBA value
  end.

(** [std::memcpy(&dst[at], src, 4 * length src)]. *)
Definition memcpy (dst : list Cell) (at_ : Z) (src : list Cell) : option (list Cell) :=
  if (0 <=? at_) && (at_ + Z.of_nat (length src) <=? Z.of_nat (length dst))
  then Some (list_inserts (Z.to_nat at_) src dst)
  else None.

(** The [n] elements from [data + at] on, as a [memcpy] reads them. *)
Definition readCells (data : list Cell) (at_ : Z) (n : nat) : option (list Cell) :=
  if (0 <=? at_) && (at_ + Z.of_nat n <=? Z.of_nat (length data))
  then Some (take n (drop (Z.to_nat at_) data))
  else None.

(** The four elements of a [sizeof(osg::Vec4f)] block at [p]. *)
Definition quad (l : list Cell) (p : Z) : list Cell := take 4 (drop (Z.to_nat p) l).

Definition withData (b : t) (d : list Cell) : t :=
  mkLightBuffer d (mEndian b) (mCount b) (mOffsets b) (mCachedSunPos b).

Definition Vec4_cells (v : Vec4) : list Cell :=
  [FloatBits (v4_0 v); FloatBits (v4_1 v); FloatBits (v4_2 v); FloatBits (v4_3 v)].

(** [~0u] *)
Definition all_ones : Z := to_unsigned (Z.lnot 0).

Definition setDiffuse (b : t) (index : Z) (value : Vec4) : option t :=
  let '(positiveColor, signBit) :=
    if Qltb (v4_0 value) 0
    then (Vec4_scale value (-1), all_ones)
    else (value, 1) in
  let packedColor := asRGBA b positiveColor in
  d1 ← memcpy (mData b) (getOffset b index Diffuse) [UIntBits packedColor];
  d2 ← memcpy d1 (getOffset b index DiffuseSign) [UIntBits signBit];
  Some (withData b d2).

Definition setAmbient (b : t) (index : Z) (value : Vec4) : option t :=
  let packed := asRGBA b value in
  d ← memcpy (mData b) (getOffset b index Ambient) [UIntBits packed];
  Some (withData b d).

Definition setSpecular (b : t) (index : Z) (value : Vec4) : option t :=
  let packed := asRGBA b value in
  d ← memcpy (mData b) (getOffset b index Specular) [UIntBits packed];
  Some (withData b d).

Definition setPosition (b : t) (index : Z) (value : Vec4) : option t :=
  d ← memcpy (mData b) (getOffset b index Position) (Vec4_cells value);
  Some (withData b d).

Definition setAttenuationRadius (b : t) (index : Z) (value : Vec4) : option t :=
  d ← memcpy (mData b) (getOffset b index AttenuationRadius) (Vec4_cells value);
  Some (withData b d).

(** [queryBlockSize]: [3 * osg::Vec4::num_components * sizeof(GLfloat) * sz]. *)
Definition queryBlockSize (sz : Z) : Z := 3 * 4 * 4 * sz.





(** The slots whose 16 bytes [configureLayout] copies. *)
Definition isCopied (slot : LayoutOffset) : bool :=
  match slot with
  | Diffuse | Position | AttenuationRadius => true
  | _ => false
  end.

Definition disjointQuads (p q : Z) : bool := (p + 4 <=? q) || (q + 4 <=? p).

(** [count] records laid out by [o] fit an array of [len] elements: the
    three copied blocks of a record lie within its stride and do not
    overlap, and the records end before the array does. *)
Definition layoutFits (o : Offsets) (count len : Z) : bool :=
  let d := mValues o Diffuse in
  let p := mValues o Position in
  let a := mValues o AttenuationRadius in
  (0 <=? d) && (0 <=? p) && (0 <=? a)
  && (d + 4 <=? mStride o) && (p + 4 <=? mStride o) && (a + 4 <=? mStride o)
  && disjointQuads d p && disjointQuads d a && disjointQuads p a
  && (mStride o * count <=? len).



End LightBuffer.

(** ** Lighting methods *)

Inductive LightingMethod := FFP | PerObjectUniform | SingleUBO.

Global Instance LightingMethod_eq_dec : EqDecision LightingMethod.
Proof. solve_decision. Defined.

Inductive LogLevel := Warning.

(** [LightManager::mLightingMethodSettingMap] *)
Definition mLightingMethodSettingMap : gmap string LightingMethod :=
  <["legacy" := FFP]>
    (<["shaders compatibility" := PerObjectUniform]>
       (<["shaders" := SingleUBO]> ∅)).

(** [LightManager::getLightingMethodFromString]; what [Log] receives is
    returned with the method. *)
Definition getLightingMethodFromString (value : string)
  : LightingMethod * list (LogLevel * string) :=
  match mLightingMethodSettingMap !! value with
  | Some method => (method, [])
  | None =>
      let fallback := "shaders compatibility" in
      (PerObjectUniform,
       [(Warning, "Unknown lighting method '" +:+ value
                  +:+ "', returning fallback '" +:+ fallback +:+ "'")])
  end.

(** ** Scene data *)

Record Vec3 := mkVec3 { v3_x : Q; v3_y : Q; v3_z : Q }.

Definition Vec3_length2 (v : Vec3) : Q :=
  (v3_x v * v3_x v + v3_y v * v3_y v + v3_z v * v3_z v)%Q.

Record BoundingSphere := mkBoundingSphere { _center : Vec3; _radius : Q }.

Definition radius2 (b : BoundingSphere) : Q := (_radius b * _radius b)%Q.

(** [osg::Light], with the user value "radius" that [setLightRadius]
    attaches to it. *)
Record Light := mkLight {
  lAmbient : Vec4;
  lDiffuse : Vec4;
  lSpecular : Vec4;
  lPosition : Vec4;
  lConstantAttenuation : Q;
  lLinearAttenuation : Q;
  lQuadraticAttenuation : Q;
  lUserRadius : Q
}.

Definition Light_setDiffuse (l : Light) (c : Vec4) : Light :=
  mkLight (lAmbient l) c (lSpecular l) (lPosition l) (lConstantAttenuation l)
          (lLinearAttenuation l) (lQuadraticAttenuation l) (lUserRadius l).

Definition Light_setPosition (l : Light) (p : Vec4) : Light :=
  mkLight (lAmbient l) (lDiffuse l) (lSpecular l) p (lConstantAttenuation l)
          (lLinearAttenuation l) (lQuadraticAttenuation l) (lUserRadius l).

Definition setLightRadius (l : Light) (value : Q) : Light :=
  mkLight (lAmbient l) (lDiffuse l) (lSpecular l) (lPosition l) (lConstantAttenuation l)
          (lLinearAttenuation l) (lQuadraticAttenuation l) value.

(** Arrays of two elements indexed by [frameNum % 2]. *)
Definition parity (frameNum : Z) : bool := frameNum mod 2 =? 1.

Definition get2 {A} (a : A * A) (frameNum : Z) : A :=
  if parity frameNum then snd a else fst a.

Definition set2 {A} (a : A * A) (frameNum : Z) (x : A) : A * A :=
  if parity frameNum then (fst a, x) else (x, snd a).

(** [LightSource]: [mLight] holds one [osg::Light] per frame parity. *)
Record LightSource := mkLightSource {
  mId : Z;
  mRadius : Q;
  mActorFade : Q;
  mLight : Light * Light
}.

Definition getLight (ls : LightSource) (frameNum : Z) : Light := get2 (mLight ls) frameNum.

Definition setLight (ls : LightSource) (frameNum : Z) (l : Light) : LightSource :=
  mkLightSource (mId ls) (mRadius ls) (mActorFade ls) (set2 (mLight ls) frameNum l).

(** Addresses of the objects the manager points to. *)
Definition LightSourcePtr := nat.
Definition StateSetPtr := nat.

Record Camera := mkCamera { cameraPtr : nat; cameraName : string }.

Definition isReflectionCamera (camera : Camera) : bool :=
  bool_decide (cameraName camera = "ReflectionCamera").

(** What the file takes from OpenSceneGraph and from headers of the
    repository that are not part of it: matrices, [sqrt], the hash
    combiner of [components/misc/hash.hpp], [transformBoundingSphere] of
    [components/sceneutil/util.hpp], and the limits declared in
    [lightmanager.hpp]. *)
Class External := {
  Matrixf : Type;
  Matrixf_mult : Matrixf -> Matrixf -> Matrixf;
  Matrixf_getTrans : Matrixf -> Vec3;
  Vec4_mult : Vec4 -> Matrixf -> Vec4;
  Vec3_length : Vec3 -> Q;
  transformBoundingSphere : Matrixf -> BoundingSphere -> BoundingSphere;
  intersects : BoundingSphere -> BoundingSphere -> bool;
  hashCombine : Z -> Z -> Z;
  mMaxLightsLowerLimit : Z;
  mMaxLightsUpperLimit : Z;
  mFFPMaxLights : Z
}.

(** The values of the "Shaders" settings that the manager reads. *)
Record Settings := mkSettings {
  setting_lighting_method : string;
  setting_max_lights : Z;
  setting_light_bounds_multiplier : Q;
  setting_maximum_light_distance : Q;
  setting_light_fade_start : Q
}.

(** The state sets that the generators build.  [generate] of the three
    tiers fills different parts; a part a tier does not set is empty. *)
Inductive StateSet :=
| StateSetFFP (index : Z) (lights : list (LightSourcePtr * Z)) (modes : list Z)
              (dummies : list Z)
| StateSetPerObjectUniform (lights : list (LightSourcePtr * Z)) (PointLightCount : Z)
| StateSetSingleUBO (PointLightIndex : list Z) (PointLightCount : Z).

(** ** Sorting

    [std::sort] is modelled by insertion sort.  The order in which
    [std::sort] leaves elements that compare equal is unspecified; the
    properties below do not depend on it. *)

Fixpoint sort_insert {A} (less : A -> A -> bool) (x : A) (l : list A) : list A :=
  match l with
  | [] => [x]
  | y :: l' => if less x y then x :: y :: l' else y :: sort_insert less x l'
  end.

Fixpoint std_sort {A} (less : A -> A -> bool) (l : list A) : list A :=
  match l with
  | [] => []
  | x :: l' => sort_insert less x (std_sort less l')
  end.

(** [std::clamp], [std::min] and [std::max] on [int] and on [float]. *)
Definition clampZ (v lo hi : Z) : Z := if v <? lo then lo else if hi <? v then hi else v.
Definition clampQ (v lo hi : Q) : Q := if Qltb v lo then lo else if Qltb hi v then hi else v.
Definition maxQ (a b : Q) : Q := if Qltb a b then b else a.

(** ** LightManager *)

Record LightSourceViewBound := mkLightSourceViewBound {
  mLightSource : LightSourcePtr;
  mViewBound : BoundingSphere
}.

(** [LightManager::LightList] *)
Abbreviation LightList := (list LightSourceViewBound).

Section Manager.
Context `{External}.

Record LightSourceTransform := mkLightSourceTransform {
  lst_mLightSource : LightSourcePtr;
  mWorldMatrix : Matrixf
}.

(** The manager with the objects it points to: [lightSources] and
    [stateSets] are the stores of the [LightSource] nodes of the scene
    graph and of the [osg::StateSet] objects the generators allocate;
    the other fields are members of [LightManager].  [mDummies] is kept
    by its length.  The manager's own [osg::StateSet] and [mSun] are not
    part of the model. *)
Record Scene := mkScene {
  lightSources : gmap LightSourcePtr LightSource;
  stateSets : gmap StateSetPtr StateSet;
  mLights : list LightSourceTransform;
  mLightsInViewSpace : gmap nat (list LightSourceViewBound);
  mStartLight : Z;
  mLightingMask : Z;
  mLightingMethod : LightingMethod;
  mPointLightRadiusMultiplier : Q;
  mPointLightFadeEnd : Q;
  mPointLightFadeStart : Q;
  mMaxLights : Z;
  mDummies : Z;
  mLightIndexMaps : gmap Z Z * gmap Z Z;
  mStateSetCache : gmap Z StateSetPtr * gmap Z StateSetPtr;
  mLightBuffers : LightBuffer.t * LightBuffer.t
}.

Definition with_lightSources (s : Scene) (x : gmap LightSourcePtr LightSource) : Scene :=
  mkScene x (stateSets s) (mLights s) (mLightsInViewSpace s) (mStartLight s)
          (mLightingMask s) (mLightingMethod s) (mPointLightRadiusMultiplier s)
          (mPointLightFadeEnd s) (mPointLightFadeStart s) (mMaxLights s) (mDummies s)
          (mLightIndexMaps s) (mStateSetCache s) (mLightBuffers s).

Definition with_stateSets (s : Scene) (x : gmap StateSetPtr StateSet) : Scene :=
  mkScene (lightSources s) x (mLights s) (mLightsInViewSpace s) (mStartLight s)
          (mLightingMask s) (mLightingMethod s) (mPointLightRadiusMultiplier s)
          (mPointLightFadeEnd s) (mPointLightFadeStart s) (mMaxLights s) (mDummies s)
          (mLightIndexMaps s) (mStateSetCache s) (mLightBuffers s).

Definition with_mLights (s : Scene) (x : list LightSourceTransform) : Scene :=
  mkScene (lightSources s) (stateSets s) x (mLightsInViewSpace s) (mStartLight s)
          (mLightingMask s) (mLightingMethod s) (mPointLightRadiusMultiplier s)
          (mPointLightFadeEnd s) (mPointLightFadeStart s) (mMaxLights s) (mDummies s)
          (mLightIndexMaps s) (mStateSetCache s) (mLightBuffers s).

Definition with_mLightsInViewSpace (s : Scene) (x : gmap nat (list LightSourceViewBound))
  : Scene :=
  mkScene (lightSources s) (stateSets s) (mLights s) x (mStartLight s)
          (mLightingMask s) (mLightingMethod s) (mPointLightRadiusMultiplier s)
          (mPointLightFadeEnd s) (mPointLightFadeStart s) (mMaxLights s) (mDummies s)
          (mLightIndexMaps s) (mStateSetCache s) (mLightBuffers s).

Definition with_settings (s : Scene) (multiplier fadeEnd fadeStart : Q) : Scene :=
  mkScene (lightSources s) (stateSets s) (mLights s) (mLightsInViewSpace s) (mStartLight s)
          (mLightingMask s) (mLightingMethod s) multiplier fadeEnd fadeStart
          (mMaxLights s) (mDummies s)
          (mLightIndexMaps s) (mStateSetCache s) (mLightBuffers s).

Definition with_mMaxLights (s : Scene) (x : Z) : Scene :=
  mkScene (lightSources s) (stateSets s) (mLights s) (mLightsInViewSpace s) (mStartLight s)
          (mLightingMask s) (mLightingMethod s) (mPointLightRadiusMultiplier s)
          (mPointLightFadeEnd s) (mPointLightFadeStart s) x (mDummies s)
          (mLightIndexMaps s) (mStateSetCache s) (mLightBuffers s).

Definition with_mLightIndexMaps (s : Scene) (x : gmap Z Z * gmap Z Z) : Scene :=
  mkScene (lightSources s) (stateSets s) (mLights s) (mLightsInViewSpace s) (mStartLight s)
          (mLightingMask s) (mLightingMethod s) (mPointLightRadiusMultiplier s)
          (mPointLightFadeEnd s) (mPointLightFadeStart s) (mMaxLights s) (mDummies s)
          x (mStateSetCache s) (mLightBuffers s).

Definition with_mStateSetCache (s : Scene) (x : gmap Z StateSetPtr * gmap Z StateSetPtr)
  : Scene :=
  mkScene (lightSources s) (stateSets s) (mLights s) (mLightsInViewSpace s) (mStartLight s)
          (mLightingMask s) (mLightingMethod s) (mPointLightRadiusMultiplier s)
          (mPointLightFadeEnd s) (mPointLightFadeStart s) (mMaxLights s) (mDummies s)
          (mLightIndexMaps s) x (mLightBuffers s).

Definition with_mLightBuffers (s : Scene) (x : LightBuffer.t * LightBuffer.t) : Scene :=
  mkScene (lightSources s) (stateSets s) (mLights s) (mLightsInViewSpace s) (mStartLight s)
          (mLightingMask s) (mLightingMethod s) (mPointLightRadiusMultiplier s)
          (mPointLightFadeEnd s) (mPointLightFadeStart s) (mMaxLights s) (mDummies s)
          (mLightIndexMaps s) (mStateSetCache s) x.

Definition getLightingMethod (s : Scene) : LightingMethod := mLightingMethod s.
Definition usingFFP (s : Scene) : bool := bool_decide (mLightingMethod s = FFP).
Definition getMaxLights (s : Scene) : Z := mMaxLights s.
Definition setMaxLights (value : Z) (s : Scene) : Scene := with_mMaxLights s value.
Definition getStartLight (s : Scene) : Z := mStartLight s.

(** [getMaxLightsInScene]: [16384 / LightBuffer::queryBlockSize(1)]. *)
Definition getMaxLightsInScene : Z := 16384 / LightBuffer.queryBlockSize 1.

(** Modelled from the spec: [getLightIndexMap] and [getLightBuffer] are
    inline members of [lightmanager.hpp], which is not under src/.  The
    spec says that the index map and the buffers are held in two
    generations and that "on frame N the manager reads/writes copy
    N mod 2". *)
Definition getLightIndexMap (s : Scene) (frameNum : Z) : gmap Z Z :=
  get2 (mLightIndexMaps s) frameNum.

Definition setLightIndexMap (s : Scene) (frameNum : Z) (m : gmap Z Z) : Scene :=
  with_mLightIndexMaps s (set2 (mLightIndexMaps s) frameNum m).

Definition getLightBuffer (s : Scene) (frameNum : Z) : LightBuffer.t :=
  get2 (mLightBuffers s) frameNum.

Definition setLightBuffer (s : Scene) (frameNum : Z) (b : LightBuffer.t) : Scene :=
  with_mLightBuffers s (set2 (mLightBuffers s) frameNum b).

(** [LightManager::updateSettings] *)
Definition updateSettings (cfg : Settings) (s : Scene) : Scene :=
  if bool_decide (getLightingMethod s = FFP) then s
  else
    let multiplier := clampQ (setting_light_bounds_multiplier cfg) 0 5 in
    let fadeEnd := maxQ 0 (setting_maximum_light_distance cfg) in
    if Qltb 0 fadeEnd
    then
      let fadeStart := clampQ (setting_light_fade_start cfg) 0 1 in
      let fadeStart := (fadeEnd * fadeStart)%Q in
      with_settings s multiplier fadeEnd fadeStart
    else with_settings s multiplier fadeEnd (mPointLightFadeStart s).

(** The cleanup of [update]: a generation of more than 5000 entries is
    emptied. *)
Definition cleanupCache (c : gmap Z StateSetPtr) : gmap Z StateSetPtr :=
  if 5000 <? Z.of_nat (size c) then ∅ else c.

(** [LightManager::update] *)
Definition update (frameNum : Z) (s : Scene) : Scene :=
  let s := setLightIndexMap s frameNum ∅ in
  let s := with_mLights s [] in
  let s := with_mLightsInViewSpace s ∅ in
  with_mStateSetCache s (cleanupCache (fst (mStateSetCache s)),
                         cleanupCache (snd (mStateSetCache s))).

(** [LightManager::addLight] *)
Definition addLight (lightSource : LightSourcePtr) (worldMat : Matrixf) (frameNum : Z)
           (s : Scene) : option Scene :=
  ls ← lightSources s !! lightSource;
  let pos := Matrixf_getTrans worldMat in
  let light := Light_setPosition (getLight ls frameNum)
                                 (mkVec4 (v3_x pos) (v3_y pos) (v3_z pos) 1) in
  let s := with_lightSources s (<[lightSource := setLight ls frameNum light]>
                                  (lightSources s)) in
  Some (with_mLights s (mLights s ++ [mkLightSourceTransform lightSource worldMat])).

(** [LightManager::updateGPUPointLight] *)
Definition updateGPUPointLight (index : Z) (lightSource : LightSourcePtr) (frameNum : Z)
           (viewMatrix : Matrixf) (s : Scene) : option Scene :=
  ls ← lightSources s !! lightSource;
  let light := getLight ls frameNum in
  let buf := getLightBuffer s frameNum in
  buf ← LightBuffer.setDiffuse buf index (lDiffuse light);
  buf ← LightBuffer.setAmbient buf index (lAmbient light);
  buf ← LightBuffer.setAttenuationRadius buf index
        (mkVec4 (lConstantAttenuation light) (lLinearAttenuation light)
                (lQuadraticAttenuation light) (mRadius ls));
  buf ← LightBuffer.setPosition buf index (Vec4_mult (lPosition light) viewMatrix);
  Some (setLightBuffer s frameNum buf).

(** *** State-set generators *)

Definition GL_LIGHT0 : Z := 16384.

(** The [osg::Light] of each element for this frame, by the address of
    its light source and the parity of the frame. *)
Fixpoint lightsOf (lightList : LightList) (frameNum : Z) (s : Scene)
  : option (list (LightSourcePtr * Z)) :=
  match lightList with
  | [] => Some []
  | vb :: rest =>
      _ ← lightSources s !! mLightSource vb;
      ls ← lightsOf rest frameNum s;
      Some ((mLightSource vb, frameNum mod 2) :: ls)
  end.

(** [StateSetGeneratorFFP::generate]; [getDummies()[k]] is defined for
    [0 <= k < mDummies]. *)
Definition StateSetGeneratorFFP_generate (lightList : LightList) (frameNum : Z)
           (s : Scene) : option (StateSet * Scene) :=
  lights ← lightsOf lightList frameNum s;
  let n := Z.of_nat (length lightList) in
  let modes := map (fun i => GL_LIGHT0 + getStartLight s + Z.of_nat i)
                   (seq 0 (length lightList)) in
  let dummies := map (fun i => Z.of_nat i + getStartLight s)
                     (seq 1 (length lightList - 1)) in
  if forallb (fun k => (0 <=? k) && (k <? mDummies s)) dummies
  then Some (StateSetFFP (getStartLight s) lights modes dummies, s)
  else None.

(** The loop of [StateSetGeneratorSingleUBO::generate].  [operator[]] of
    the index map inserts 0 for an absent id; [indices->at] throws past
    the end of the array. *)
Fixpoint generateIndices (lightList : LightList) (frameNum : Z) (pointCount : Z)
         (indices : list Z) (s : Scene) : option (Z * list Z * Scene) :=
  match lightList with
  | [] => Some (pointCount, indices, s)
  | vb :: rest =>
      ls ← lightSources s !! mLightSource vb;
      let m := getLightIndexMap s frameNum in
      let '(bufIndex, s) :=
        match m !! mId ls with
        | Some v => (v, s)
        | None => (0, setLightIndexMap s frameNum (<[mId ls := 0]> m))
        end in
      if pointCount <? Z.of_nat (length indices)
      then generateIndices rest frameNum (pointCount + 1)
                           (<[Z.to_nat pointCount := bufIndex]> indices) s
      else None
  end.

Definition StateSetGeneratorSingleUBO_generate (lightList : LightList) (frameNum : Z)
           (s : Scene) : option (StateSet * Scene) :=
  let indices := replicate (Z.to_nat (getMaxLights s)) 0 in
  '(pointCount, indices, s) ← generateIndices lightList frameNum 0 indices s;
  Some (StateSetSingleUBO indices pointCount, s).

(** The loop of [StateSetGeneratorSingleUBO::update]: [fuel] iterations
    from [i].  [lightList[i]] past the end of the list is undefined. *)
Fixpoint updateIndices (lightList : LightList) (lightData : gmap Z Z) (s : Scene)
         (fuel : nat) (i : Z) (newCount : Z) (uOldArray : list Z)
  : option (Z * list Z) :=
  match fuel with
  | O => Some (newCount, uOldArray)
  | S fuel' =>
      vb ← lightList !! Z.to_nat i;
      ls ← lightSources s !! mLightSource vb;
      match lightData !! mId ls with
      | Some v =>
          updateIndices lightList lightData s fuel' (i + 1) (newCount + 1)
                        (<[Z.to_nat newCount := v]> uOldArray)
      | None =>
          updateIndices lightList lightData s fuel' (i + 1) newCount uOldArray
      end
  end.

(** [StateSetGeneratorSingleUBO::update] on the state set at [stateset]. *)
Definition StateSetGeneratorSingleUBO_update (stateset : StateSetPtr)
           (lightList : LightList) (frameNum : Z) (s : Scene) : option Scene :=
  ss ← stateSets s !! stateset;
  match ss with
  | StateSetSingleUBO uOldArray oldCount =>
      let oldCount := Z.min (getMaxLights s) oldCount in
      let lightData := getLightIndexMap s frameNum in
      '(newCount, uOldArray) ←
        updateIndices lightList lightData s (Z.to_nat oldCount) 0 0 uOldArray;
      Some (with_stateSets s (<[stateset := StateSetSingleUBO uOldArray newCount]>
                                (stateSets s)))
  | _ => None
  end.

(** The loop of [StateSetGeneratorPerObjectUniform::generate]. *)
Fixpoint generateLights (lightList : LightList) (frameNum : Z) (s : Scene)
  : option (list (LightSourcePtr * Z) * Scene) :=
  match lightList with
  | [] => Some ([], s)
  | vb :: rest =>
      ls ← lightSources s !! mLightSource vb;
      let light := setLightRadius (getLight ls frameNum) (mRadius ls) in
      let s := with_lightSources s (<[mLightSource vb := setLight ls frameNum light]>
                                      (lightSources s)) in
      '(lights, s) ← generateLights rest frameNum s;
      Some ((mLightSource vb, frameNum mod 2) :: lights, s)
  end.

Definition StateSetGeneratorPerObjectUniform_generate (lightList : LightList)
           (frameNum : Z) (s : Scene) : option (StateSet * Scene) :=
  '(lights, s) ← generateLights lightList frameNum s;
  Some (StateSetPerObjectUniform lights (to_int (Z.of_nat (length lightList) + 1)), s).

(** [mStateSetGenerator->generate], by the tier [setLightingMethod] chose. *)
Definition generate (lightList : LightList) (frameNum : Z) (s : Scene)
  : option (StateSet * Scene) :=
  match getLightingMethod s with
  | FFP => StateSetGeneratorFFP_generate lightList frameNum s
  | SingleUBO => StateSetGeneratorSingleUBO_generate lightList frameNum s
  | PerObjectUniform => StateSetGeneratorPerObjectUniform_generate lightList frameNum s
  end.

(** [mStateSetGenerator->update]: only the shared-buffer tier overrides
    the empty [StateSetGenerator::update]. *)
Definition generator_update (stateset : StateSetPtr) (lightList : LightList)
           (frameNum : Z) (s : Scene) : option Scene :=
  match getLightingMethod s with
  | SingleUBO => StateSetGeneratorSingleUBO_update stateset lightList frameNum s
  | _ => Some s
  end.

(** *** getLightListStateSet *)

(** The first loop of [getLightListStateSet]: the hash of the ids and,
    in the shared-buffer tier, a buffer slot for each light that has
    none in this frame. *)
Fixpoint registerLights (lightList : LightList) (frameNum : Z) (viewMatrix : Matrixf)
         (hash : Z) (s : Scene) : option (Z * Scene) :=
  match lightList with
  | [] => Some (hash, s)
  | vb :: rest =>
      ls ← lightSources s !! mLightSource vb;
      let id := mId ls in
      let hash := hashCombine hash id in
      if bool_decide (getLightingMethod s ≠ SingleUBO)
      then registerLights rest frameNum viewMatrix hash s
      else
        match getLightIndexMap s frameNum !! id with
        | Some _ => registerLights rest frameNum viewMatrix hash s
        | None =>
            let index := to_int (Z.of_nat (size (getLightIndexMap s frameNum)) + 1) in
            s ← updateGPUPointLight index (mLightSource vb) frameNum viewMatrix s;
            let s := setLightIndexMap s frameNum
                       (<[id := index]> (getLightIndexMap s frameNum)) in
            registerLights rest frameNum viewMatrix hash s
        end
  end.

Definition getStateSetCache (s : Scene) (frameNum : Z) : gmap Z StateSetPtr :=
  get2 (mStateSetCache s) frameNum.

(** [LightManager::getLightListStateSet]; a generated state set is a new
    object, at an address not in use. *)
Definition getLightListStateSet (lightList : LightList) (frameNum : Z)
           (viewMatrix : Matrixf) (s : Scene) : option (StateSetPtr * Scene) :=
  '(hash, s) ← registerLights lightList frameNum viewMatrix 0 s;
  let stateSetCache := getStateSetCache s frameNum in
  match stateSetCache !! hash with
  | Some found =>
      s ← generator_update found lightList frameNum s;
      Some (found, s)
  | None =>
      '(ss, s) ← generate lightList frameNum s;
      let stateset := fresh (dom (stateSets s)) in
      let s := with_stateSets s (<[stateset := ss]> (stateSets s)) in
      let s := with_mStateSetCache s
                 (set2 (mStateSetCache s) frameNum (<[hash := stateset]> stateSetCache)) in
      Some (stateset, s)
  end.

(** *** updateMaxLights *)

(** [std::vector::resize] to [n] elements. *)
Definition resizeZ (l : list Z) (n : Z) : list Z :=
  take (Z.to_nat n) l ++ replicate (Z.to_nat n - length l) 0.

(** What [updateMaxLights] does to one cached state set; each branch of
    the source acts on the state sets that the generator of its tier
    built. *)
Definition shrinkStateSet (maxLights : Z) (ss : StateSet) : StateSet :=
  match ss with
  | StateSetSingleUBO uOldArray prevCount =>
      let newCount := Z.min maxLights prevCount in
      StateSetSingleUBO (resizeZ uOldArray newCount) newCount
  | StateSetPerObjectUniform lights count =>
      StateSetPerObjectUniform
        (take (Nat.min (Z.to_nat (to_size_t maxLights)) (length lights)) lights) count
  | StateSetFFP _ _ _ _ => ss
  end.

Definition shrinkCached (maxLights : Z) (cache : gmap Z StateSetPtr)
           (store : gmap StateSetPtr StateSet) : gmap StateSetPtr StateSet :=
  fold_right (fun '(_, p) st => alter (shrinkStateSet maxLights) p st) store
             (map_to_list cache).

(** [LightManager::updateMaxLights].  The uniform array of the manager's
    own state set, which the per-object tier rebuilds here, is not part
    of the model. *)
Definition updateMaxLights (cfg : Settings) (s : Scene) : Scene :=
  if usingFFP s then s
  else
    let targetLights :=
      clampZ (setting_max_lights cfg) mMaxLightsLowerLimit mMaxLightsUpperLimit in
    let s := setMaxLights targetLights s in
    let st := shrinkCached (getMaxLights s) (fst (mStateSetCache s)) (stateSets s) in
    let st := shrinkCached (getMaxLights s) (snd (mStateSetCache s)) st in
    with_mStateSetCache (with_stateSets s st) (∅, ∅).

(** *** getLightsInViewSpace *)

Definition Light_fade (ls : LightSource) (frameNum : Z) (fade : Q) : LightSource :=
  let light := getLight ls frameNum in
  setLight ls frameNum (Light_setDiffuse light (Vec4_scale (lDiffuse light) fade)).

(** The view-space bound of one registered light. *)
Definition viewBoundOf (transform : LightSourceTransform) (viewMatrix : Matrixf)
           (ls : LightSource) (s : Scene) : BoundingSphere :=
  let worldViewMat := Matrixf_mult (mWorldMatrix transform) viewMatrix in
  let radius := mRadius ls in
  transformBoundingSphere worldViewMat
    (mkBoundingSphere (mkVec3 0 0 0) (radius * mPointLightRadiusMultiplier s)).

(** [1 - std::clamp((distance - fadeStart) / fadeDelta, 0, 1)] *)
Definition fadeFactor (distance fadeStart fadeDelta : Q) : Q :=
  (1 - clampQ ((distance - fadeStart) / fadeDelta) 0 1)%Q.

(** The loop over [mLights] of [getLightsInViewSpace]; [bounds] is the
    collection being filled.  A division by zero is undefined. *)
Fixpoint collectLights (transforms : list LightSourceTransform) (isReflection : bool)
         (viewMatrix : Matrixf) (frameNum : Z) (bounds : list LightSourceViewBound)
         (s : Scene) : option (list LightSourceViewBound * Scene) :=
  match transforms with
  | [] => Some (bounds, s)
  | transform :: rest =>
      ls ← lightSources s !! lst_mLightSource transform;
      let viewBound := viewBoundOf transform viewMatrix ls s in
      let l := mkLightSourceViewBound (lst_mLightSource transform) viewBound in
      if negb isReflection && negb (Qeq_bool (mPointLightFadeEnd s) 0)
      then
        let fadeDelta := (mPointLightFadeEnd s - mPointLightFadeStart s)%Q in
        if Qeq_bool fadeDelta 0 then None
        else
          let fade := fadeFactor (Vec3_length (_center viewBound))
                                 (mPointLightFadeStart s) fadeDelta in
          if Qeq_bool fade 0
          then collectLights rest isReflection viewMatrix frameNum bounds s
          else
            let s := with_lightSources s
                       (<[lst_mLightSource transform := Light_fade ls frameNum fade]>
                          (lightSources s)) in
            collectLights rest isReflection viewMatrix frameNum (bounds ++ [l]) s
      else collectLights rest isReflection viewMatrix frameNum (bounds ++ [l]) s
  end.

(** The entry of the camera in [mLightsInViewSpace], built on the first
    query of the frame. *)
Definition viewBoundsOfCamera (camera : Camera) (viewMatrix : Matrixf) (frameNum : Z)
           (s : Scene) : option (list LightSourceViewBound * Scene) :=
  match mLightsInViewSpace s !! cameraPtr camera with
  | Some bounds => Some (bounds, s)
  | None =>
      collectLights (mLights s) (isReflectionCamera camera) viewMatrix frameNum [] s
  end.

Definition proximity (l : LightSourceViewBound) : Q :=
  (Vec3_length2 (_center (mViewBound l)) - radius2 (mViewBound l))%Q.

(** The lambda [sorter]. *)
Definition sorter (left right : LightSourceViewBound) : bool :=
  Qltb (proximity left) (proximity right).

(** The truncation of the shared-buffer tier: [std::sort] from the second
    element on, then [erase] from index [getMaxLightsInScene() - 1]. *)
Definition truncateToScene (bounds : list LightSourceViewBound)
  : list LightSourceViewBound :=
  if to_size_t (getMaxLightsInScene - 1) <? Z.of_nat (length bounds)
  then
    match bounds with
    | [] => []
    | first :: others =>
        first :: take (Z.to_nat (getMaxLightsInScene - 2)) (std_sort sorter others)
    end
  else bounds.

(** [LightManager::getLightsInViewSpace] *)
Definition getLightsInViewSpace (camera : Camera) (viewMatrix : Matrixf) (frameNum : Z)
           (s : Scene) : option (list LightSourceViewBound * Scene) :=
  '(bounds, s) ← viewBoundsOfCamera camera viewMatrix frameNum s;
  let bounds :=
    if bool_decide (getLightingMethod s = SingleUBO)
    then truncateToScene bounds else bounds in
  Some (bounds, with_mLightsInViewSpace s
                  (<[cameraPtr camera := bounds]> (mLightsInViewSpace s))).

(** The list collected for the camera has more than
    [getMaxLightsInScene() - 1] entries. *)
Definition collectedOverCapacity (camera : Camera) (viewMatrix : Matrixf)
           (frameNum : Z) (s : Scene) : bool :=
  match viewBoundsOfCamera camera viewMatrix frameNum s with
  | Some (bounds, _) => getMaxLightsInScene - 1 <? Z.of_nat (length bounds)
  | None => false
  end.

(** *** The constructor *)

Definition emptyScene (store : gmap LightSourcePtr LightSource) (method : LightingMethod)
           (maxLights dummies : Z) (buffers : LightBuffer.t * LightBuffer.t) : Scene :=
  mkScene store ∅ [] ∅ 0 (to_size_t (to_unsigned (Z.lnot 0))) method 1 0 0
          maxLights dummies (∅, ∅) (∅, ∅) buffers.

(** [LightManager::LightManager(bool ffp)] with [initFFP],
    [initPerObjectUniform] and [initSingleUBO]; [store] holds the light
    sources of the scene graph and [hasLoggedWarnings] is the static flag
    of the constructor.  The warnings logged are returned.  A tier without
    light buffers has [mLightBuffers] empty. *)
Definition LightManager_new (ffp supportsUBO supportsGPU4 hasLoggedWarnings : bool)
           (cfg : Settings) (endian : LightBuffer.Endian)
           (store : gmap LightSourcePtr LightSource)
  : Scene * list (LogLevel * string) :=
  let noBuffer := LightBuffer.create endian 0 in
  if ffp
  then (emptyScene store FFP mFFPMaxLights mFFPMaxLights (noBuffer, noBuffer), [])
  else
    let '(lightingMethod, log) :=
      getLightingMethodFromString (setting_lighting_method cfg) in
    let log :=
      if bool_decide (lightingMethod = SingleUBO) && negb hasLoggedWarnings
      then
        log
        ++ (if supportsUBO then []
            else [(Warning, "GL_ARB_uniform_buffer_object not supported: switching to shader compatibility lighting mode")])
        ++ (if supportsGPU4 then []
            else [(Warning, "GL_EXT_gpu_shader4 not supported: switching to shader compatibility lighting mode")])
      else log in
    let targetLights :=
      clampZ (setting_max_lights cfg) mMaxLightsLowerLimit mMaxLightsUpperLimit in
    let s :=
      if negb supportsUBO || negb supportsGPU4
         || bool_decide (lightingMethod = PerObjectUniform)
      then emptyScene store PerObjectUniform targetLights 0 (noBuffer, noBuffer)
      else emptyScene store SingleUBO targetLights 0
                      (LightBuffer.create endian getMaxLightsInScene,
                       LightBuffer.create endian getMaxLightsInScene) in
    (updateSettings cfg s, log).

(** *** LightListCallback *)

(** What [pushLightState] reads from the cull visitor and the node:
    whether the node path holds a light manager, the masks and numbers
    of the traversal, the matrices, the bound of the node before the
    model-view transform, and [isCulled] of the culling set in front of
    the model-view culling stack. *)
Record CullVisitor := mkCullVisitor {
  cv_findLightManager : bool;
  cv_traversalMask : Z;
  cv_traversalNumber : Z;
  cv_initialViewMatrix : Matrixf;
  cv_currentCamera : Camera;
  cv_modelViewMatrix : Matrixf;
  cv_nodeBound : BoundingSphere;
  cv_isCulled : BoundingSphere -> bool
}.

Record LightListCallback := mkLightListCallback {
  mLightManager : bool;
  mLastFrameNumber : Z;
  mLightList : LightList;
  mIgnoredLightSources : gset LightSourcePtr
}.

Definition illuminationBias : Q := 81.

Definition significance (l : LightSourceViewBound) : Q :=
  (Vec3_length2 (_center (mViewBound l)) - radius2 (mViewBound l) * illuminationBias)%Q.

(** [sortLights] *)
Definition sortLights (left right : LightSourceViewBound) : bool :=
  Qltb (significance left) (significance right).

Definition doubled (bs : BoundingSphere) : BoundingSphere :=
  mkBoundingSphere (_center bs) (_radius bs * 2).

(** The loop "remove lights culled by this camera": [visited] elements
    were kept before the iterator, [rest] is from the iterator on. *)
Fixpoint removeCulled (isCulled : BoundingSphere -> bool) (maxLights : Z)
         (visited : nat) (rest : LightList) : LightList :=
  match rest with
  | [] => []
  | l :: rest' =>
      if maxLights <? Z.of_nat (visited + length rest)
      then
        if isCulled (doubled (mViewBound l))
        then removeCulled isCulled maxLights visited rest'
        else l :: removeCulled isCulled maxLights (S visited) rest'
      else rest
  end.

(** The list for which [pushLightState] asks a state set when
    [mLightList] is over the budget [maxLights]. *)
Definition reduceLightList (isCulled : BoundingSphere -> bool) (maxLights : Z)
           (mLightList : LightList) : LightList :=
  let lightList := removeCulled isCulled maxLights 0 mLightList in
  if maxLights <? Z.of_nat (length lightList)
  then take (Z.to_nat maxLights) (std_sort sortLights lightList)
  else lightList.


(** The list that [pushLightState] passes to [getLightListStateSet]. *)
Definition requestedLightList (cv : CullVisitor) (s : Scene) (mLightList : LightList)
  : LightList :=
  let maxLights := to_size_t (getMaxLights s - getStartLight s) in
  if maxLights <? Z.of_nat (length mLightList)
  then reduceLightList (cv_isCulled cv) maxLights mLightList
  else mLightList.

(** The update of [mLightList] at a new traversal number. *)
Definition intersectingLights (cb : LightListCallback) (nodeBound : BoundingSphere)
           (lights : list LightSourceViewBound) : LightList :=
  filter (fun l => (mLightSource l ∉ mIgnoredLightSources cb)
                   ∧ (intersects (mViewBound l) nodeBound = true)) lights.

(** [LightListCallback::pushLightState]: the state set pushed, if any,
    with the callback and the scene afterwards. *)
Definition pushLightState (cb : LightListCallback) (cv : CullVisitor) (s : Scene)
  : option (option StateSetPtr * LightListCallback * Scene) :=
  let found := mLightManager cb || cv_findLightManager cv in
  let cb := mkLightListCallback found (mLastFrameNumber cb) (mLightList cb)
                                (mIgnoredLightSources cb) in
  if negb found then Some (None, cb, s)
  else if Z.land (cv_traversalMask cv) (mLightingMask s) =? 0 then Some (None, cb, s)
  else
    '(cb, s) ←
      (if bool_decide (mLastFrameNumber cb ≠ cv_traversalNumber cv)
       then
         let viewMatrix := cv_initialViewMatrix cv in
         '(lights, s) ← getLightsInViewSpace (cv_currentCamera cv) viewMatrix
                                             (cv_traversalNumber cv) s;
         let nodeBound := transformBoundingSphere (cv_modelViewMatrix cv)
                                                  (cv_nodeBound cv) in
         Some (mkLightListCallback found (cv_traversalNumber cv)
                                   (intersectingLights cb nodeBound lights)
                                   (mIgnoredLightSources cb), s)
       else Some (cb, s));
    match mLightList cb with
    | [] => Some (None, cb, s)
    | _ =>
        '(stateset, s) ← getLightListStateSet (requestedLightList cv s (mLightList cb))
                           (cv_traversalNumber cv) (cv_initialViewMatrix cv) s;
        Some (Some stateset, cb, s)
    end.
End Manager.

(** ** Sequences of calls *)

Definition isSome {A} (o : option A) : bool :=
  match o with Some _ => true | None => false end.

Section Operations.
Context `{External}.

(** The identifiers of the light sources of a list, in list order. *)
Fixpoint lightIds (store : gmap LightSourcePtr LightSource) (lightList : LightList)
  : option (list Z) :=
  match lightList with
  | [] => Some []
  | vb :: rest =>
      ls ← store !! mLightSource vb;
      ids ← lightIds store rest;
      Some (mId ls :: ids)
  end.

(** The key of the state-set cache: [hashCombine] over the identifiers,
    from the seed 0. *)
Definition hashIds (ids : list Z) : Z := fold_left hashCombine ids 0.

(** The state in which [getLightListStateSet] finds the state set of its
    list in the cache, with the state set found; [mStateSetGenerator->update]
    is invoked on them. *)
Definition cacheHit (lightList : LightList) (frameNum : Z) (viewMatrix : Matrixf)
           (s : Scene) : option (Scene * StateSetPtr) :=
  '(hash, s) ← registerLights lightList frameNum viewMatrix 0 s;
  found ← getStateSetCache s frameNum !! hash;
  Some (s, found).

(** The uniform "PointLightCount" of a state set of the shared-buffer
    tier. *)
Definition storedPointLightCount (s : Scene) (stateset : StateSetPtr) : option Z :=
  match stateSets s !! stateset with
  | Some (StateSetSingleUBO _ count) => Some count
  | _ => None
  end.

(** The second state has the state sets, the state-set cache, the tier
    and the light cap of the first, and its light sources have the same
    identifiers. *)
Definition keepsCaches (s s' : Scene) : Prop :=
  stateSets s' = stateSets s
  /\ mStateSetCache s' = mStateSetCache s
  /\ mLightingMethod s' = mLightingMethod s
  /\ mMaxLights s' = mMaxLights s
  /\ forall p, mId <$> lightSources s' !! p = mId <$> lightSources s !! p.

(** Calls on the manager. *)
Inductive Operation :=
| OpUpdate (frameNum : Z)
| OpAddLight (lightSource : LightSourcePtr) (worldMat : Matrixf) (frameNum : Z)
| OpGetLightsInViewSpace (camera : Camera) (viewMatrix : Matrixf) (frameNum : Z)
| OpGetLightListStateSet (lightList : LightList) (frameNum : Z) (viewMatrix : Matrixf)
| OpSetMaxLights (value : Z)
| OpUpdateMaxLights (cfg : Settings)
| OpUpdateSettings (cfg : Settings).

Definition step (op : Operation) (s : Scene) : option Scene :=
  match op with
  | OpUpdate frameNum => Some (update frameNum s)
  | OpAddLight lightSource worldMat frameNum => addLight lightSource worldMat frameNum s
  | OpGetLightsInViewSpace camera viewMatrix frameNum =>
      snd <$> getLightsInViewSpace camera viewMatrix frameNum s
  | OpGetLightListStateSet lightList frameNum viewMatrix =>
      snd <$> getLightListStateSet lightList frameNum viewMatrix s
  | OpSetMaxLights value => Some (setMaxLights value s)
  | OpUpdateMaxLights cfg => Some (updateMaxLights cfg s)
  | OpUpdateSettings cfg => Some (updateSettings cfg s)
  end.

Fixpoint run (ops : list Operation) (s : Scene) : option Scene :=
  match ops with
  | [] => Some s
  | op :: ops' => s ← step op s; run ops' s
  end.

(** The call empties a generation of the state-set cache. *)
Definition clearsCache (op : Operation) (s : Scene) : bool :=
  match op with
  | OpUpdate _ =>
      (5000 <? Z.of_nat (size (fst (mStateSetCache s))))
      || (5000 <? Z.of_nat (size (snd (mStateSetCache s))))
  | OpUpdateMaxLights _ => negb (usingFFP s)
  | _ => false
  end.

Fixpoint noCacheClear (ops : list Operation) (s : Scene) : bool :=
  match ops with
  | [] => true
  | op :: ops' =>
      negb (clearsCache op s)
      && match step op s with
         | Some s' => noCacheClear ops' s'
         | None => true
         end
  end.

(** The lists for which the calls ask a state set. *)
Definition requestedLists (ops : list Operation) : list LightList :=
  omap (fun op => match op with
                  | OpGetLightListStateSet lightList _ _ => Some lightList
                  | _ => None
                  end) ops.

(** No list of [lists] has the cache key of [lightList] without having
    its sequence of identifiers. *)
Definition noCollision (store : gmap LightSourcePtr LightSource)
           (lists : list LightList) (lightList : LightList) : Prop :=
  Forall (fun l' => hashIds <$> lightIds store l' = hashIds <$> lightIds store lightList
                    -> lightIds store l' = lightIds store lightList) lists.

(** What holds of the manager of the shared-buffer tier after calls that
    asked state sets for [lists]: the identifiers are those of [store],
    and every cached state set is one of the tier, filed under the key
    of a list of [lists] that is at least as long as its point-light
    count. *)
Definition cacheInvariant (store : gmap LightSourcePtr LightSource)
           (lists : list LightList) (s : Scene) : Prop :=
  getLightingMethod s = SingleUBO
  /\ (forall p, mId <$> lightSources s !! p = mId <$> store !! p)
  /\ forall generation hash p,
      getStateSetCache s generation !! hash = Some p ->
      exists uOldArray count l' ids',
        stateSets s !! p = Some (StateSetSingleUBO uOldArray count)
        /\ l' ∈ lists
        /\ lightIds store l' = Some ids'
        /\ hashIds ids' = hash
        /\ count <= Z.of_nat (length l').
End Operations.

(** ** A concrete [External]

    Matrices are translations; the square root is exact on squares of
    rationals and rounded down otherwise; the hash combiner is the usual
    one ([seed ^= hash(v) + 0x9e3779b9 + (seed << 6) + (seed >> 2)] on
    64 bits, with the identity as hash of an [int]).  The models of the
    manager are evaluated on it. *)

Definition Vec3_add (a b : Vec3) : Vec3 :=
  mkVec3 (v3_x a + v3_x b) (v3_y a + v3_y b) (v3_z a + v3_z b).

Definition Vec3_sub (a b : Vec3) : Vec3 :=
  mkVec3 (v3_x a - v3_x b) (v3_y a - v3_y b) (v3_z a - v3_z b).

Definition Qsqrt_floor (q : Q) : Q :=
  Qmake (Z.sqrt (Qnum q * Z.pos (Qden q))) (Qden q).

Definition hashCombine_std (seed v : Z) : Z :=
  Z.lxor seed
         (to_size_t (to_size_t v + 2654435769
                     + to_size_t (Z.shiftl seed 6) + Z.shiftr seed 2)).

Definition translation_intersects (a b : BoundingSphere) : bool :=
  Qle_bool 0 (_radius a) && Qle_bool 0 (_radius b)
  && Qle_bool (Vec3_length2 (Vec3_sub (_center a) (_center b)))
              ((_radius a + _radius b) * (_radius a + _radius b)).

Definition TranslationOnly : External := {|
  Matrixf := Vec3;
  Matrixf_mult := Vec3_add;
  Matrixf_getTrans := fun m => m;
  Vec4_mult := fun v m =>
    mkVec4 (v4_0 v + v4_3 v * v3_x m) (v4_1 v + v4_3 v * v3_y m)
           (v4_2 v + v4_3 v * v3_z m) (v4_3 v);
  Vec3_length := fun v => Qsqrt_floor (Vec3_length2 v);
  transformBoundingSphere := fun m bs =>
    mkBoundingSphere (Vec3_add (_center bs) m) (_radius bs);
  intersects := translation_intersects;
  hashCombine := hashCombine_std;
  mMaxLightsLowerLimit := 2;
  mMaxLightsUpperLimit := 64;
  mFFPMaxLights := 8
|}.

(** ** Example scenes *)

Definition exampleLight (c : Q) : Light :=
  mkLight (mkVec4 c c c 1) (mkVec4 c c c 1) (mkVec4 c c c 1) (mkVec4 0 0 0 1) 1 0 0 0.

Definition exampleLightSource (id : Z) : LightSource :=
  mkLightSource id 10 1 (exampleLight 1, exampleLight 1).

(** Three light sources, at the addresses 1, 2 and 3. *)
Definition exampleStore : gmap LightSourcePtr LightSource :=
  <[1%nat := exampleLightSource 11]>
    (<[2%nat := exampleLightSource 12]>
       (<[3%nat := exampleLightSource 13]> ∅)).

Definition mainCamera : Camera := mkCamera 0 "MainCamera".

(** Settings with a fade-start fraction of one half, and of one. *)
Definition halfFadeSettings : Settings := mkSettings "shaders" 8 1 100 (1 # 2).

Definition newScene (cfg : Settings) : @Scene TranslationOnly :=
  fst (@LightManager_new TranslationOnly false true true false cfg LightBuffer.LittleEndian
                         exampleStore).


(** Settings without fading. *)
Definition noFadeSettings : Settings := mkSettings "shaders" 8 1 0 (1 # 2).

(** A scene in which one light source was registered 345 times, at
    distances between 0 and 349. *)
Definition crowdedScene : @Scene TranslationOnly :=
  @with_mLights TranslationOnly (newScene noFadeSettings)
    (map (fun i => @mkLightSourceTransform TranslationOnly 1%nat
                     (mkVec3 (inject_Z (Z.of_nat ((i * 7) mod 350))) 0 0))
         (seq 0 345)).

(** Settings with a budget of two lights. *)
Definition smallBudgetSettings : Settings := mkSettings "shaders" 2 1 0 (1 # 2).

(** The view-space bounds of the three light sources, at distances 3, 1
    and 2 from the camera, with radius 1. *)
Definition threeLights : LightList :=
  [mkLightSourceViewBound 1%nat (mkBoundingSphere (mkVec3 3 0 0) 1);
   mkLightSourceViewBound 2%nat (mkBoundingSphere (mkVec3 0 1 0) 1);
   mkLightSourceViewBound 3%nat (mkBoundingSphere (mkVec3 0 0 2) 1)].

(** A cull visitor of frame 0 whose culling set culls every sphere, or
    none. *)
Definition exampleCullVisitor (cullAll : bool) : @CullVisitor TranslationOnly :=
  @mkCullVisitor TranslationOnly true 1 0 (mkVec3 0 0 0) mainCamera (mkVec3 0 0 0)
                 (mkBoundingSphere (mkVec3 0 0 0) 10) (fun _ => cullAll).



Definition fadeScene : @Scene TranslationOnly :=
  let s0 := newScene halfFadeSettings in
  default s0
          (s ← @addLight TranslationOnly 1%nat (mkVec3 50 0 0) 0 s0;
           s ← @addLight TranslationOnly 2%nat (mkVec3 0 75 0) 0 s;
           @addLight TranslationOnly 3%nat (mkVec3 0 0 100) 0 s).


(** Two of the three lights as a frame finds them, and as the frame after
    the next finds them, further away. *)
Definition twoLights : LightList := take 2 threeLights.

Definition twoLightsLater : LightList :=
  [mkLightSourceViewBound 1%nat (mkBoundingSphere (mkVec3 4 0 0) 1);
   mkLightSourceViewBound 2%nat (mkBoundingSphere (mkVec3 0 5 0) 1)].

(** The first call for [twoLights], in frame 0 of a new scene. *)
Definition firstCall : StateSetPtr * @Scene TranslationOnly :=
  default (0%nat, newScene noFadeSettings)
          (@getLightListStateSet TranslationOnly twoLights 0 (mkVec3 0 0 0)
                                 (newScene noFadeSettings)).

(** A pass over frame 1 and the start of frame 2. *)
Definition callsBetween : list (@Operation TranslationOnly) :=
  [@OpUpdate TranslationOnly 1;
   @OpAddLight TranslationOnly 3%nat (mkVec3 0 0 2) 1;
   @OpGetLightListStateSet TranslationOnly (drop 1 threeLights) 1 (mkVec3 0 0 0);
   @OpUpdate TranslationOnly 2].

Definition sceneBetween : @Scene TranslationOnly :=
  default (snd firstCall) (@run TranslationOnly callsBetween (snd firstCall)).

(** The calls that lead to the second query for the two lights. *)
Definition callsBefore : list (@Operation TranslationOnly) :=
  @OpGetLightListStateSet TranslationOnly twoLights 0 (mkVec3 0 0 0) :: callsBetween.

(** ** Further parts of the file *)

(** ** The records of the light buffer *)

(** The slots of the ambient and specular colours and of the sign marker
    lie in the 16 bytes of the diffuse slot, where both constructors of
    [Offsets] put them. *)
Definition coloursPacked (o : LightBuffer.Offsets) : bool :=
  (LightBuffer.mValues o LightBuffer.Ambient =? LightBuffer.mValues o LightBuffer.Diffuse + 1)
  && (LightBuffer.mValues o LightBuffer.Specular
      =? LightBuffer.mValues o LightBuffer.Diffuse + 2)
  && (LightBuffer.mValues o LightBuffer.DiffuseSign
      =? LightBuffer.mValues o LightBuffer.Diffuse + 3).

(** [LightBuffer::setCachedSunPos] *)
Definition setCachedSunPos (b : LightBuffer.t) (pos : Vec4) : LightBuffer.t :=
  LightBuffer.mkLightBuffer (LightBuffer.mData b) (LightBuffer.mEndian b)
                            (LightBuffer.mCount b) (LightBuffer.mOffsets b) pos.

(** [LightBuffer::uploadCachedSunPos] *)
Definition uploadCachedSunPos `{External} (b : LightBuffer.t) (viewMat : Matrixf)
  : option LightBuffer.t :=
  let viewPos := Vec4_mult (LightBuffer.mCachedSunPos b) viewMat in
  d ← LightBuffer.memcpy (LightBuffer.mData b)
        (LightBuffer.getOffset b 0 LightBuffer.Position) (LightBuffer.Vec4_cells viewPos);
  Some (LightBuffer.withData b d).

(** The sun of [LightManagerCullCallback] in the tiers that keep a light
    buffer: the position is cached and the colours go to record 0. *)
Definition packSun (sun : Light) (buf : LightBuffer.t) : option LightBuffer.t :=
  let buf := setCachedSunPos buf (lPosition sun) in
  buf ← LightBuffer.setAmbient buf 0 (lAmbient sun);
  buf ← LightBuffer.setDiffuse buf 0 (lDiffuse sun);
  LightBuffer.setSpecular buf 0 (lSpecular sun).

(** The buffer holds [mCount] records under its layout, with the colour
    slots packed. *)
Definition bufferFits (b : LightBuffer.t) : bool :=
  LightBuffer.layoutFits (LightBuffer.mOffsets b) (LightBuffer.mCount b)
                         (Z.of_nat (length (LightBuffer.mData b)))
  && coloursPacked (LightBuffer.mOffsets b).

(** The colour that [setDiffuse] packs and the marker it stores. *)
Definition positiveColor (value : Vec4) : Vec4 :=
  if Qltb (v4_0 value) 0 then Vec4_scale value (-1) else value.

Definition signBit (value : Vec4) : Z :=
  if Qltb (v4_0 value) 0 then LightBuffer.all_ones else 1.

(** ** Slots of the index map *)

(** The slot that the index map of the frame holds for the light of an
    element. *)
Definition slotOf `{External} (s : Scene) (frameNum : Z) (vb : LightSourceViewBound)
  : option Z :=
  ls ← lightSources s !! mLightSource vb;
  getLightIndexMap s frameNum !! mId ls.

(** The slots of an index map are 1, ..., [size], each held by one
    light. *)
Definition slotsAssigned (m : gmap Z Z) : Prop :=
  map_Forall (fun _ v => 1 <= v <= Z.of_nat (size m)) m
  /\ NoDup (map_to_list m).*2.

Global Instance slotsAssigned_dec (m : gmap Z Z) : Decision (slotsAssigned m).
Proof. unfold slotsAssigned. apply _. Defined.

(** ** The two generations *)

(** The frame of a call that is made for one frame and works on the
    generation of that frame. *)
Definition frameOf `{External} (op : Operation) : option Z :=
  match op with
  | OpAddLight _ _ frameNum => Some frameNum
  | OpGetLightsInViewSpace _ _ frameNum => Some frameNum
  | OpGetLightListStateSet _ frameNum _ => Some frameNum
  | _ => None
  end.

(** What the manager keeps for the frames of the parity of [g] is in
    [s'] as it is in [s]: the index map, the light buffer, the
    generation of the state-set cache, and the [osg::Light] of every
    light source. *)
Definition keepsGeneration `{External} (g : Z) (s s' : Scene) : Prop :=
  getLightIndexMap s' g = getLightIndexMap s g
  /\ getLightBuffer s' g = getLightBuffer s g
  /\ getStateSetCache s' g = getStateSetCache s g
  /\ forall p, (fun ls => getLight ls g) <$> lightSources s' !! p
               = (fun ls => getLight ls g) <$> lightSources s !! p.

(** ** Names of the lighting methods *)

(** [LightManager::getLightingMethodString]: the name of the first entry
    of the map that holds the method.  The order in which an
    [unordered_map] is traversed is unspecified; the methods of the map
    are distinct, so the result does not depend on it. *)
Definition getLightingMethodString (method : LightingMethod) : string :=
  match List.find (fun p => bool_decide (p.2 = method))
                  (map_to_list mLightingMethodSettingMap) with
  | Some p => p.1
  | None => ""
  end.

(** ** The radius attached to a light *)

(** [getLightRadius]: the user value "radius" of the light, which is 0
    until [setLightRadius] sets it. *)
Definition getLightRadius (light : Light) : Q := lUserRadius light.

(** What the generator of the per-object tier does to a light source of
    its list: the radius of the source is attached to its light of the
    frame. *)
Definition withRadius (frameNum : Z) (ls : LightSource) : LightSource :=
  setLight ls frameNum (setLightRadius (getLight ls frameNum) (mRadius ls)).

(** ** The light state of the fixed-function tier *)

(** A pointer to an [osg::Light]: the address of its light source and the
    parity of the frame, as the state sets of the tier hold it. *)
Abbreviation LightPtr := (LightSourcePtr * Z)%type.

(** The OpenGL calls of the light state attributes: the seven [glLight]
    calls of [applyLight] for one light, the three [glLightfv] calls of
    [DisableLight::apply] with the null colour, and the two calls of
    [applyModelViewMatrix], with the initial view matrix and with the
    matrix saved before. *)
Inductive GLCall :=
| ApplyLight (lightNum : Z) (light : LightPtr)
| NullLight (lightNum : Z)
| ApplyInitialViewMatrix
| RestoreModelViewMatrix.

(** The static [cacheVector] of [getLightStateCache], one
    [lastAppliedLight] per graphics context ([None] is the null pointer),
    and the calls issued so far, in order. *)
Record GLState := mkGLState {
  cacheVector : list (list (option LightPtr));
  glCalls : list GLCall
}.

(** [std::vector::resize]; the new elements are value-initialised. *)
Definition vector_resize {A} (d : A) (l : list A) (n : nat) : list A :=
  take n l ++ replicate (n - length l) d.

(** [getLightStateCache(contextid, size)]: the vector after the call;
    the cache returned is its element [contextid]. *)
Definition getLightStateCache (contextid size : nat)
           (cacheVector : list (list (option LightPtr)))
  : list (list (option LightPtr)) :=
  let cacheVector :=
    if (length cacheVector <? contextid + 1)%nat
    then vector_resize [] cacheVector (contextid + 1)
    else cacheVector in
  alter (fun cache => vector_resize None cache size) contextid cacheVector.

(** The loop of [FFPLightStateAttribute::apply] from [i] on.  [mIndex]
    is a [size_t]; a read of [lastAppliedLight] past its end is
    undefined. *)
Fixpoint applyLights (mIndex : Z) (mLights : list LightPtr) (i : Z)
         (lastAppliedLight : list (option LightPtr)) (calls : list GLCall)
  : option (list (option LightPtr) * list GLCall) :=
  match mLights with
  | [] => Some (lastAppliedLight, calls)
  | light :: rest =>
      let slot := Z.to_nat (to_size_t (i + mIndex)) in
      current ← lastAppliedLight !! slot;
      if bool_decide (current ≠ Some light)
      then
        let lightNum := to_unsigned (to_size_t (to_size_t (GL_LIGHT0 + i) + mIndex)) in
        applyLights mIndex rest (i + 1) (<[slot := Some light]> lastAppliedLight)
                    (calls ++ [ApplyLight lightNum light])
      else applyLights mIndex rest (i + 1) lastAppliedLight calls
  end.

(** [FFPLightStateAttribute::apply] in the context [contextid]. *)
Definition FFPLightStateAttribute_apply (mIndex : Z) (mLights : list LightPtr)
           (contextid : nat) (st : GLState) : option GLState :=
  match mLights with
  | [] => Some st
  | _ =>
      let calls := glCalls st ++ [ApplyInitialViewMatrix] in
      let cacheVector := getLightStateCache contextid 8 (cacheVector st) in
      cache ← cacheVector !! contextid;
      '(cache, calls) ← applyLights mIndex mLights 0 cache calls;
      Some (mkGLState (<[contextid := cache]> cacheVector)
                      (calls ++ [RestoreModelViewMatrix]))
  end.

(** [DisableLight::apply]; [mIndex] is the [size_t] member, which the
    [int lightNum] receives converted. *)
Definition DisableLight_apply (mIndex : Z) (contextid : nat) (st : GLState)
  : option GLState :=
  let lightNum := to_int (to_size_t (GL_LIGHT0 + mIndex)) in
  let calls := glCalls st ++ [NullLight lightNum] in
  let cacheVector := getLightStateCache contextid 8 (cacheVector st) in
  cache ← cacheVector !! contextid;
  if (Z.to_nat mIndex <? length cache)%nat
  then Some (mkGLState (<[contextid := <[Z.to_nat mIndex := None]> cache]> cacheVector)
                       calls)
  else None.

(** The [applyLight] calls for the lights from position [i] on whose
    slot of [cache] holds another light, or none. *)
Fixpoint staleLights (mIndex : Z) (mLights : list LightPtr) (i : Z)
         (cache : list (option LightPtr)) : list GLCall :=
  match mLights with
  | [] => []
  | light :: rest =>
      (if bool_decide (cache !! Z.to_nat (i + mIndex) = Some (Some light))
       then []
       else [ApplyLight (GL_LIGHT0 + i + mIndex) light])
      ++ staleLights mIndex rest (i + 1) cache
  end.

(** The cache of a context, as [getLightStateCache] returns it. *)
Definition lastAppliedLight (st : GLState) (contextid : nat) : list (option LightPtr) :=
  default [] (getLightStateCache contextid 8 (cacheVector st) !! contextid).

(** ** The slots and the buffers of a manager *)



(** ** The start light *)

(** [LightManager::setStartLight]: the manager afterwards, and the
    [mIndex] of the [DisableLight] attributes that the call sets on the
    state set of the manager, in order. *)
Definition setStartLight `{External} (start : Z) (s : Scene) : Scene * list Z :=
  let s := mkScene (lightSources s) (stateSets s) (mLights s) (mLightsInViewSpace s) start
                   (mLightingMask s) (mLightingMethod s) (mPointLightRadiusMultiplier s)
                   (mPointLightFadeEnd s) (mPointLightFadeStart s) (mMaxLights s)
                   (mDummies s) (mLightIndexMaps s) (mStateSetCache s)
                   (mLightBuffers s) in
  if negb (usingFFP s) then (s, [])
  else (s, map (fun k => to_size_t (start + Z.of_nat k))
               (seq 0 (Z.to_nat (getMaxLights s - start)))).

(** * Properties *)

(** ** Comparisons and clamping of rationals *)

Lemma Qltb_lt (a b : Q) : Qltb a b = true <-> (a < b)%Q.
Proof.
  unfold Qltb. rewrite negb_true_iff. split.
  - intros Hf. apply Qnot_le_lt. intros Hle.
    apply Qle_bool_iff in Hle. congruence.
  - intros Hlt. destruct (Qle_bool b a) eqn:E; [|reflexivity].
    apply Qle_bool_iff in E. exfalso. exact (Qlt_not_le _ _ Hlt E).
Qed.

Lemma Qltb_ge (a b : Q) : Qltb a b = false <-> (b <= a)%Q.
Proof.
  unfold Qltb. rewrite negb_false_iff. apply Qle_bool_iff.
Qed.

Lemma clampQ_range (v lo hi : Q) : (lo <= hi)%Q -> (lo <= clampQ v lo hi <= hi)%Q.
Proof.
  intros Hle. unfold clampQ.
  destruct (Qltb v lo) eqn:E1.
  - split; [apply Qle_refl | exact Hle].
  - apply Qltb_ge in E1. destruct (Qltb hi v) eqn:E2.
    + split; [exact Hle | apply Qle_refl].
    + apply Qltb_ge in E2. split; assumption.
Qed.

Lemma clampTo_range (v lo hi : Q) : (lo <= hi)%Q -> (lo <= clampTo v lo hi <= hi)%Q.
Proof. exact (clampQ_range v lo hi). Qed.

(** ** Packed colours *)

Lemma channel_byte_range (c : Q) : 0 <= channel_byte c <= 255.
Proof.
  unfold channel_byte.
  destruct (clampTo_range (c * 255) 0 255) as [Hlo Hhi]; [discriminate|].
  split.
  - change 0 with (Qfloor 0). apply Qfloor_resp_le. exact Hlo.
  - change 255 with (Qfloor 255). apply Qfloor_resp_le. exact Hhi.
Qed.

Lemma lor_below (n a b : Z) :
  0 <= n -> 0 <= a < 2 ^ n -> 0 <= b < 2 ^ n -> 0 <= Z.lor a b < 2 ^ n.
Proof.
  intros Hn Ha Hb.
  assert (Hnn : 0 <= Z.lor a b) by (apply Z.lor_nonneg; lia).
  split; [exact Hnn|].
  destruct (Z.eq_dec (Z.lor a b) 0) as [E|E]; [rewrite E; lia|].
  apply Z.log2_lt_pow2; [lia|].
  rewrite Z.log2_lor by lia.
  destruct (Z.eq_dec a 0) as [Ea|Ea]; destruct (Z.eq_dec b 0) as [Eb|Eb]; subst.
  - exfalso. apply E. reflexivity.
  - rewrite Z.max_r by (simpl; apply Z.log2_nonneg). apply Z.log2_lt_pow2; lia.
  - rewrite Z.max_l by (simpl; apply Z.log2_nonneg). apply Z.log2_lt_pow2; lia.
  - apply Z.max_lub_lt; apply Z.log2_lt_pow2; lia.
Qed.

Lemma pack_bytes_range (b3 b2 b1 b0 : Z) :
  0 <= b3 <= 255 -> 0 <= b2 <= 255 -> 0 <= b1 <= 255 -> 0 <= b0 <= 255 ->
  0 <= pack_bytes b3 b2 b1 b0 < 2 ^ 32.
Proof.
  intros H3 H2 H1 H0. unfold pack_bytes.
  rewrite !Z.shiftl_mul_pow2 by lia.
  repeat apply lor_below; lia.
Qed.

Lemma asRGBA_range (b : LightBuffer.t) (v : Vec4) : 0 <= LightBuffer.asRGBA b v < 2 ^ 32.
Proof.
  unfold LightBuffer.asRGBA, Vec4_asRGBA, Vec4_asABGR.
  destruct (LightBuffer.mEndian b); apply pack_bytes_range; apply channel_byte_range.
Qed.

(** ** Reading and writing the float array *)

Section Arrays.
Import LightBuffer.

Lemma readCells_quad (l : list Cell) (p : Z) :
  0 <= p -> p + 4 <= Z.of_nat (length l) -> readCells l p 4 = Some (quad l p).
Proof.
  intros Hp Hb. unfold readCells, quad.
  replace (0 <=? p) with true by (symmetry; apply Z.leb_le; lia).
  replace (p + Z.of_nat 4 <=? Z.of_nat (length l)) with true
    by (symmetry; apply Z.leb_le; lia).
  reflexivity.
Qed.


Lemma memcpy_in_bounds (dst : list Cell) (p : Z) (src : list Cell) :
  0 <= p -> p + Z.of_nat (length src) <= Z.of_nat (length dst) ->
  memcpy dst p src = Some (list_inserts (Z.to_nat p) src dst).
Proof.
  intros Hp Hb. unfold memcpy.
  replace (0 <=? p) with true by (symmetry; apply Z.leb_le; lia).
  replace (p + Z.of_nat (length src) <=? Z.of_nat (length dst)) with true
    by (symmetry; apply Z.leb_le; lia).
  reflexivity.
Qed.

Lemma quad_inserts_same (l src : list Cell) (p : Z) :
  0 <= p -> p + 4 <= Z.of_nat (length l) -> length src = 4%nat ->
  quad (list_inserts (Z.to_nat p) src l) p = src.
Proof.
  intros Hp Hb Hlen. unfold quad. apply list_eq. intros i.
  rewrite lookup_take. destruct (decide (i < 4)%nat) as [Hi|Hi].
  - rewrite lookup_drop, list_lookup_inserts by lia.
    f_equal. lia.
  - symmetry. apply lookup_ge_None. lia.
Qed.

Lemma quad_inserts_other (l src : list Cell) (p q : Z) :
  0 <= p -> 0 <= q -> length src = 4%nat -> q + 4 <= p \/ p + 4 <= q ->
  quad (list_inserts (Z.to_nat p) src l) q = quad l q.
Proof.
  intros Hp Hq Hlen Hd. unfold quad. apply list_eq. intros i.
  rewrite !lookup_take. destruct (decide (i < 4)%nat) as [Hi|Hi]; [|reflexivity].
  rewrite !lookup_drop. destruct Hd as [Hd|Hd].
  - apply list_lookup_inserts_lt. lia.
  - apply list_lookup_inserts_ge. lia.
Qed.
End Arrays.

(** ** configureLayout *)

Section ConfigureLayout.
Import LightBuffer.

Lemma layoutFits_slot (o : Offsets) (count len : Z) (slot : LayoutOffset) :
  layoutFits o count len = true -> isCopied slot = true ->
  0 <= mValues o slot /\ mValues o slot + 4 <= mStride o.
Proof.
  unfold layoutFits. rewrite !andb_true_iff, !Z.leb_le.
  intros H Hs. destruct slot; try discriminate; lia.
Qed.

Lemma layoutFits_disjoint (o : Offsets) (count len : Z) (s1 s2 : LayoutOffset) :
  layoutFits o count len = true -> isCopied s1 = true -> isCopied s2 = true ->
  s1 <> s2 ->
  mValues o s1 + 4 <= mValues o s2 \/ mValues o s2 + 4 <= mValues o s1.
Proof.
  unfold layoutFits, disjointQuads.
  rewrite !andb_true_iff, !orb_true_iff, !Z.leb_le.
  intros H H1 H2 Hne.
  destruct s1; try discriminate; destruct s2; try discriminate;
    try congruence; lia.
Qed.

Lemma layoutFits_len (o : Offsets) (count len : Z) :
  layoutFits o count len = true -> mStride o * count <= len.
Proof.
  unfold layoutFits. rewrite !andb_true_iff, !Z.leb_le. lia.
Qed.



Variables (b : t) (o' : Offsets) (len' : Z).
Hypothesis Hold : layoutFits (mOffsets b) (mCount b) (Z.of_nat (length (mData b))) = true.
Hypothesis Hnew : layoutFits o' (mCount b) len' = true.



End ConfigureLayout.





(** ** setDiffuse *)

(** C4, as the code has it.  [setDiffuse] writes the colour packed as four
    bytes at the [Diffuse] slot and a marker at the [DiffuseSign] slot.
    The test is on the first component alone: when it is negative the
    colour is multiplied by -1 before packing and the marker is [~0u];
    otherwise the colour is packed as it is and the marker is 1.  Nothing
    else in the array changes. *)
Theorem setDiffuse_sign_marker (b : LightBuffer.t) (index : Z) (value : Vec4) :
  let d := LightBuffer.getOffset b index LightBuffer.Diffuse in
  let m := LightBuffer.getOffset b index LightBuffer.DiffuseSign in
  let negative := Qltb (v4_0 value) 0 in
  let positiveColor := if negative then Vec4_scale value (-1) else value in
  0 <= d < Z.of_nat (length (LightBuffer.mData b)) ->
  0 <= m < Z.of_nat (length (LightBuffer.mData b)) ->
  d <> m ->
  exists b',
    LightBuffer.setDiffuse b index value = Some b'
    /\ LightBuffer.mData b' !! Z.to_nat d
       = Some (LightBuffer.UIntBits (LightBuffer.asRGBA b positiveColor))
    /\ 0 <= LightBuffer.asRGBA b positiveColor < 2 ^ 32
    /\ LightBuffer.mData b' !! Z.to_nat m
       = Some (LightBuffer.UIntBits (if negative then 4294967295 else 1))
    /\ forall k, k <> Z.to_nat d -> k <> Z.to_nat m ->
                 LightBuffer.mData b' !! k = LightBuffer.mData b !! k.
Proof.
  intros d m negative positiveColor Hd Hm Hdm.
  unfold LightBuffer.setDiffuse. fold d m negative.
  assert (Hpair :
    (if negative then (Vec4_scale value (-1), LightBuffer.all_ones) else (value, 1))
    = (positiveColor, if negative then 4294967295 else 1))
    by (unfold positiveColor; destruct negative; reflexivity).
  rewrite Hpair.
  rewrite memcpy_in_bounds by (cbn [length]; lia). cbn [mbind option_bind].
  rewrite memcpy_in_bounds by (try rewrite length_inserts; cbn [length]; lia).
  cbn [mbind option_bind].
  eexists. split; [reflexivity|]. cbn [LightBuffer.mData LightBuffer.withData].
  split; [|split; [|split]].
  - destruct (Z_lt_le_dec d m).
    + rewrite list_lookup_inserts_lt by lia.
      rewrite list_lookup_inserts by (cbn [length]; lia).
      replace (Z.to_nat d - Z.to_nat d)%nat with 0%nat by lia. reflexivity.
    + rewrite list_lookup_inserts_ge by (cbn [length]; lia).
      rewrite list_lookup_inserts by (cbn [length]; lia).
      replace (Z.to_nat d - Z.to_nat d)%nat with 0%nat by lia. reflexivity.
  - apply asRGBA_range.
  - rewrite list_lookup_inserts by (try rewrite length_inserts; cbn [length]; lia).
    replace (Z.to_nat m - Z.to_nat m)%nat with 0%nat by lia. reflexivity.
  - intros k Hkd Hkm.
    assert (Hout : forall (l : list LightBuffer.Cell) p x,
               k <> p -> list_inserts p [x] l !! k = l !! k).
    { intros l p x Hne. destruct (Nat.lt_ge_cases k p).
      - apply list_lookup_inserts_lt. lia.
      - apply list_lookup_inserts_ge. cbn [length]. lia. }
    rewrite !Hout by assumption. reflexivity.
Qed.

Lemma setDiffuse_sign_marker_witness :
  exists b',
    LightBuffer.setDiffuse (LightBuffer.create LightBuffer.LittleEndian 2) 1
                           (mkVec4 (-1) (-1 # 2) 0 1) = Some b'
    /\ LightBuffer.mData b' !! 12%nat = Some (LightBuffer.UIntBits 32767)
    /\ LightBuffer.mData b' !! 15%nat = Some (LightBuffer.UIntBits 4294967295).
Proof.
  destruct (setDiffuse_sign_marker (LightBuffer.create LightBuffer.LittleEndian 2) 1
                                   (mkVec4 (-1) (-1 # 2) 0 1))
    as (b' & Hset & Hcolour & _ & Hmarker & _).
  - vm_compute. split; [discriminate|reflexivity].
  - vm_compute. split; [discriminate|reflexivity].
  - vm_compute. discriminate.
  - exists b'. split; [exact Hset|]. split; [exact Hcolour|exact Hmarker].
Defined.

(** C4 as claimed fails: the colour (1, -1, 0, 0) has a negative
    component, yet [setDiffuse] packs it without negating it and writes the
    default marker 1. *)
Lemma setDiffuse_any_negative_counterexample :
  let value := mkVec4 1 (-1) 0 0 in
  let b := LightBuffer.create LightBuffer.LittleEndian 1 in
  (v4_1 value < 0)%Q
  /\ exists b',
      LightBuffer.setDiffuse b 0 value = Some b'
      /\ LightBuffer.mData b' !! 3%nat = Some (LightBuffer.UIntBits 1)
      /\ LightBuffer.mData b' !! 0%nat
         = Some (LightBuffer.UIntBits (LightBuffer.asRGBA b value))
      /\ LightBuffer.asRGBA b value <> LightBuffer.asRGBA b (Vec4_scale value (-1)).
Proof.
  split; [reflexivity|].
  eexists. split; [vm_compute; reflexivity|].
  split; [reflexivity|]. split; [reflexivity|].
  vm_compute. discriminate.
Qed.

(** ** getLightingMethodFromString *)

(** C8. [getLightingMethodFromString] is total: a recognised name gives
    its tier and no log; any other string gives [PerObjectUniform], the
    tier of the fallback "shaders compatibility", and one warning. *)
Theorem getLightingMethodFromString_never_fails (value : string) :
  getLightingMethodFromString value
  = if String.eqb value "legacy" then (FFP, [])
    else if String.eqb value "shaders compatibility" then (PerObjectUniform, [])
    else if String.eqb value "shaders" then (SingleUBO, [])
    else (PerObjectUniform,
          [(Warning, "Unknown lighting method '" +:+ value
                     +:+ "', returning fallback 'shaders compatibility'")]).
Proof.
  unfold getLightingMethodFromString, mLightingMethodSettingMap.
  destruct (String.eqb_spec value "legacy") as [->|H1];
    [rewrite lookup_insert_eq; reflexivity|].
  rewrite lookup_insert_ne by congruence.
  destruct (String.eqb_spec value "shaders compatibility") as [->|H2];
    [rewrite lookup_insert_eq; reflexivity|].
  rewrite lookup_insert_ne by congruence.
  destruct (String.eqb_spec value "shaders") as [->|H3];
    [rewrite lookup_insert_eq; reflexivity|].
  rewrite lookup_insert_ne by congruence.
  rewrite lookup_empty. reflexivity.
Qed.

(** ** update *)

(** C7. After [update(frameNum)] the light index map of the parity of
    [frameNum] is empty, the list of collected lights is empty and the
    view-space bounds are dropped for every camera; each of the two
    generations of the state-set cache is emptied when it held more than
    5000 entries and is left as it was otherwise. *)
Theorem update_resets `{External} (frameNum : Z) (s : Scene) :
  let s' := update frameNum s in
  getLightIndexMap s' frameNum = ∅
  /\ mLights s' = []
  /\ (forall camera : Camera, mLightsInViewSpace s' !! cameraPtr camera = None)
  /\ forall generation : Z,
      getStateSetCache s' generation
      = if 5000 <? Z.of_nat (size (getStateSetCache s generation))
        then ∅ else getStateSetCache s generation.
Proof.
  cbn zeta. unfold update, getLightIndexMap, getStateSetCache, setLightIndexMap,
    cleanupCache, get2, set2.
  cbn. split; [|split; [|split]].
  - destruct (parity frameNum); reflexivity.
  - reflexivity.
  - intros camera. apply lookup_empty.
  - intros generation. destruct (parity generation); reflexivity.
Qed.

(** ** updateSettings and the fade divisor *)

Lemma maxQ_zero_nonneg (x : Q) : (0 <= maxQ 0 x)%Q.
Proof.
  unfold maxQ. destruct (Qltb 0 x) eqn:E.
  - apply Qltb_lt in E. apply Qlt_le_weak. exact E.
  - apply Qle_refl.
Qed.





(** ** Sorting *)

Section Sorting.
Context {A : Type} (key : A -> Q).

Let less (a b : A) : bool := Qltb (key a) (key b).
Let ordered (a b : A) : Prop := (key a <= key b)%Q.

Lemma sort_insert_perm (x : A) (l : list A) :
  Permutation (sort_insert less x l) (x :: l).
Proof.
  induction l as [|y l IH]; cbn [sort_insert]; [reflexivity|].
  destruct (less x y); [reflexivity|].
  rewrite IH. apply perm_swap.
Qed.

Lemma std_sort_perm (l : list A) : Permutation (std_sort less l) l.
Proof.
  induction l as [|x l IH]; cbn [std_sort]; [reflexivity|].
  rewrite sort_insert_perm. apply perm_skip. exact IH.
Qed.

Lemma std_sort_length (l : list A) : length (std_sort less l) = length l.
Proof. apply Permutation_length, std_sort_perm. Qed.

Lemma sort_insert_sorted (x : A) (l : list A) :
  StronglySorted ordered l -> StronglySorted ordered (sort_insert less x l).
Proof.
  induction 1 as [|y l Hs IH Hall]; cbn [sort_insert].
  - constructor; [constructor|constructor].
  - destruct (less x y) eqn:E.
    + apply Qltb_lt in E. constructor.
      * constructor; assumption.
      * constructor; [apply Qlt_le_weak; exact E|].
        eapply Forall_impl; [exact Hall|].
        intros z Hz. unfold ordered in *.
        eapply Qle_trans; [apply Qlt_le_weak; exact E|exact Hz].
    + apply Qltb_ge in E. constructor; [exact IH|].
      rewrite sort_insert_perm. constructor; assumption.
Qed.

Lemma std_sort_sorted (l : list A) : StronglySorted ordered (std_sort less l).
Proof.
  induction l as [|x l IH]; cbn [std_sort]; [constructor|].
  apply sort_insert_sorted. exact IH.
Qed.

Lemma sorted_take_drop (l : list A) (n : nat) (a b : A) :
  StronglySorted ordered l -> a ∈ take n l -> b ∈ drop n l -> ordered a b.
Proof.
  intros Hs. revert n. induction Hs as [|x l Hs IH Hall]; intros n Ha Hb.
  - rewrite take_nil in Ha. inversion Ha.
  - destruct n as [|n]; [inversion Ha|]. cbn in Ha, Hb.
    apply elem_of_cons in Ha as [->|Ha].
    + rewrite Forall_forall in Hall. apply Hall.
      eapply subseteq_drop. exact Hb.
    + eapply IH; eassumption.
Qed.

Lemma sorted_take (l : list A) (n : nat) :
  StronglySorted ordered l -> StronglySorted ordered (take n l).
Proof.
  intros Hs. revert n. induction Hs as [|x l Hs IH Hall]; intros n.
  - rewrite take_nil. constructor.
  - destruct n as [|n]; [constructor|]. cbn. constructor; [apply IH|].
    rewrite Forall_forall in *. intros z Hz. apply Hall.
    eapply subseteq_take. exact Hz.
Qed.

(** What keeping the first [n] elements of the sorted list means: the
    elements kept are in ascending order of [key], they and the elements
    dropped are those of [l], and no element kept has a larger [key] than
    an element dropped. *)
Lemma std_sort_take_minimal (l : list A) (n : nat) :
  let kept := take n (std_sort less l) in
  let dropped := drop n (std_sort less l) in
  Permutation l (kept ++ dropped)
  /\ StronglySorted ordered kept
  /\ forall a b, a ∈ kept -> b ∈ dropped -> ordered a b.
Proof.
  cbn zeta. split; [|split].
  - rewrite take_drop. symmetry. apply std_sort_perm.
  - apply sorted_take, std_sort_sorted.
  - intros a b. apply sorted_take_drop, std_sort_sorted.
Qed.
End Sorting.

(** ** getLightsInViewSpace: truncation to the capacity of the scene *)

Section ViewSpace.
Context `{External}.

(** The loop over [mLights] changes the light sources and nothing else. *)
Lemma collectLights_scene (transforms : list LightSourceTransform) (isReflection : bool)
      (viewMatrix : Matrixf) (frameNum : Z) (bounds result : list LightSourceViewBound)
      (s s' : Scene) :
  collectLights transforms isReflection viewMatrix frameNum bounds s = Some (result, s') ->
  s' = with_lightSources s (lightSources s').
Proof.
  revert bounds s. induction transforms as [|t ts IH]; intros bounds s Hrun.
  - cbn in Hrun. injection Hrun as _ <-. destruct s; reflexivity.
  - cbn [collectLights] in Hrun.
    destruct (lightSources s !! lst_mLightSource t) as [ls|]; [|discriminate].
    cbn [mbind option_bind] in Hrun.
    destruct (negb isReflection && negb (Qeq_bool (mPointLightFadeEnd s) 0)).
    + destruct (Qeq_bool (mPointLightFadeEnd s - mPointLightFadeStart s) 0);
        [discriminate|].
      destruct (Qeq_bool _ 0).
      * apply IH in Hrun. exact Hrun.
      * apply IH in Hrun. rewrite Hrun. reflexivity.
    + apply IH in Hrun. exact Hrun.
Qed.

Lemma viewBoundsOfCamera_scene (camera : Camera) (viewMatrix : Matrixf) (frameNum : Z)
      (bounds : list LightSourceViewBound) (s s' : Scene) :
  viewBoundsOfCamera camera viewMatrix frameNum s = Some (bounds, s') ->
  s' = with_lightSources s (lightSources s').
Proof.
  unfold viewBoundsOfCamera.
  destruct (mLightsInViewSpace s !! cameraPtr camera).
  - intros [= _ <-]. destruct s; reflexivity.
  - apply collectLights_scene.
Qed.

Lemma truncateToScene_over (first : LightSourceViewBound)
      (others : list LightSourceViewBound) :
  getMaxLightsInScene - 1 < Z.of_nat (length (first :: others)) ->
  truncateToScene (first :: others)
  = first :: take (Z.to_nat (getMaxLightsInScene - 2)) (std_sort sorter others).
Proof.
  intros Hover. unfold truncateToScene.
  replace (to_size_t (getMaxLightsInScene - 1) <? Z.of_nat (length (first :: others)))
    with true; [reflexivity|].
  symmetry. apply Z.ltb_lt. exact Hover.
Qed.
End ViewSpace.

(** C2. In the shared-buffer tier, when the list collected for the camera
    has more than [getMaxLightsInScene - 1] entries, the list returned has
    exactly [getMaxLightsInScene - 1] entries; its first element is the
    first element collected; the others are in ascending order of
    (distance squared minus radius squared), they and the entries dropped
    are the collected entries from index 1 on, and none of them is further
    in that order than an entry dropped. *)
Theorem getLightsInViewSpace_truncates `{External} (camera : Camera)
        (viewMatrix : Matrixf) (frameNum : Z) (s : Scene) :
  getLightingMethod s = SingleUBO ->
  collectedOverCapacity camera viewMatrix frameNum s = true ->
  exists collected s1 result s2 dropped,
    viewBoundsOfCamera camera viewMatrix frameNum s = Some (collected, s1)
    /\ getLightsInViewSpace camera viewMatrix frameNum s = Some (result, s2)
    /\ Z.of_nat (length result) = getMaxLightsInScene - 1
    /\ head result = head collected
    /\ Permutation (tail collected) (tail result ++ dropped)
    /\ StronglySorted (fun a b => (proximity a <= proximity b)%Q) (tail result)
    /\ forall a b, a ∈ tail result -> b ∈ dropped -> (proximity a <= proximity b)%Q.
Proof.
  intros Hmethod Hover. unfold collectedOverCapacity in Hover.
  destruct (viewBoundsOfCamera camera viewMatrix frameNum s) as [[collected s1]|] eqn:Hcollect;
    [|discriminate].
  apply Z.ltb_lt in Hover.
  pose proof (viewBoundsOfCamera_scene _ _ _ _ _ _ Hcollect) as Hs1.
  assert (Hmethod1 : getLightingMethod s1 = SingleUBO)
    by (rewrite Hs1; exact Hmethod).
  destruct collected as [|first others].
  { exfalso. revert Hover. vm_compute. discriminate. }
  destruct (std_sort_take_minimal proximity others
              (Z.to_nat (getMaxLightsInScene - 2))) as (Hperm & Hsorted & Hmin).
  eexists _, _, _, _, (drop (Z.to_nat (getMaxLightsInScene - 2)) (std_sort sorter others)).
  split; [reflexivity|]. split.
  - unfold getLightsInViewSpace. rewrite Hcollect. cbn [mbind option_bind].
    rewrite bool_decide_eq_true_2 by exact Hmethod1.
    rewrite truncateToScene_over by exact Hover. reflexivity.
  - cbn [tail head]. split; [|split; [reflexivity|split; [exact Hperm|split]]].
    + cbn [length]. rewrite length_take. unfold sorter.
      rewrite (std_sort_length proximity others).
      change (getMaxLightsInScene - 1) with 340 in *.
      change (getMaxLightsInScene - 2) with 339 in *.
      cbn [length] in Hover. lia.
    + exact Hsorted.
    + exact Hmin.
Qed.

Lemma getLightsInViewSpace_truncates_witness :
  exists collected s1 result s2 dropped,
    @viewBoundsOfCamera TranslationOnly mainCamera (mkVec3 0 0 0) 0 crowdedScene
    = Some (collected, s1)
    /\ @getLightsInViewSpace TranslationOnly mainCamera (mkVec3 0 0 0) 0 crowdedScene
       = Some (result, s2)
    /\ Z.of_nat (length result) = getMaxLightsInScene - 1
    /\ head result = head collected
    /\ Permutation (tail collected) (tail result ++ dropped)
    /\ StronglySorted (fun a b => (proximity a <= proximity b)%Q) (tail result)
    /\ forall a b, a ∈ tail result -> b ∈ dropped -> (proximity a <= proximity b)%Q.
Proof.
  apply (@getLightsInViewSpace_truncates TranslationOnly mainCamera (mkVec3 0 0 0) 0
           crowdedScene).
  - vm_compute. reflexivity.
  - vm_compute. reflexivity.
Defined.

(** ** pushLightState: the lights of a node over the budget *)

Section Selection.
Context `{External}.
Variables (isCulled : BoundingSphere -> bool) (maxLights : Z).

Let visible (l : LightSourceViewBound) : bool :=
  negb (isCulled (doubled (mViewBound l))).

(** The loop removes culled lights from the front of the list and stops
    at the first position [n] where the list is within the budget. *)
Lemma removeCulled_prefix (rest : LightList) (visited : nat) :
  maxLights <= Z.of_nat (visited + length rest) ->
  exists n,
    (n <= length rest)%nat
    /\ removeCulled isCulled maxLights visited rest
       = List.filter visible (take n rest) ++ drop n rest
    /\ maxLights <= Z.of_nat (visited + length (removeCulled isCulled maxLights visited rest))
    /\ (n = length rest
        \/ Z.of_nat (visited + length (removeCulled isCulled maxLights visited rest))
           = maxLights).
Proof.
  revert visited. induction rest as [|l rest IH]; intros visited Hsize.
  - exists 0%nat. cbn. split; [lia|]. split; [reflexivity|]. split; [exact Hsize|].
    left. reflexivity.
  - cbn [removeCulled].
    destruct (maxLights <? Z.of_nat (visited + length (l :: rest))) eqn:Hover.
    + apply Z.ltb_lt in Hover. cbn [length] in Hover.
      destruct (isCulled (doubled (mViewBound l))) eqn:Hculled.
      * destruct (IH visited) as (n & Hn & Heq & Hge & Hstop); [lia|].
        exists (S n). cbn [take drop List.filter length]. unfold visible at 1.
        rewrite Hculled. cbn [negb].
        split; [lia|]. split; [exact Heq|]. split; [exact Hge|].
        destruct Hstop as [->|Hstop]; [left; reflexivity|right; exact Hstop].
      * destruct (IH (S visited)) as (n & Hn & Heq & Hge & Hstop); [lia|].
        exists (S n). cbn [take drop List.filter length]. unfold visible at 1.
        rewrite Hculled. cbn [negb app].
        split; [lia|]. split; [rewrite Heq; reflexivity|].
        split; [lia|].
        destruct Hstop as [->|Hstop]; [left; reflexivity|right; lia].
    + apply Z.ltb_ge in Hover. exists 0%nat. cbn [take drop List.filter app].
      split; [lia|]. split; [reflexivity|]. split; [exact Hsize|].
      right. lia.
Qed.

Lemma reduceLightList_length (mLightList : LightList) :
  0 <= maxLights -> maxLights <= Z.of_nat (length mLightList) ->
  Z.of_nat (length (reduceLightList isCulled maxLights mLightList)) = maxLights.
Proof.
  intros Hmax Hover. unfold reduceLightList.
  destruct (removeCulled_prefix mLightList 0) as (n & _ & _ & Hge & _); [exact Hover|].
  cbn [Nat.add] in Hge.
  destruct (maxLights <? _) eqn:E.
  - apply Z.ltb_lt in E. rewrite length_take. unfold sortLights.
    rewrite (std_sort_length significance). lia.
  - apply Z.ltb_ge in E. lia.
Qed.
End Selection.

(** Whenever [pushLightState] pushes a state set, it is the one that
    [getLightListStateSet] returns for [requestedLightList] of the list the
    callback holds for the frame. *)
Lemma pushLightState_requests `{External} (cb cb' : LightListCallback) (cv : CullVisitor)
      (s s' : Scene) (stateset : StateSetPtr) :
  pushLightState cb cv s = Some (Some stateset, cb', s') ->
  exists s1,
    getLightListStateSet (requestedLightList cv s1 (mLightList cb'))
                         (cv_traversalNumber cv) (cv_initialViewMatrix cv) s1
    = Some (stateset, s').
Proof.
  unfold pushLightState.
  destruct (negb (mLightManager cb || cv_findLightManager cv)); [discriminate|].
  destruct (Z.land (cv_traversalMask cv) (mLightingMask s) =? 0); [discriminate|].
  match goal with |- context [mbind _ ?m] => destruct m as [[cb1 s1]|] end;
    [|discriminate].
  cbn [mbind option_bind].
  destruct (mLightList cb1) eqn:Hlist; [discriminate|]. rewrite <- Hlist.
  destruct (getLightListStateSet _ _ _ s1) as [[p s2]|] eqn:Hget; [|discriminate].
  cbn [mbind option_bind]. intros [= <- <- <-]. exists s1. exact Hget.
Qed.




(** ** getLightsInViewSpace: the fade *)





Section Fade.
Context `{External}.



Variables (viewMatrix : Matrixf) (frameNum : Z).



End Fade.







(** ** The state-set cache *)

Section Cache.
Context `{External}.

Lemma keepsCaches_refl (s : Scene) : keepsCaches s s.
Proof. unfold keepsCaches. tauto. Qed.

Lemma keepsCaches_trans (s1 s2 s3 : Scene) :
  keepsCaches s1 s2 -> keepsCaches s2 s3 -> keepsCaches s1 s3.
Proof.
  intros (A1 & B1 & C1 & D1 & E1) (A2 & B2 & C2 & D2 & E2).
  unfold keepsCaches. rewrite A2, B2, C2, D2.
  repeat split; try assumption. intros p. rewrite E2. apply E1.
Qed.

Lemma lightIds_ext (m1 m2 : gmap LightSourcePtr LightSource) (l : LightList) :
  (forall p, mId <$> m1 !! p = mId <$> m2 !! p) -> lightIds m1 l = lightIds m2 l.
Proof.
  intros Hids. induction l as [|vb l IH]; [reflexivity|].
  cbn [lightIds]. specialize (Hids (mLightSource vb)). rewrite IH.
  destruct (m1 !! mLightSource vb) as [a|], (m2 !! mLightSource vb) as [b|];
    cbn in *; try discriminate; [|reflexivity].
  injection Hids as ->. reflexivity.
Qed.

Lemma lightIds_length (m : gmap LightSourcePtr LightSource) (l : LightList)
      (ids : list Z) :
  lightIds m l = Some ids -> length ids = length l.
Proof.
  revert ids. induction l as [|vb l IH]; intros ids Hids.
  - injection Hids as <-. reflexivity.
  - cbn [lightIds] in Hids.
    destruct (m !! mLightSource vb); [|discriminate]. cbn in Hids.
    destruct (lightIds m l) as [ids'|]; [|discriminate]. cbn in Hids.
    injection Hids as <-. cbn. rewrite (IH ids' eq_refl). reflexivity.
Qed.

Lemma lightIds_valid (m : gmap LightSourcePtr LightSource) (l : LightList)
      (ids : list Z) (vb : LightSourceViewBound) :
  lightIds m l = Some ids -> vb ∈ l -> is_Some (m !! mLightSource vb).
Proof.
  revert ids. induction l as [|vb' l IH]; intros ids Hids Hin; [inversion Hin|].
  cbn [lightIds] in Hids.
  destruct (m !! mLightSource vb') as [ls|] eqn:Hls; [|discriminate]. cbn in Hids.
  destruct (lightIds m l) as [ids'|]; [|discriminate].
  apply elem_of_cons in Hin as [->|Hin]; [rewrite Hls; eauto|].
  eapply IH; [reflexivity|exact Hin].
Qed.

Lemma updateGPUPointLight_keeps (index : Z) (lightSource : LightSourcePtr)
      (frameNum : Z) (viewMatrix : Matrixf) (s s' : Scene) :
  updateGPUPointLight index lightSource frameNum viewMatrix s = Some s' ->
  keepsCaches s s' /\ lightSources s' = lightSources s.
Proof.
  unfold updateGPUPointLight.
  destruct (lightSources s !! lightSource); [|discriminate]. cbn [mbind option_bind].
  destruct (LightBuffer.setDiffuse _ _ _); [|discriminate]. cbn [mbind option_bind].
  destruct (LightBuffer.setAmbient _ _ _); [|discriminate]. cbn [mbind option_bind].
  destruct (LightBuffer.setAttenuationRadius _ _ _); [|discriminate].
  cbn [mbind option_bind].
  destruct (LightBuffer.setPosition _ _ _); [|discriminate]. cbn [mbind option_bind].
  intros [= <-]. split; [|reflexivity]. unfold keepsCaches. cbn. tauto.
Qed.

Lemma setLightIndexMap_keeps (s : Scene) (frameNum : Z) (m : gmap Z Z) :
  keepsCaches s (setLightIndexMap s frameNum m).
Proof. unfold keepsCaches. cbn. tauto. Qed.

(** The first loop of [getLightListStateSet] combines the identifiers of
    the list into the hash and leaves the caches as they are. *)
Lemma registerLights_spec (l : LightList) (frameNum : Z) (viewMatrix : Matrixf)
      (hash hash' : Z) (s s' : Scene) :
  registerLights l frameNum viewMatrix hash s = Some (hash', s') ->
  keepsCaches s s'
  /\ lightSources s' = lightSources s
  /\ exists ids, lightIds (lightSources s) l = Some ids
                 /\ hash' = fold_left hashCombine ids hash.
Proof.
  revert hash s. induction l as [|vb l IH]; intros hash s Hrun.
  - cbn in Hrun. injection Hrun as <- <-.
    split; [apply keepsCaches_refl|]. split; [reflexivity|].
    exists []. split; reflexivity.
  - cbn [registerLights lightIds] in *.
    destruct (lightSources s !! mLightSource vb) as [ls|] eqn:Hls; [|discriminate].
    cbn [mbind option_bind] in *.
    assert (Hnext : forall s1,
      keepsCaches s s1 -> lightSources s1 = lightSources s ->
      registerLights l frameNum viewMatrix (hashCombine hash (mId ls)) s1
      = Some (hash', s') ->
      keepsCaches s s' /\ lightSources s' = lightSources s
      /\ exists ids, (ids0 ← lightIds (lightSources s) l; Some (mId ls :: ids0))
                     = Some ids
                     /\ hash' = fold_left hashCombine ids hash).
    { intros s1 Hkeep Hstore Hrest.
      destruct (IH _ _ Hrest) as (Hkeep' & Hstore' & ids & Hids & Hhash).
      split; [eapply keepsCaches_trans; eassumption|].
      split; [rewrite Hstore'; exact Hstore|].
      exists (mId ls :: ids). rewrite <- Hstore, Hids. split; [reflexivity|].
      exact Hhash. }
    destruct (bool_decide (getLightingMethod s ≠ SingleUBO)).
    + apply (Hnext s); [apply keepsCaches_refl|reflexivity|exact Hrun].
    + destruct (getLightIndexMap s frameNum !! mId ls).
      * apply (Hnext s); [apply keepsCaches_refl|reflexivity|exact Hrun].
      * destruct (updateGPUPointLight _ _ _ _ s) as [s1|] eqn:Hgpu; [|discriminate].
        cbn [mbind option_bind] in Hrun.
        destruct (updateGPUPointLight_keeps _ _ _ _ _ _ Hgpu) as [Hkeep Hstore].
        eapply Hnext; [| |exact Hrun].
        -- eapply keepsCaches_trans; [exact Hkeep|]. apply setLightIndexMap_keeps.
        -- exact Hstore.
Qed.
End Cache.

Lemma parity_mod (f1 f2 : Z) : f1 mod 2 = f2 mod 2 -> parity f1 = parity f2.
Proof. intros Heq. unfold parity. rewrite Heq. reflexivity. Qed.

Lemma get2_parity {A} (a : A * A) (f1 f2 : Z) :
  parity f1 = parity f2 -> get2 a f1 = get2 a f2.
Proof. intros Heq. unfold get2. rewrite Heq. reflexivity. Qed.

Lemma get2_set2 {A} (a : A * A) (f g : Z) (x : A) :
  get2 (set2 a f x) g = if bool_decide (parity f = parity g) then x else get2 a g.
Proof.
  unfold get2, set2. destruct (parity f), (parity g); reflexivity.
Qed.

Section Generators.
Context `{External}.

Lemma ids_insert (m : gmap LightSourcePtr LightSource) (p : LightSourcePtr)
      (ls ls' : LightSource) :
  m !! p = Some ls -> mId ls' = mId ls ->
  forall q, mId <$> <[p := ls']> m !! q = mId <$> m !! q.
Proof.
  intros Hp Hid q. destruct (decide (p = q)) as [<-|Hne].
  - rewrite lookup_insert_eq, Hp. cbn. rewrite Hid. reflexivity.
  - rewrite lookup_insert_ne by exact Hne. reflexivity.
Qed.

Lemma generateIndices_spec (l : LightList) (frameNum : Z) (pointCount : Z)
      (indices : list Z) (s : Scene) (pointCount' : Z) (indices' : list Z)
      (s' : Scene) :
  generateIndices l frameNum pointCount indices s = Some (pointCount', indices', s') ->
  pointCount' = pointCount + Z.of_nat (length l) /\ keepsCaches s s'.
Proof.
  revert pointCount indices s. induction l as [|vb l IH]; intros pc idx s Hrun.
  - cbn in Hrun. injection Hrun as <- <- <-. split; [cbn; lia|apply keepsCaches_refl].
  - cbn [generateIndices] in Hrun.
    destruct (lightSources s !! mLightSource vb) as [ls|]; [|discriminate].
    cbn [mbind option_bind] in Hrun.
    destruct (getLightIndexMap s frameNum !! mId ls);
      (destruct (pc <? Z.of_nat (length idx)); [|discriminate]);
      apply IH in Hrun as [-> Hkeep]; (split; [cbn [length]; lia|]).
    + exact Hkeep.
    + eapply keepsCaches_trans; [apply setLightIndexMap_keeps|exact Hkeep].
Qed.

Lemma generateLights_keeps (l : LightList) (frameNum : Z) (s s' : Scene)
      (lights : list (LightSourcePtr * Z)) :
  generateLights l frameNum s = Some (lights, s') -> keepsCaches s s'.
Proof.
  revert lights s. induction l as [|vb l IH]; intros lights s Hrun.
  - cbn in Hrun. injection Hrun as <- <-. apply keepsCaches_refl.
  - cbn [generateLights] in Hrun.
    destruct (lightSources s !! mLightSource vb) as [ls|] eqn:Hls; [|discriminate].
    cbn [mbind option_bind] in Hrun.
    match type of Hrun with
    | context [generateLights l frameNum ?s1] =>
        destruct (generateLights l frameNum s1) as [[lights1 s2]|] eqn:Hrest;
          [|discriminate]
    end.
    cbn [mbind option_bind] in Hrun. injection Hrun as <- <-.
    eapply keepsCaches_trans; [|eapply IH; exact Hrest].
    unfold keepsCaches. cbn. repeat split; try reflexivity.
    apply (ids_insert _ _ ls); [exact Hls|reflexivity].
Qed.

Lemma generate_spec (l : LightList) (frameNum : Z) (s s' : Scene) (ss : StateSet) :
  generate l frameNum s = Some (ss, s') ->
  keepsCaches s s'
  /\ (getLightingMethod s = SingleUBO ->
      exists indices, ss = StateSetSingleUBO indices (Z.of_nat (length l))).
Proof.
  unfold generate. destruct (getLightingMethod s) eqn:Hmethod.
  - unfold StateSetGeneratorFFP_generate.
    destruct (lightsOf l frameNum s); [|discriminate]. cbn [mbind option_bind].
    destruct (forallb _ _); [|discriminate]. intros [= <- <-].
    split; [apply keepsCaches_refl|discriminate].
  - unfold StateSetGeneratorPerObjectUniform_generate.
    destruct (generateLights l frameNum s) as [[lights s1]|] eqn:Hgen; [|discriminate].
    cbn [mbind option_bind]. intros [= <- <-].
    split; [eapply generateLights_keeps; exact Hgen|discriminate].
  - unfold StateSetGeneratorSingleUBO_generate.
    destruct (generateIndices l frameNum 0 _ s) as [[[pc idx] s1]|] eqn:Hgen;
      [|discriminate].
    cbn [mbind option_bind]. intros [= <- <-].
    apply generateIndices_spec in Hgen as [-> Hkeep].
    split; [exact Hkeep|]. intros _. eexists. reflexivity.
Qed.

Lemma updateIndices_count (l : LightList) (lightData : gmap Z Z) (s : Scene)
      (fuel : nat) (i newCount : Z) (uOldArray : list Z) (newCount' : Z)
      (uOldArray' : list Z) :
  updateIndices l lightData s fuel i newCount uOldArray = Some (newCount', uOldArray') ->
  newCount <= newCount' <= newCount + Z.of_nat fuel.
Proof.
  revert i newCount uOldArray. induction fuel as [|fuel IH]; intros i n arr Hrun.
  - cbn in Hrun. injection Hrun as <- <-. lia.
  - cbn [updateIndices] in Hrun.
    destruct (l !! Z.to_nat i) as [vb|]; [|discriminate]. cbn [mbind option_bind] in Hrun.
    destruct (lightSources s !! mLightSource vb) as [ls|]; [|discriminate].
    cbn [mbind option_bind] in Hrun.
    destruct (lightData !! mId ls); apply IH in Hrun; lia.
Qed.

(** The loop of the update hook is defined when it stays within the list
    and the light sources of the list exist. *)
Lemma updateIndices_defined (l : LightList) (lightData : gmap Z Z) (s : Scene)
      (fuel : nat) (i newCount : Z) (uOldArray : list Z) :
  0 <= i -> i + Z.of_nat fuel <= Z.of_nat (length l) ->
  (forall vb, vb ∈ l -> is_Some (lightSources s !! mLightSource vb)) ->
  is_Some (updateIndices l lightData s fuel i newCount uOldArray).
Proof.
  intros Hi Hfuel Hvalid. revert i newCount uOldArray Hi Hfuel.
  induction fuel as [|fuel IH]; intros i n arr Hi Hfuel; [cbn; eauto|].
  cbn [updateIndices].
  destruct (lookup_lt_is_Some_2 l (Z.to_nat i)) as [vb Hvb]; [lia|].
  rewrite Hvb. cbn [mbind option_bind].
  destruct (Hvalid vb) as [ls Hls]; [eapply list_elem_of_lookup_2; exact Hvb|].
  rewrite Hls. cbn [mbind option_bind].
  destruct (lightData !! mId ls); apply IH; lia.
Qed.

(** The update hook changes at most the state set it is given, whose
    count does not grow. *)
Lemma generator_update_spec (found : StateSetPtr) (l : LightList) (frameNum : Z)
      (s s' : Scene) :
  generator_update found l frameNum s = Some s' ->
  mStateSetCache s' = mStateSetCache s
  /\ mLightingMethod s' = mLightingMethod s
  /\ mMaxLights s' = mMaxLights s
  /\ lightSources s' = lightSources s
  /\ (stateSets s' = stateSets s
      \/ exists uOldArray count uOldArray' count',
          stateSets s !! found = Some (StateSetSingleUBO uOldArray count)
          /\ stateSets s' = <[found := StateSetSingleUBO uOldArray' count']> (stateSets s)
          /\ count' <= Z.max 0 count).
Proof.
  unfold generator_update.
  destruct (getLightingMethod s);
    try (intros [= <-]; repeat split; try reflexivity; left; reflexivity).
  unfold StateSetGeneratorSingleUBO_update.
  destruct (stateSets s !! found) as [[| |arr cnt]|] eqn:Hfound; try discriminate.
  cbn [mbind option_bind].
  destruct (updateIndices _ _ _ _ _ _ _) as [[n arr']|] eqn:Hloop; [|discriminate].
  cbn [mbind option_bind]. intros [= <-]. cbn.
  repeat split; try reflexivity.
  right. exists arr, cnt, arr', n. split; [reflexivity|]. split; [reflexivity|].
  apply updateIndices_count in Hloop. lia.
Qed.
End Generators.

Section StateSetCache.
Context `{External}.

(** What a call of [getLightListStateSet] does to the caches: the state
    set returned is filed under the key of the identifiers of the list;
    on a hit the cache is unchanged and at most the state set found is
    rewritten, with a count that does not grow; on a miss the state set
    is a new object, added to the generation of the frame. *)
Lemma getLightListStateSet_spec (l : LightList) (frameNum : Z) (viewMatrix : Matrixf)
      (s s' : Scene) (p : StateSetPtr) :
  getLightListStateSet l frameNum viewMatrix s = Some (p, s') ->
  exists ids,
    lightIds (lightSources s) l = Some ids
    /\ mLightingMethod s' = mLightingMethod s
    /\ mMaxLights s' = mMaxLights s
    /\ (forall q, mId <$> lightSources s' !! q = mId <$> lightSources s !! q)
    /\ ((getStateSetCache s frameNum !! hashIds ids = Some p
         /\ mStateSetCache s' = mStateSetCache s
         /\ (stateSets s' = stateSets s
             \/ exists uOldArray count uOldArray' count',
                 stateSets s !! p = Some (StateSetSingleUBO uOldArray count)
                 /\ stateSets s'
                    = <[p := StateSetSingleUBO uOldArray' count']> (stateSets s)
                 /\ count' <= Z.max 0 count))
        \/ (getStateSetCache s frameNum !! hashIds ids = None
            /\ stateSets s !! p = None
            /\ mStateSetCache s'
               = set2 (mStateSetCache s) frameNum
                      (<[hashIds ids := p]> (getStateSetCache s frameNum))
            /\ exists ss,
                stateSets s' = <[p := ss]> (stateSets s)
                /\ (getLightingMethod s = SingleUBO ->
                    exists indices,
                      ss = StateSetSingleUBO indices (Z.of_nat (length l))))).
Proof.
  unfold getLightListStateSet.
  destruct (registerLights l frameNum viewMatrix 0 s) as [[hash s1]|] eqn:Hreg;
    [|discriminate].
  cbn [mbind option_bind].
  destruct (registerLights_spec _ _ _ _ _ _ _ Hreg)
    as ((Hst & Hcache & Hmethod & Hmax & Hids) & Hstore & ids & Hlist & Hhash).
  fold (hashIds ids) in Hhash. subst hash.
  assert (Hgen : getStateSetCache s1 frameNum = getStateSetCache s frameNum)
    by (unfold getStateSetCache; rewrite Hcache; reflexivity).
  rewrite Hgen.
  destruct (getStateSetCache s frameNum !! hashIds ids) as [found|] eqn:Hlookup.
  - destruct (generator_update found l frameNum s1) as [s2|] eqn:Hupd; [|discriminate].
    cbn [mbind option_bind]. intros [= <- <-].
    destruct (generator_update_spec _ _ _ _ _ Hupd)
      as (Hcache2 & Hmethod2 & Hmax2 & Hstore2 & Hsets).
    exists ids. split; [exact Hlist|]. split; [congruence|]. split; [congruence|].
    split; [intros q; rewrite Hstore2; apply Hids|].
    left. split; [exact Hlookup|]. split; [congruence|].
    destruct Hsets as [Hsame|(arr & cnt & arr' & cnt' & Hfound & Hnew & Hle)].
    + left. congruence.
    + right. exists arr, cnt, arr', cnt'. rewrite <- Hst. tauto.
  - destruct (generate l frameNum s1) as [[ss s2]|] eqn:Hgenerate; [|discriminate].
    cbn [mbind option_bind]. intros [= <- <-].
    destruct (generate_spec _ _ _ _ _ Hgenerate)
      as ((Hst2 & Hcache2 & Hmethod2 & Hmax2 & Hids2) & Hss).
    cbn [mLightingMethod mMaxLights lightSources stateSets mStateSetCache
         with_stateSets with_mStateSetCache].
    exists ids. split; [exact Hlist|]. split; [congruence|]. split; [congruence|].
    split; [intros q; rewrite Hids2; apply Hids|].
    right. split; [exact Hlookup|].
    rewrite Hst2, Hst, Hcache2, Hcache.
    split; [apply not_elem_of_dom, is_fresh|]. split; [reflexivity|].
    exists ss. split; [reflexivity|].
    intros Hubo. apply Hss. unfold getLightingMethod in *. congruence.
Qed.

Lemma getLightListStateSet_cache_grows (l : LightList) (frameNum : Z)
      (viewMatrix : Matrixf) (s s' : Scene) (p : StateSetPtr) :
  getLightListStateSet l frameNum viewMatrix s = Some (p, s') ->
  forall generation, getStateSetCache s generation ⊆ getStateSetCache s' generation.
Proof.
  intros Hcall generation.
  destruct (getLightListStateSet_spec _ _ _ _ _ _ Hcall)
    as (ids & _ & _ & _ & _ & [(_ & Hcache & _)|(Hnone & _ & Hcache & _)]);
    unfold getStateSetCache in *; rewrite Hcache; [reflexivity|].
  rewrite get2_set2. destruct (bool_decide (parity frameNum = parity generation)) eqn:E.
  - apply bool_decide_eq_true in E. rewrite <- (get2_parity _ _ _ E).
    apply insert_subseteq. exact Hnone.
  - reflexivity.
Qed.

Lemma getLightListStateSet_key (l : LightList) (frameNum : Z)
      (viewMatrix : Matrixf) (s s' : Scene) (p : StateSetPtr) :
  getLightListStateSet l frameNum viewMatrix s = Some (p, s') ->
  exists ids, lightIds (lightSources s) l = Some ids
              /\ getStateSetCache s' frameNum !! hashIds ids = Some p.
Proof.
  intros Hcall.
  destruct (getLightListStateSet_spec _ _ _ _ _ _ Hcall)
    as (ids & Hids & _ & _ & _ & [(Hhit & Hcache & _)|(_ & _ & Hcache & _)]);
    exists ids; (split; [exact Hids|]); unfold getStateSetCache in *; rewrite Hcache.
  - exact Hhit.
  - rewrite get2_set2, bool_decide_eq_true_2 by reflexivity. apply lookup_insert_eq.
Qed.

Lemma cleanupCache_small (c : gmap Z StateSetPtr) :
  (5000 <? Z.of_nat (size c)) = false -> cleanupCache c = c.
Proof. intros Hsmall. unfold cleanupCache. rewrite Hsmall. reflexivity. Qed.

Lemma collectLights_ids (ts : list LightSourceTransform) (isReflection : bool)
      (viewMatrix : Matrixf) (frameNum : Z) (bounds result : list LightSourceViewBound)
      (s s' : Scene) :
  collectLights ts isReflection viewMatrix frameNum bounds s = Some (result, s') ->
  forall q, mId <$> lightSources s' !! q = mId <$> lightSources s !! q.
Proof.
  revert bounds s. induction ts as [|t ts IH]; intros bounds s Hrun q.
  - cbn in Hrun. injection Hrun as _ <-. reflexivity.
  - cbn [collectLights] in Hrun.
    destruct (lightSources s !! lst_mLightSource t) as [ls|] eqn:Hls; [|discriminate].
    cbn [mbind option_bind] in Hrun.
    destruct (negb isReflection && negb (Qeq_bool (mPointLightFadeEnd s) 0)).
    + destruct (Qeq_bool (mPointLightFadeEnd s - mPointLightFadeStart s) 0);
        [discriminate|].
      destruct (Qeq_bool (fadeFactor _ _ _) 0).
      * eapply IH; exact Hrun.
      * rewrite (IH _ _ Hrun q). cbn [lightSources with_lightSources].
        apply (ids_insert _ _ ls); [exact Hls|reflexivity].
    + eapply IH; exact Hrun.
Qed.

(** A call that does not empty a generation keeps every cache entry. *)
Lemma step_cache_grows (op : Operation) (s s' : Scene) :
  clearsCache op s = false -> step op s = Some s' ->
  forall generation, getStateSetCache s generation ⊆ getStateSetCache s' generation.
Proof.
  intros Hclear Hstep generation. destruct op; cbn [step clearsCache] in *.
  - injection Hstep as <-. apply orb_false_iff in Hclear as [Hfst Hsnd].
    unfold getStateSetCache, update. cbn.
    rewrite (cleanupCache_small _ Hfst), (cleanupCache_small _ Hsnd).
    destruct (mStateSetCache s). reflexivity.
  - unfold addLight in Hstep.
    destruct (lightSources s !! lightSource); [|discriminate].
    cbn in Hstep. injection Hstep as <-. reflexivity.
  - destruct (getLightsInViewSpace camera viewMatrix frameNum s) as [[r s1]|] eqn:Hget;
      [|discriminate].
    cbn in Hstep. injection Hstep as <-.
    unfold getLightsInViewSpace in Hget.
    destruct (viewBoundsOfCamera _ _ _ s) as [[b s2]|] eqn:Hview; [|discriminate].
    cbn [mbind option_bind] in Hget. injection Hget as _ <-.
    apply viewBoundsOfCamera_scene in Hview. rewrite Hview. reflexivity.
  - destruct (getLightListStateSet lightList frameNum viewMatrix s) as [[p s1]|] eqn:Hget;
      [|discriminate].
    cbn in Hstep. injection Hstep as <-.
    eapply getLightListStateSet_cache_grows. exact Hget.
  - injection Hstep as <-. reflexivity.
  - injection Hstep as <-. unfold updateMaxLights.
    apply negb_false_iff in Hclear. rewrite Hclear. reflexivity.
  - injection Hstep as <-. unfold updateSettings.
    destruct (bool_decide _); [reflexivity|]. destruct (Qltb _ _); reflexivity.
Qed.

Lemma run_cache_grows (ops : list Operation) (s s' : Scene) :
  noCacheClear ops s = true -> run ops s = Some s' ->
  forall generation, getStateSetCache s generation ⊆ getStateSetCache s' generation.
Proof.
  revert s. induction ops as [|op ops IH]; intros s Hclear Hrun generation.
  - injection Hrun as <-. reflexivity.
  - cbn [run noCacheClear] in *. apply andb_true_iff in Hclear as [Hop Hrest].
    apply negb_true_iff in Hop.
    destruct (step op s) as [s1|] eqn:Hstep; [|discriminate].
    cbn [mbind option_bind] in Hrun.
    etrans; [eapply step_cache_grows; eassumption|].
    eapply IH; eassumption.
Qed.
End StateSetCache.

(** C6. A call of [getLightListStateSet] files the state set it returns
    under the hash that combines the identifiers of its list in list
    order, in the generation of the parity of its frame.  After calls that
    do not empty a generation, a call with a list of the same sequence of
    identifiers and a frame of the same parity returns the same state-set
    object. *)
Theorem getLightListStateSet_cached `{External} (l1 l2 : LightList) (f1 f2 : Z)
        (vm1 vm2 : Matrixf) (ops : list Operation) (s : Scene) :
  let first := getLightListStateSet l1 f1 vm1 s in
  let between := '(_, s1) ← first; run ops s1 in
  let second := s2 ← between; getLightListStateSet l2 f2 vm2 s2 in
  isSome second = true ->
  ('(_, s1) ← first; Some (noCacheClear ops s1)) = Some true ->
  (s2 ← between; lightIds (lightSources s2) l2) = lightIds (lightSources s) l1 ->
  f1 mod 2 = f2 mod 2 ->
  exists p ids,
    fst <$> first = Some p
    /\ lightIds (lightSources s) l1 = Some ids
    /\ ('(_, s1) ← first; getStateSetCache s1 f1 !! hashIds ids) = Some p
    /\ fst <$> second = Some p.
Proof.
  intros first between second Hdefined Hclear Hids Hparity.
  unfold second, between in *.
  destruct first as [[p1 s1]|] eqn:Hfirst; [|discriminate]. unfold first in Hfirst.
  cbn [mbind option_bind] in *. injection Hclear as Hclear.
  destruct (run ops s1) as [s2|] eqn:Hrun; [|discriminate].
  cbn [mbind option_bind] in *.
  destruct (getLightListStateSet_key _ _ _ _ _ _ Hfirst) as (ids & Hids1 & Hkey).
  exists p1, ids. split; [reflexivity|]. split; [exact Hids1|]. split; [exact Hkey|].
  destruct (getLightListStateSet l2 f2 vm2 s2) as [[p2 s3]|] eqn:Hsecond;
    [|discriminate].
  cbn. f_equal.
  pose proof (run_cache_grows _ _ _ Hclear Hrun f1) as Hgrow.
  pose proof (lookup_weaken _ _ _ _ Hkey Hgrow) as Hkept.
  unfold getStateSetCache in Hkept.
  rewrite (get2_parity _ f1 f2 (parity_mod _ _ Hparity)) in Hkept.
  destruct (getLightListStateSet_spec _ _ _ _ _ _ Hsecond)
    as (ids2 & Hids2 & _ & _ & _ & [(Hhit & _)|(Hmiss & _)]);
    rewrite Hids, Hids1 in Hids2; injection Hids2 as <-;
    unfold getStateSetCache in *; congruence.
Qed.

Lemma getLightListStateSet_cached_witness :
  exists p ids,
    fst <$> @getLightListStateSet TranslationOnly twoLights 0 (mkVec3 0 0 0)
                                  (newScene noFadeSettings) = Some p
    /\ lightIds (lightSources (newScene noFadeSettings)) twoLights = Some ids
    /\ ('(_, s1) ← @getLightListStateSet TranslationOnly twoLights 0 (mkVec3 0 0 0)
                                         (newScene noFadeSettings);
        getStateSetCache s1 0 !! @hashIds TranslationOnly ids) = Some p
    /\ fst <$> (s2 ← ('(_, s1) ← @getLightListStateSet TranslationOnly twoLights 0
                                    (mkVec3 0 0 0) (newScene noFadeSettings);
                      run callsBetween s1);
                @getLightListStateSet TranslationOnly twoLightsLater 2 (mkVec3 0 0 0) s2)
       = Some p.
Proof.
  apply (@getLightListStateSet_cached TranslationOnly twoLights twoLightsLater 0 2
           (mkVec3 0 0 0) (mkVec3 0 0 0) callsBetween (newScene noFadeSettings)).
  - vm_compute. reflexivity.
  - vm_compute. reflexivity.
  - vm_compute. reflexivity.
  - reflexivity.
Defined.

(** The same two lights in the other order have another key under the
    concrete combiner, and get a state set of their own. *)
Lemma getLightListStateSet_order_matters :
  @hashIds TranslationOnly [11; 12] <> @hashIds TranslationOnly [12; 11]
  /\ fst <$> @getLightListStateSet TranslationOnly (reverse twoLightsLater) 2
                                   (mkVec3 0 0 0) sceneBetween
     <> fst <$> @getLightListStateSet TranslationOnly twoLightsLater 2
                                      (mkVec3 0 0 0) sceneBetween.
Proof.
  split; vm_compute; discriminate.
Qed.

(** ** The update hook of the shared-buffer tier *)

Section UpdateHook.
Context `{External}.
Variable store : gmap LightSourcePtr LightSource.

Lemma cacheInvariant_more (lists lists' : list LightList) (s : Scene) :
  cacheInvariant store lists s -> cacheInvariant store (lists ++ lists') s.
Proof.
  intros (Hmethod & Hids & Hcache). split; [exact Hmethod|]. split; [exact Hids|].
  intros g h p Hp. destruct (Hcache g h p Hp) as (arr & cnt & l' & ids' & Hs & Hin & Hrest).
  exists arr, cnt, l', ids'. split; [exact Hs|]. split; [|exact Hrest].
  apply elem_of_app. left. exact Hin.
Qed.

Lemma cacheInvariant_keeps (lists : list LightList) (s s' : Scene) :
  keepsCaches s s' -> cacheInvariant store lists s -> cacheInvariant store lists s'.
Proof.
  intros (Hst & Hc & Hm & _ & Hi) (Hmethod & Hids & Hcache).
  unfold cacheInvariant, getLightingMethod, getStateSetCache in *.
  rewrite Hst, Hc, Hm. split; [exact Hmethod|]. split; [|exact Hcache].
  intros p. rewrite Hi. apply Hids.
Qed.

Lemma addLight_keeps (lightSource : LightSourcePtr) (worldMat : Matrixf)
      (frameNum : Z) (s s' : Scene) :
  addLight lightSource worldMat frameNum s = Some s' -> keepsCaches s s'.
Proof.
  unfold addLight.
  destruct (lightSources s !! lightSource) as [ls|] eqn:Hls; [|discriminate].
  cbn [mbind option_bind]. intros [= <-].
  unfold keepsCaches. cbn. repeat split; try reflexivity.
  apply (ids_insert _ _ ls); [exact Hls|reflexivity].
Qed.

Lemma getLightsInViewSpace_keeps (camera : Camera) (viewMatrix : Matrixf)
      (frameNum : Z) (s s' : Scene) (result : list LightSourceViewBound) :
  getLightsInViewSpace camera viewMatrix frameNum s = Some (result, s') ->
  keepsCaches s s'.
Proof.
  unfold getLightsInViewSpace.
  destruct (viewBoundsOfCamera camera viewMatrix frameNum s) as [[b s1]|] eqn:Hview;
    [|discriminate].
  cbn [mbind option_bind]. intros [= _ <-].
  pose proof (viewBoundsOfCamera_scene _ _ _ _ _ _ Hview) as Hs1.
  assert (Hids : forall q, mId <$> lightSources s1 !! q = mId <$> lightSources s !! q).
  { unfold viewBoundsOfCamera in Hview.
    destruct (mLightsInViewSpace s !! cameraPtr camera).
    - injection Hview as _ <-. reflexivity.
    - eapply collectLights_ids. exact Hview. }
  unfold keepsCaches. cbn. rewrite Hs1. cbn. repeat split; try reflexivity.
  intros q. rewrite <- Hids, Hs1. reflexivity.
Qed.

Lemma updateSettings_keeps (cfg : Settings) (s : Scene) :
  keepsCaches s (updateSettings cfg s).
Proof.
  unfold updateSettings. destruct (bool_decide _); [apply keepsCaches_refl|].
  destruct (Qltb _ _); unfold keepsCaches; cbn; tauto.
Qed.

Lemma cleanupCache_lookup (c : gmap Z StateSetPtr) (hash : Z) (p : StateSetPtr) :
  cleanupCache c !! hash = Some p -> c !! hash = Some p.
Proof.
  unfold cleanupCache. destruct (5000 <? _); [|tauto].
  rewrite lookup_empty. discriminate.
Qed.

(** Every call keeps the invariant, for the lists requested so far. *)
Lemma step_invariant (lists : list LightList) (op : Operation) (s s' : Scene) :
  cacheInvariant store lists s -> step op s = Some s' ->
  cacheInvariant store (lists ++ requestedLists [op]) s'.
Proof.
  intros Hinv Hstep. destruct op; cbn [step requestedLists omap] in *;
    try (rewrite app_nil_r).
  - (* update *)
    injection Hstep as <-. destruct Hinv as (Hmethod & Hids & Hcache).
    split; [exact Hmethod|]. split; [exact Hids|].
    intros g h p Hp. apply (Hcache g h p).
    revert Hp. unfold getStateSetCache, update, get2. cbn.
    destruct (parity g); apply cleanupCache_lookup.
  - eapply cacheInvariant_keeps; [eapply addLight_keeps; exact Hstep|exact Hinv].
  - destruct (getLightsInViewSpace camera viewMatrix frameNum s) as [[r s1]|] eqn:Hget;
      [|discriminate].
    cbn in Hstep. injection Hstep as <-.
    eapply cacheInvariant_keeps; [eapply getLightsInViewSpace_keeps; exact Hget|].
    exact Hinv.
  - (* getLightListStateSet *)
    destruct (getLightListStateSet lightList frameNum viewMatrix s) as [[p s1]|] eqn:Hget;
      [|discriminate].
    cbn in Hstep. injection Hstep as <-.
    destruct Hinv as (Hmethod & Hids & Hcache).
    destruct (getLightListStateSet_spec _ _ _ _ _ _ Hget)
      as (ids & Hlist & Hmethod1 & _ & Hids1 & Hcases).
    split; [unfold getLightingMethod in *; congruence|].
    split; [intros q; rewrite Hids1; apply Hids|].
    intros g h q Hq.
    destruct Hcases as [(_ & Hsame & Hsets)|(Hnone & Hfresh & Hnew & ss & Hsets & Hss)].
    + (* hit *)
      unfold getStateSetCache in Hq. rewrite Hsame in Hq.
      destruct (Hcache g h q Hq) as (arr & cnt & l' & ids' & Hs & Hin & Hl' & Hh & Hle).
      assert (Hin' : l' ∈ lists ++ [lightList]) by (apply elem_of_app; left; exact Hin).
      destruct Hsets as [->|(arr0 & cnt0 & arr1 & cnt1 & Hfound & -> & Hcount)].
      * exists arr, cnt, l', ids'. tauto.
      * destruct (decide (p = q)) as [->|Hne].
        -- rewrite lookup_insert_eq. exists arr1, cnt1, l', ids'.
           split; [reflexivity|]. split; [exact Hin'|]. split; [exact Hl'|].
           split; [exact Hh|]. rewrite Hs in Hfound. injection Hfound as <- <-. lia.
        -- rewrite lookup_insert_ne by exact Hne. exists arr, cnt, l', ids'. tauto.
    + (* miss *)
      unfold getStateSetCache in Hq. rewrite Hnew, get2_set2 in Hq. rewrite Hsets.
      assert (Hold : get2 (mStateSetCache s) g !! h = Some q ->
        exists arr cnt l' ids',
          <[p := ss]> (stateSets s) !! q = Some (StateSetSingleUBO arr cnt)
          /\ l' ∈ lists ++ [lightList] /\ lightIds store l' = Some ids'
          /\ hashIds ids' = h /\ cnt <= Z.of_nat (length l')).
      { intros Hq'.
        destruct (Hcache g h q Hq') as (arr & cnt & l' & ids' & Hs & Hin & Hrest).
        exists arr, cnt, l', ids'.
        split; [|split; [apply elem_of_app; left; exact Hin|exact Hrest]].
        rewrite lookup_insert_ne; [exact Hs|]. intros ->. congruence. }
      destruct (bool_decide (parity frameNum = parity g)) eqn:Hpar; [|exact (Hold Hq)].
      apply bool_decide_eq_true in Hpar.
      destruct (decide (hashIds ids = h)) as [<-|Hne].
      * rewrite lookup_insert_eq in Hq. injection Hq as <-.
        destruct (Hss Hmethod) as [indices ->].
        exists indices, (Z.of_nat (length lightList)), lightList, ids.
        rewrite lookup_insert_eq. split; [reflexivity|].
        split; [apply elem_of_app; right; left|].
        split; [rewrite <- Hlist; apply lightIds_ext; intros q; symmetry; apply Hids|].
        split; [reflexivity|lia].
      * rewrite lookup_insert_ne in Hq by exact Hne. apply Hold.
        unfold getStateSetCache in Hq. rewrite <- (get2_parity _ _ _ Hpar). exact Hq.
  - injection Hstep as <-. exact Hinv.
  - (* updateMaxLights *)
    injection Hstep as <-. destruct Hinv as (Hmethod & Hids & Hcache).
    unfold updateMaxLights, usingFFP. unfold getLightingMethod in Hmethod.
    rewrite bool_decide_eq_false_2 by congruence.
    split; [exact Hmethod|]. split; [exact Hids|].
    intros g h p. unfold getStateSetCache, get2. cbn.
    destruct (parity g); rewrite lookup_empty; discriminate.
  - injection Hstep as <-.
    eapply cacheInvariant_keeps; [apply updateSettings_keeps|exact Hinv].
Qed.

Lemma requestedLists_cons (op : Operation) (ops : list Operation) :
  requestedLists (op :: ops) = requestedLists [op] ++ requestedLists ops.
Proof. unfold requestedLists. cbn. destruct op; reflexivity. Qed.

Lemma run_invariant (ops : list Operation) (lists : list LightList) (s s' : Scene) :
  cacheInvariant store lists s -> run ops s = Some s' ->
  cacheInvariant store (lists ++ requestedLists ops) s'.
Proof.
  revert lists s. induction ops as [|op ops IH]; intros lists s Hinv Hrun.
  - injection Hrun as <-. apply cacheInvariant_more. exact Hinv.
  - cbn [run] in Hrun. destruct (step op s) as [s1|] eqn:Hstep; [|discriminate].
    cbn [mbind option_bind] in Hrun.
    rewrite requestedLists_cons, app_assoc.
    eapply IH; [|exact Hrun]. eapply step_invariant; eassumption.
Qed.

(** The manager that the constructor builds has empty caches. *)
Lemma LightManager_new_invariant (ffp supportsUBO supportsGPU4 hasLoggedWarnings : bool)
      (cfg : Settings) (endian : LightBuffer.Endian) :
  let s0 := fst (LightManager_new ffp supportsUBO supportsGPU4 hasLoggedWarnings
                                  cfg endian store) in
  getLightingMethod s0 = SingleUBO -> cacheInvariant store [] s0.
Proof.
  cbn zeta. intros Hmethod. split; [exact Hmethod|].
  unfold LightManager_new in *. destruct ffp; [discriminate|].
  destruct (getLightingMethodFromString _) as [method log].
  cbn [fst] in *.
  match goal with
  | |- context [updateSettings cfg ?s1] =>
      destruct (updateSettings_keeps cfg s1) as (_ & Hc & _ & _ & Hi);
      unfold getStateSetCache; cbn [fst]; rewrite Hc; split;
        [intros p; rewrite Hi|intros g h p]
  end.
  - destruct (_ || _); reflexivity.
  - destruct (_ || _); unfold get2; cbn; destruct (parity g);
      rewrite lookup_empty; discriminate.
Qed.
End UpdateHook.

(** C9. In the shared-buffer tier, after any sequence of calls on a new
    manager, when [getLightListStateSet] finds the state set of its list in
    the cache and no list requested before has the key of this list without
    having its identifiers, the point-light count stored in the state set,
    clamped to the current light cap, is at most the length of the list:
    the update hook reads elements of the list within its bounds, and it is
    defined. *)
Theorem update_hook_in_bounds `{External}
        (ffp supportsUBO supportsGPU4 hasLoggedWarnings : bool)
        (cfg : Settings) (endian : LightBuffer.Endian)
        (store : gmap LightSourcePtr LightSource) (ops : list Operation)
        (l : LightList) (frameNum : Z) (viewMatrix : Matrixf) :
  let s0 := fst (LightManager_new ffp supportsUBO supportsGPU4 hasLoggedWarnings
                                  cfg endian store) in
  getLightingMethod s0 = SingleUBO ->
  isSome (s ← run ops s0; cacheHit l frameNum viewMatrix s) = true ->
  noCollision store (requestedLists ops) l ->
  exists s s' found count,
    run ops s0 = Some s
    /\ cacheHit l frameNum viewMatrix s = Some (s', found)
    /\ storedPointLightCount s' found = Some count
    /\ Z.min (getMaxLights s') count <= Z.of_nat (length l)
    /\ (forall i, 0 <= i < Z.min (getMaxLights s') count -> is_Some (l !! Z.to_nat i))
    /\ isSome (StateSetGeneratorSingleUBO_update found l frameNum s') = true.
Proof.
  intros s0 Hmethod Hdefined Hcollision.
  destruct (run ops s0) as [s|] eqn:Hrun; [|discriminate].
  cbn [mbind option_bind] in Hdefined.
  destruct (cacheHit l frameNum viewMatrix s) as [[s' found]|] eqn:Hhit; [|discriminate].
  pose proof (LightManager_new_invariant store ffp supportsUBO supportsGPU4
                hasLoggedWarnings cfg endian Hmethod) as Hinv0.
  pose proof (run_invariant store ops [] s0 s Hinv0 Hrun) as (Hubo & Hids & Hcache).
  cbn [app] in Hcache.
  unfold cacheHit in Hhit.
  destruct (registerLights l frameNum viewMatrix 0 s) as [[hash s1]|] eqn:Hreg;
    [|discriminate].
  cbn [mbind option_bind] in Hhit.
  destruct (getStateSetCache s1 frameNum !! hash) as [p|] eqn:Hlookup; [|discriminate].
  cbn [mbind option_bind] in Hhit. injection Hhit as <- <-.
  destruct (registerLights_spec _ _ _ _ _ _ _ Hreg)
    as ((Hst & Hc & Hm & Hmax & _) & Hstore & ids & Hlist & Hhash).
  fold (hashIds ids) in Hhash. subst hash.
  unfold getStateSetCache in Hlookup. rewrite Hc in Hlookup.
  destruct (Hcache frameNum (hashIds ids) p Hlookup)
    as (arr & cnt & l' & ids' & Hs & Hin & Hl' & Hkey & Hle).
  assert (Hlist' : lightIds store l = Some ids)
    by (rewrite <- Hlist; apply lightIds_ext; intros q; symmetry; apply Hids).
  unfold noCollision in Hcollision. rewrite Forall_forall in Hcollision.
  specialize (Hcollision l' Hin). rewrite Hl', Hlist' in Hcollision. cbn in Hcollision.
  assert (Hsame : ids' = ids)
    by (rewrite Hkey in Hcollision; specialize (Hcollision eq_refl); congruence).
  subst ids'.
  assert (Hlen : length l' = length l)
    by (rewrite <- (lightIds_length _ _ _ Hl'), <- (lightIds_length _ _ _ Hlist');
        reflexivity).
  assert (Hbound : Z.min (getMaxLights s1) cnt <= Z.of_nat (length l)) by lia.
  exists s, s1, p, cnt. split; [reflexivity|].
  split; [unfold cacheHit; rewrite Hreg; cbn [mbind option_bind];
          unfold getStateSetCache; rewrite Hc, Hlookup; reflexivity|].
  split; [unfold storedPointLightCount; rewrite Hst, Hs; reflexivity|].
  split; [exact Hbound|]. split.
  - intros i Hi. apply lookup_lt_is_Some_2. lia.
  - unfold StateSetGeneratorSingleUBO_update. rewrite Hst, Hs. cbn [mbind option_bind].
    destruct (updateIndices_defined l (getLightIndexMap s1 frameNum) s1
                (Z.to_nat (Z.min (getMaxLights s1) cnt)) 0 0 arr) as [[n arr'] Hloop].
    + lia.
    + lia.
    + intros vb Hvb. rewrite Hstore. eapply lightIds_valid; eassumption.
    + rewrite Hloop. reflexivity.
Qed.

Lemma update_hook_in_bounds_witness :
  exists s s' found count,
    @run TranslationOnly callsBefore (newScene noFadeSettings) = Some s
    /\ @cacheHit TranslationOnly twoLightsLater 2 (mkVec3 0 0 0) s = Some (s', found)
    /\ storedPointLightCount s' found = Some count
    /\ Z.min (getMaxLights s') count <= Z.of_nat (length twoLightsLater)
    /\ (forall i, 0 <= i < Z.min (getMaxLights s') count ->
                  is_Some (twoLightsLater !! Z.to_nat i))
    /\ isSome (@StateSetGeneratorSingleUBO_update TranslationOnly found twoLightsLater 2 s')
       = true.
Proof.
  apply (@update_hook_in_bounds TranslationOnly false true true false noFadeSettings
           LightBuffer.LittleEndian exampleStore callsBefore twoLightsLater 2
           (mkVec3 0 0 0)).
  - vm_compute. reflexivity.
  - vm_compute. reflexivity.
  - refine (bool_decide_unpack _ _). vm_compute. exact I.
Defined.

(** * Further properties *)

(** ** The records of the light buffer *)

Section Records.
Import LightBuffer.


Lemma readCells_one (l : list Cell) (p : Z) (x : Cell) :
  0 <= p -> l !! Z.to_nat p = Some x -> readCells l p 1 = Some [x].
Proof.
  intros Hp Hx. unfold readCells.
  pose proof (lookup_lt_Some _ _ _ Hx) as Hlt.
  replace (0 <=? p) with true by (symmetry; apply Z.leb_le; lia).
  replace (p + Z.of_nat 1 <=? Z.of_nat (length l)) with true
    by (symmetry; apply Z.leb_le; lia).
  cbn [andb]. f_equal.
  rewrite (drop_S _ _ _ Hx). reflexivity.
Qed.

Lemma coloursPacked_spec (o : Offsets) :
  coloursPacked o = true ->
  mValues o Ambient = mValues o Diffuse + 1
  /\ mValues o Specular = mValues o Diffuse + 2
  /\ mValues o DiffuseSign = mValues o Diffuse + 3.
Proof.
  unfold coloursPacked. rewrite !andb_true_iff, !Z.eqb_eq. tauto.
Qed.

(** Where the slots of a record lie: within the span of the record. *)
Lemma slot_span (o : Offsets) (count len i : Z) (slot : LayoutOffset) :
  layoutFits o count len = true -> coloursPacked o = true -> 0 <= i < count ->
  let w := if isCopied slot then 4 else 1 in
  mStride o * i <= Offsets_get o i slot
  /\ Offsets_get o i slot + w <= mStride o * (i + 1)
  /\ mStride o * (i + 1) <= len.
Proof.
  intros Hfit Hpack Hi w.
  destruct (coloursPacked_spec _ Hpack) as (Ha & Hs & Hd).
  pose proof (layoutFits_slot _ _ _ Diffuse Hfit eq_refl) as [? ?].
  pose proof (layoutFits_slot _ _ _ Position Hfit eq_refl) as [? ?].
  pose proof (layoutFits_slot _ _ _ AttenuationRadius Hfit eq_refl) as [? ?].
  pose proof (layoutFits_len _ _ _ Hfit).
  unfold Offsets_get, w. destruct slot; cbn [isCopied]; nia.
Qed.


Lemma lookup_inserts_outside {A} (l src : list A) (p k : nat) :
  (k < p \/ p + length src <= k)%nat -> list_inserts p src l !! k = l !! k.
Proof.
  intros [Hk|Hk].
  - apply list_lookup_inserts_lt. exact Hk.
  - apply list_lookup_inserts_ge. exact Hk.
Qed.

Lemma bufferFits_spec (b : t) :
  bufferFits b = true ->
  layoutFits (mOffsets b) (mCount b) (Z.of_nat (length (mData b))) = true
  /\ coloursPacked (mOffsets b) = true.
Proof. unfold bufferFits. rewrite andb_true_iff. tauto. Qed.

Lemma setDiffuse_unfold (b : t) (index : Z) (value : Vec4) :
  setDiffuse b index value
  = (d1 ← memcpy (mData b) (getOffset b index Diffuse)
            [UIntBits (asRGBA b (positiveColor value))];
     d2 ← memcpy d1 (getOffset b index DiffuseSign) [UIntBits (signBit value)];
     Some (withData b d2)).
Proof.
  unfold setDiffuse, positiveColor, signBit.
  destruct (Qltb (v4_0 value) 0); reflexivity.
Qed.

End Records.

Lemma get2_set2_same {A} (a : A * A) (f : Z) (x : A) : get2 (set2 a f x) f = x.
Proof. unfold get2, set2. destruct (parity f); reflexivity. Qed.

Lemma get2_set2_other {A} (a : A * A) (f g : Z) (x : A) :
  parity g <> parity f -> get2 (set2 a f x) g = get2 a g.
Proof.
  unfold get2, set2. destruct (parity f), (parity g); intros Hne;
    try reflexivity; exfalso; apply Hne; reflexivity.
Qed.

Section GPUPointLight.
Context `{External}.
Import LightBuffer.

(** The array after the five writes of [updateGPUPointLight]. *)
Lemma updateGPUPointLight_data (index : Z) (p : LightSourcePtr) (frameNum : Z)
      (viewMatrix : Matrixf) (s : Scene) (ls : LightSource) :
  let buf := getLightBuffer s frameNum in
  let light := getLight ls frameNum in
  lightSources s !! p = Some ls ->
  bufferFits buf = true ->
  0 <= index < mCount buf ->
  updateGPUPointLight index p frameNum viewMatrix s
  = Some (setLightBuffer s frameNum
            (withData buf
               (list_inserts (Z.to_nat (getOffset buf index Position))
                  (Vec4_cells (Vec4_mult (lPosition light) viewMatrix))
                  (list_inserts (Z.to_nat (getOffset buf index AttenuationRadius))
                     (Vec4_cells (mkVec4 (lConstantAttenuation light)
                                         (lLinearAttenuation light)
                                         (lQuadraticAttenuation light) (mRadius ls)))
                     (<[Z.to_nat (getOffset buf index Ambient) :=
                          UIntBits (asRGBA buf (lAmbient light))]>
                        (<[Z.to_nat (getOffset buf index DiffuseSign) :=
                             UIntBits (signBit (lDiffuse light))]>
                           (<[Z.to_nat (getOffset buf index Diffuse) :=
                                UIntBits (asRGBA buf (positiveColor (lDiffuse light)))]>
                              (mData buf)))))))).
Proof.
  intros buf light Hls Hfits Hi.
  destruct (bufferFits_spec _ Hfits) as [Hfit Hpack].
  pose proof (slot_span _ _ _ index Diffuse Hfit Hpack Hi) as HD.
  pose proof (slot_span _ _ _ index DiffuseSign Hfit Hpack Hi) as HS.
  pose proof (slot_span _ _ _ index Ambient Hfit Hpack Hi) as HA.
  pose proof (slot_span _ _ _ index AttenuationRadius Hfit Hpack Hi) as HR.
  pose proof (slot_span _ _ _ index Position Hfit Hpack Hi) as HP.
  cbn [isCopied] in HD, HS, HA, HR, HP.
  assert (Hs0 : 0 <= mStride (mOffsets buf) * index).
  { pose proof (layoutFits_slot _ _ _ Diffuse Hfit eq_refl). nia. }
  unfold updateGPUPointLight. rewrite Hls. cbn [mbind option_bind].
  fold buf light. rewrite setDiffuse_unfold.
  unfold getOffset in *.
  rewrite memcpy_in_bounds by (cbn [length]; lia). cbn [mbind option_bind].
  rewrite memcpy_in_bounds by (cbn [length list_inserts]; rewrite ?length_insert; lia).
  cbn [mbind option_bind]. unfold setAmbient, getOffset.
  cbn [mData mOffsets withData].
  rewrite memcpy_in_bounds by (cbn [length list_inserts]; rewrite ?length_insert; lia).
  cbn [mbind option_bind]. unfold setAttenuationRadius, getOffset.
  cbn [mData mOffsets withData].
  rewrite memcpy_in_bounds
    by (cbn [length list_inserts Vec4_cells]; rewrite ?length_insert; lia).
  cbn [mbind option_bind]. unfold setPosition, getOffset.
  cbn [mData mOffsets withData].
  rewrite memcpy_in_bounds
    by (cbn [length list_inserts Vec4_cells];
        rewrite ?length_inserts, ?length_insert; lia).
  cbn [mbind option_bind]. reflexivity.
Qed.


(** X1. [updateGPUPointLight] stores the light in record [index] of the
    buffer of the frame.  When the buffer holds its records under its
    layout and [index] is one of them, the call is defined and the record
    reads back as the view-space position, the attenuation with the
    radius, the packed ambient colour, the packed diffuse colour made
    positive and its sign marker: no field is overwritten by a later
    write of the same call. *)
Theorem updateGPUPointLight_stores (index : Z) (p : LightSourcePtr) (frameNum : Z)
        (viewMatrix : Matrixf) (s : Scene) (ls : LightSource) :
  let buf := getLightBuffer s frameNum in
  let light := getLight ls frameNum in
  lightSources s !! p = Some ls ->
  bufferFits buf = true ->
  0 <= index < mCount buf ->
  exists s',
    updateGPUPointLight index p frameNum viewMatrix s = Some s'
    /\ let buf' := getLightBuffer s' frameNum in
       readCells (mData buf') (getOffset buf' index Position) 4
       = Some (Vec4_cells (Vec4_mult (lPosition light) viewMatrix))
       /\ readCells (mData buf') (getOffset buf' index AttenuationRadius) 4
          = Some (Vec4_cells (mkVec4 (lConstantAttenuation light)
                                     (lLinearAttenuation light)
                                     (lQuadraticAttenuation light) (mRadius ls)))
       /\ readCells (mData buf') (getOffset buf' index Ambient) 1
          = Some [UIntBits (asRGBA buf (lAmbient light))]
       /\ readCells (mData buf') (getOffset buf' index Diffuse) 1
          = Some [UIntBits (asRGBA buf (positiveColor (lDiffuse light)))]
       /\ readCells (mData buf') (getOffset buf' index DiffuseSign) 1
          = Some [UIntBits (signBit (lDiffuse light))].
Proof.
  intros buf light Hls Hfits Hi.
  eexists. split; [apply (updateGPUPointLight_data _ _ _ _ _ _ Hls Hfits Hi)|].
  destruct (bufferFits_spec _ Hfits) as [Hfit Hpack].
  pose proof (slot_span _ _ _ index Diffuse Hfit Hpack Hi) as HD.
  pose proof (slot_span _ _ _ index DiffuseSign Hfit Hpack Hi) as HS.
  pose proof (slot_span _ _ _ index Ambient Hfit Hpack Hi) as HA.
  pose proof (slot_span _ _ _ index AttenuationRadius Hfit Hpack Hi) as HR.
  pose proof (slot_span _ _ _ index Position Hfit Hpack Hi) as HP.
  cbn [isCopied] in HD, HS, HA, HR, HP.
  assert (Hs0 : 0 <= mStride (mOffsets buf) * index).
  { pose proof (layoutFits_slot _ _ _ Diffuse Hfit eq_refl). nia. }
  destruct (coloursPacked_spec _ Hpack) as (Ea & Es & Ed).
  pose proof (layoutFits_disjoint _ _ _ Diffuse Position Hfit eq_refl eq_refl
                ltac:(discriminate)) as DP.
  pose proof (layoutFits_disjoint _ _ _ Diffuse AttenuationRadius Hfit eq_refl eq_refl
                ltac:(discriminate)) as DA.
  pose proof (layoutFits_disjoint _ _ _ Position AttenuationRadius Hfit eq_refl eq_refl
                ltac:(discriminate)) as PA.
  unfold getLightBuffer, setLightBuffer. cbn [mLightBuffers with_mLightBuffers].
  rewrite get2_set2_same.
  fold (getLightBuffer s frameNum). fold buf.
  unfold getOffset in *. cbn [mData mOffsets withData].
  unfold Offsets_get in *.
  set (S := mStride (mOffsets buf)) in *.
  set (vD := mValues (mOffsets buf) Diffuse) in *.
  set (vP := mValues (mOffsets buf) Position) in *.
  set (vA := mValues (mOffsets buf) AttenuationRadius) in *.
  rewrite Ea, Ed in *. clear Ea Es Ed.
  repeat split.
  - rewrite readCells_quad by (rewrite ?length_inserts, ?length_insert; lia).
    apply f_equal, quad_inserts_same;
      [lia | rewrite ?length_inserts, ?length_insert; lia | reflexivity].
  - rewrite readCells_quad by (rewrite ?length_inserts, ?length_insert; lia).
    apply f_equal. rewrite quad_inserts_other by (try reflexivity; lia).
    apply quad_inserts_same;
      [lia | rewrite ?length_inserts, ?length_insert; lia | reflexivity].
  - apply readCells_one; [lia|].
    rewrite !lookup_inserts_outside by (cbn [length Vec4_cells]; lia).
    apply list_lookup_insert_eq. rewrite !length_insert. lia.
  - apply readCells_one; [lia|].
    rewrite !lookup_inserts_outside by (cbn [length Vec4_cells]; lia).
    rewrite !list_lookup_insert_ne by lia.
    apply list_lookup_insert_eq. lia.
  - apply readCells_one; [lia|].
    rewrite !lookup_inserts_outside by (cbn [length Vec4_cells]; lia).
    rewrite list_lookup_insert_ne by lia.
    apply list_lookup_insert_eq. rewrite !length_insert. lia.
Qed.

(** X2. [updateGPUPointLight] writes within record [index] alone: every
    element of the array outside the span of that record is as before, as
    are the layout, the record count, the cached sun position and the
    buffer of the other frame parity.  A point light, whose index is at
    least 1, leaves the record of the sun (record 0) as it is. *)
Theorem updateGPUPointLight_record_only (index : Z) (p : LightSourcePtr) (frameNum : Z)
        (viewMatrix : Matrixf) (s : Scene) (ls : LightSource) :
  let buf := getLightBuffer s frameNum in
  lightSources s !! p = Some ls ->
  bufferFits buf = true ->
  0 <= index < mCount buf ->
  exists s',
    updateGPUPointLight index p frameNum viewMatrix s = Some s'
    /\ let buf' := getLightBuffer s' frameNum in
       bufferFits buf' = true
       /\ mOffsets buf' = mOffsets buf
       /\ mCount buf' = mCount buf
       /\ mCachedSunPos buf' = mCachedSunPos buf
       /\ length (mData buf') = length (mData buf)
       /\ (forall k : nat,
             Z.of_nat k < mStride (mOffsets buf) * index
             \/ mStride (mOffsets buf) * (index + 1) <= Z.of_nat k ->
             mData buf' !! k = mData buf !! k)
       /\ (forall g, parity g <> parity frameNum ->
             getLightBuffer s' g = getLightBuffer s g).
Proof.
  intros buf Hls Hfits Hi.
  eexists. split; [apply (updateGPUPointLight_data _ _ _ _ _ _ Hls Hfits Hi)|].
  destruct (bufferFits_spec _ Hfits) as [Hfit Hpack].
  pose proof (slot_span _ _ _ index Diffuse Hfit Hpack Hi) as HD.
  pose proof (slot_span _ _ _ index DiffuseSign Hfit Hpack Hi) as HS.
  pose proof (slot_span _ _ _ index Ambient Hfit Hpack Hi) as HA.
  pose proof (slot_span _ _ _ index AttenuationRadius Hfit Hpack Hi) as HR.
  pose proof (slot_span _ _ _ index Position Hfit Hpack Hi) as HP.
  cbn [isCopied] in HD, HS, HA, HR, HP.
  assert (Hs0 : 0 <= mStride (mOffsets buf) * index).
  { pose proof (layoutFits_slot _ _ _ Diffuse Hfit eq_refl). nia. }
  unfold getLightBuffer, setLightBuffer. cbn [mLightBuffers with_mLightBuffers].
  rewrite get2_set2_same.
  fold (getLightBuffer s frameNum). fold buf.
  cbn [mData mOffsets mCount mCachedSunPos withData].
  assert (Hlen : forall a b c d e (x y z : Cell) (u v : list Cell),
             length (list_inserts a u (list_inserts b v
                       (<[c := x]> (<[d := y]> (<[e := z]> (mData buf))))))
             = length (mData buf)).
  { intros. rewrite !length_inserts, !length_insert. reflexivity. }
  repeat split.
  - unfold bufferFits. cbn [mData mOffsets mCount withData].
    rewrite Hlen. exact Hfits.
  - apply Hlen.
  - intros k Hk. unfold getOffset in *.
    rewrite !lookup_inserts_outside by (cbn [length Vec4_cells]; lia).
    rewrite !list_lookup_insert_ne by lia. reflexivity.
  - intros g Hg. apply get2_set2_other. exact Hg.
Qed.

End GPUPointLight.



Lemma updateGPUPointLight_stores_witness :
  exists s',
    @updateGPUPointLight TranslationOnly 1 1%nat 0 (mkVec3 5 0 0)
                         (newScene noFadeSettings) = Some s'
    /\ LightBuffer.readCells
         (LightBuffer.mData (getLightBuffer s' 0))
         (LightBuffer.getOffset (getLightBuffer s' 0) 1 LightBuffer.Position) 4
       = Some (LightBuffer.Vec4_cells (mkVec4 5 0 0 1)).
Proof.
  destruct (@updateGPUPointLight_stores TranslationOnly 1 1%nat 0 (mkVec3 5 0 0)
              (newScene noFadeSettings) (exampleLightSource 11))
    as (s' & Hs & Hpos & _).
  - vm_compute. reflexivity.
  - vm_compute. reflexivity.
  - vm_compute. split; [discriminate|reflexivity].
  - exists s'. split; [exact Hs|]. rewrite Hpos. vm_compute. reflexivity.
Defined.

Lemma updateGPUPointLight_record_only_witness :
  exists s',
    @updateGPUPointLight TranslationOnly 1 1%nat 0 (mkVec3 5 0 0)
                         (newScene noFadeSettings) = Some s'
    /\ forall k : nat,
        (k < 12)%nat ->
        LightBuffer.mData (getLightBuffer s' 0) !! k
        = LightBuffer.mData (getLightBuffer (newScene noFadeSettings) 0) !! k.
Proof.
  destruct (@updateGPUPointLight_record_only TranslationOnly 1 1%nat 0 (mkVec3 5 0 0)
              (newScene noFadeSettings) (exampleLightSource 11))
    as (s' & Hs & _ & _ & _ & _ & _ & Hout & _).
  - vm_compute. reflexivity.
  - vm_compute. reflexivity.
  - vm_compute. split; [discriminate|reflexivity].
  - exists s'. split; [exact Hs|]. intros k Hk. apply Hout. left.
    change (LightBuffer.mStride
              (LightBuffer.mOffsets (getLightBuffer (newScene noFadeSettings) 0))) with 12.
    lia.
Defined.

Section SunRecord.
Context `{External}.
Import LightBuffer.

Lemma packSun_data (sun : Light) (buf : t) :
  bufferFits buf = true -> 0 < mCount buf ->
  packSun sun buf
  = Some (withData (setCachedSunPos buf (lPosition sun))
            (<[Z.to_nat (getOffset buf 0 Specular) :=
                 UIntBits (asRGBA buf (lSpecular sun))]>
               (<[Z.to_nat (getOffset buf 0 DiffuseSign) :=
                    UIntBits (signBit (lDiffuse sun))]>
                  (<[Z.to_nat (getOffset buf 0 Diffuse) :=
                       UIntBits (asRGBA buf (positiveColor (lDiffuse sun)))]>
                     (<[Z.to_nat (getOffset buf 0 Ambient) :=
                          UIntBits (asRGBA buf (lAmbient sun))]> (mData buf)))))).
Proof.
  intros Hfits Hcount.
  destruct (bufferFits_spec _ Hfits) as [Hfit Hpack].
  assert (Hi : 0 <= 0 < mCount buf) by lia.
  pose proof (slot_span _ _ _ 0 Diffuse Hfit Hpack Hi) as HD.
  pose proof (slot_span _ _ _ 0 DiffuseSign Hfit Hpack Hi) as HS.
  pose proof (slot_span _ _ _ 0 Ambient Hfit Hpack Hi) as HA.
  pose proof (slot_span _ _ _ 0 Specular Hfit Hpack Hi) as HC.
  cbn [isCopied] in HD, HS, HA, HC.
  unfold packSun, setAmbient, getOffset in *.
  cbn [mData mOffsets setCachedSunPos].
  rewrite memcpy_in_bounds by (cbn [length]; lia). cbn [mbind option_bind].
  rewrite setDiffuse_unfold. unfold getOffset. cbn [mData mOffsets withData setCachedSunPos].
  rewrite memcpy_in_bounds by (cbn [length list_inserts]; rewrite ?length_insert; lia).
  cbn [mbind option_bind].
  rewrite memcpy_in_bounds by (cbn [length list_inserts]; rewrite ?length_insert; lia).
  cbn [mbind option_bind]. unfold setSpecular, getOffset.
  cbn [mData mOffsets withData setCachedSunPos].
  rewrite memcpy_in_bounds by (cbn [length list_inserts]; rewrite ?length_insert; lia).
  cbn [mbind option_bind]. reflexivity.
Qed.

(** X3. The sun occupies record 0 of the light buffer.  On a buffer that
    holds at least one record under its layout, the colours that the cull
    callback packs and the position that [uploadCachedSunPos] writes
    later read back from record 0: the view-space position of the cached
    sun position, the packed ambient, diffuse and specular colours and
    the sign marker.  No element after record 0 changes, so the records
    of the point lights are untouched. *)
Theorem sun_in_record_zero (sun : Light) (buf : t) (viewMat : Matrixf) :
  bufferFits buf = true ->
  0 < mCount buf ->
  exists packed uploaded,
    packSun sun buf = Some packed
    /\ uploadCachedSunPos packed viewMat = Some uploaded
    /\ readCells (mData uploaded) (getOffset uploaded 0 Position) 4
       = Some (Vec4_cells (Vec4_mult (lPosition sun) viewMat))
    /\ readCells (mData uploaded) (getOffset uploaded 0 Ambient) 1
       = Some [UIntBits (asRGBA buf (lAmbient sun))]
    /\ readCells (mData uploaded) (getOffset uploaded 0 Diffuse) 1
       = Some [UIntBits (asRGBA buf (positiveColor (lDiffuse sun)))]
    /\ readCells (mData uploaded) (getOffset uploaded 0 DiffuseSign) 1
       = Some [UIntBits (signBit (lDiffuse sun))]
    /\ readCells (mData uploaded) (getOffset uploaded 0 Specular) 1
       = Some [UIntBits (asRGBA buf (lSpecular sun))]
    /\ (forall k : nat, mStride (mOffsets buf) <= Z.of_nat k ->
          mData uploaded !! k = mData buf !! k)
    /\ bufferFits uploaded = true.
Proof.
  intros Hfits Hcount.
  destruct (bufferFits_spec _ Hfits) as [Hfit Hpack].
  assert (Hi : 0 <= 0 < mCount buf) by lia.
  pose proof (slot_span _ _ _ 0 Diffuse Hfit Hpack Hi) as HD.
  pose proof (slot_span _ _ _ 0 DiffuseSign Hfit Hpack Hi) as HS.
  pose proof (slot_span _ _ _ 0 Ambient Hfit Hpack Hi) as HA.
  pose proof (slot_span _ _ _ 0 Specular Hfit Hpack Hi) as HC.
  pose proof (slot_span _ _ _ 0 Position Hfit Hpack Hi) as HP.
  cbn [isCopied] in HD, HS, HA, HC, HP.
  destruct (coloursPacked_spec _ Hpack) as (Ea & Es & Ed).
  pose proof (layoutFits_disjoint _ _ _ Diffuse Position Hfit eq_refl eq_refl
                ltac:(discriminate)) as DP.
  eexists _, _. split; [apply packSun_data; assumption|].
  unfold uploadCachedSunPos, getOffset in *.
  cbn [mData mOffsets mCachedSunPos withData setCachedSunPos].
  unfold Offsets_get in *.
  rewrite Ea in HA. rewrite Es in HC. rewrite Ed in HS.
  rewrite memcpy_in_bounds by (cbn [length Vec4_cells]; rewrite ?length_insert; lia).
  cbn [mbind option_bind].
  split; [reflexivity|].
  cbn [mData mOffsets mCount withData setCachedSunPos].
  rewrite ?Ea, ?Es, ?Ed.
  repeat split.
  - rewrite readCells_quad by (rewrite ?length_inserts, ?length_insert; lia).
    apply f_equal, quad_inserts_same;
      [lia | rewrite ?length_inserts, ?length_insert; lia | reflexivity].
  - apply readCells_one; [lia|].
    rewrite !lookup_inserts_outside by (cbn [length Vec4_cells]; lia).
    rewrite !list_lookup_insert_ne by lia.
    apply list_lookup_insert_eq. lia.
  - apply readCells_one; [lia|].
    rewrite !lookup_inserts_outside by (cbn [length Vec4_cells]; lia).
    rewrite !list_lookup_insert_ne by lia.
    apply list_lookup_insert_eq. rewrite !length_insert. lia.
  - apply readCells_one; [lia|].
    rewrite !lookup_inserts_outside by (cbn [length Vec4_cells]; lia).
    rewrite !list_lookup_insert_ne by lia.
    apply list_lookup_insert_eq. rewrite !length_insert. lia.
  - apply readCells_one; [lia|].
    rewrite !lookup_inserts_outside by (cbn [length Vec4_cells]; lia).
    apply list_lookup_insert_eq. rewrite !length_insert. lia.
  - intros k Hk.
    rewrite !lookup_inserts_outside by (cbn [length Vec4_cells]; lia).
    rewrite !list_lookup_insert_ne by lia. reflexivity.
  - unfold bufferFits. cbn [mData mOffsets mCount withData].
    rewrite !length_inserts, !length_insert. exact Hfits.
Qed.

End SunRecord.

Lemma sun_in_record_zero_witness :
  exists packed uploaded,
    packSun (exampleLight (1 # 2)) (LightBuffer.create LightBuffer.LittleEndian 3)
    = Some packed
    /\ @uploadCachedSunPos TranslationOnly packed (mkVec3 1 2 3) = Some uploaded
    /\ LightBuffer.readCells (LightBuffer.mData uploaded)
         (LightBuffer.getOffset uploaded 0 LightBuffer.Position) 4
       = Some (LightBuffer.Vec4_cells (mkVec4 1 2 3 1)).
Proof.
  destruct (@sun_in_record_zero TranslationOnly (exampleLight (1 # 2))
              (LightBuffer.create LightBuffer.LittleEndian 3) (mkVec3 1 2 3))
    as (packed & uploaded & Hp & Hu & Hpos & _).
  - vm_compute. reflexivity.
  - vm_compute. reflexivity.
  - exists packed, uploaded. split; [exact Hp|]. split; [exact Hu|].
    rewrite Hpos. vm_compute. reflexivity.
Defined.

Section LayoutColours.
Import LightBuffer.





End LayoutColours.



(** ** Registration of the lights of a list *)

Lemma to_int_small (x : Z) : - 2 ^ 31 <= x < 2 ^ 31 -> to_int x = x.
Proof. intros Hx. unfold to_int. rewrite Z.mod_small by lia. lia. Qed.

Lemma slotsAssigned_insert (m : gmap Z Z) (id : Z) :
  slotsAssigned m -> m !! id = None ->
  slotsAssigned (<[id := Z.of_nat (size m) + 1]> m).
Proof.
  intros [Hrange Hdup] Hnone. split.
  - rewrite map_size_insert_None by exact Hnone.
    apply map_Forall_insert; [exact Hnone|]. split; [lia|].
    intros i v Hv. specialize (Hrange i v Hv). cbn in Hrange. lia.
  - rewrite map_to_list_insert by exact Hnone. cbn [fmap list_fmap snd].
    apply NoDup_cons. split; [|exact Hdup].
    intros Hin. apply list_elem_of_fmap in Hin as ([i v] & Hv & Hin).
    cbn in Hv. subst v. apply elem_of_map_to_list in Hin.
    specialize (Hrange i _ Hin). cbn in Hrange. lia.
Qed.

Lemma slotsAssigned_inj (m : gmap Z Z) (id1 id2 v : Z) :
  slotsAssigned m -> m !! id1 = Some v -> m !! id2 = Some v -> id1 = id2.
Proof.
  intros [_ Hdup] H1 H2.
  apply elem_of_map_to_list in H1, H2.
  apply list_elem_of_lookup in H1 as [i1 H1], H2 as [i2 H2].
  assert (i1 = i2).
  { apply (NoDup_lookup _ i1 i2 v Hdup); rewrite list_lookup_fmap.
    - rewrite H1. reflexivity.
    - rewrite H2. reflexivity. }
  subst i2. congruence.
Qed.

Section Registration.
Context `{External}.
Import LightBuffer.

Lemma updateGPUPointLight_frame (index : Z) (p : LightSourcePtr) (frameNum : Z)
      (viewMatrix : Matrixf) (s : Scene) (ls : LightSource) :
  let buf := getLightBuffer s frameNum in
  lightSources s !! p = Some ls ->
  bufferFits buf = true ->
  0 <= index < mCount buf ->
  exists d,
    updateGPUPointLight index p frameNum viewMatrix s
    = Some (setLightBuffer s frameNum (withData buf d))
    /\ length d = length (mData buf)
    /\ forall k : nat,
        Z.of_nat k < mStride (mOffsets buf) * index
        \/ mStride (mOffsets buf) * (index + 1) <= Z.of_nat k ->
        d !! k = mData buf !! k.
Proof.
  intros buf Hls Hfits Hi.
  eexists. split; [apply (updateGPUPointLight_data _ _ _ _ _ _ Hls Hfits Hi)|].
  destruct (bufferFits_spec _ Hfits) as [Hfit Hpack].
  pose proof (slot_span _ _ _ index Diffuse Hfit Hpack Hi) as HD.
  pose proof (slot_span _ _ _ index DiffuseSign Hfit Hpack Hi) as HS.
  pose proof (slot_span _ _ _ index Ambient Hfit Hpack Hi) as HA.
  pose proof (slot_span _ _ _ index AttenuationRadius Hfit Hpack Hi) as HR.
  pose proof (slot_span _ _ _ index Position Hfit Hpack Hi) as HP.
  cbn [isCopied] in HD, HS, HA, HR, HP.
  assert (Hs0 : 0 <= mStride (mOffsets buf) * index).
  { pose proof (layoutFits_slot _ _ _ Diffuse Hfit eq_refl). nia. }
  fold buf. split.
  - rewrite !length_inserts, !length_insert. reflexivity.
  - intros k Hk. unfold getOffset in *.
    rewrite !lookup_inserts_outside by (cbn [length Vec4_cells]; lia).
    rewrite !list_lookup_insert_ne by lia. reflexivity.
Qed.

Lemma registerLights_slots (l : LightList) (frameNum : Z) (viewMatrix : Matrixf) :
  forall (hash : Z) (s : Scene),
  let m := getLightIndexMap s frameNum in
  let buf := getLightBuffer s frameNum in
  getLightingMethod s = SingleUBO ->
  slotsAssigned m ->
  bufferFits buf = true ->
  mCount buf < 2 ^ 31 ->
  isSome (lightIds (lightSources s) l) = true ->
  Z.of_nat (size m) + Z.of_nat (length l) < mCount buf ->
  exists hash' s',
    registerLights l frameNum viewMatrix hash s = Some (hash', s')
    /\ let m' := getLightIndexMap s' frameNum in
       let buf' := getLightBuffer s' frameNum in
       lightSources s' = lightSources s
       /\ getLightingMethod s' = SingleUBO
       /\ slotsAssigned m'
       /\ m ⊆ m'
       /\ (forall vb, vb ∈ l -> is_Some (slotOf s' frameNum vb))
       /\ (size m' <= size m + length l)%nat
       /\ bufferFits buf' = true
       /\ mCount buf' = mCount buf
       /\ mOffsets buf' = mOffsets buf
       /\ (forall k : nat,
             Z.of_nat k < mStride (mOffsets buf) * (Z.of_nat (size m) + 1) ->
             mData buf' !! k = mData buf !! k)
       /\ (forall g, parity g <> parity frameNum ->
             getLightIndexMap s' g = getLightIndexMap s g
             /\ getLightBuffer s' g = getLightBuffer s g).
Proof.
  induction l as [|vb rest IH]; intros hash s m buf Hmethod Hslots Hfits Hint Hids Hroom.
  - exists hash, s. split; [reflexivity|]. cbn zeta. fold m buf.
    split; [reflexivity|]. split; [exact Hmethod|]. split; [exact Hslots|].
    split; [reflexivity|]. split; [|split; [|split; [|split; [|split; [|split]]]]].
    + intros vb Hvb. apply elem_of_nil in Hvb. destruct Hvb.
    + cbn [length]. lia.
    + exact Hfits.
    + reflexivity.
    + reflexivity.
    + reflexivity.
    + intros g Hg. split; reflexivity.
  - cbn [lightIds] in Hids.
    destruct (lightSources s !! mLightSource vb) as [ls|] eqn:Hls; [|discriminate].
    cbn [mbind option_bind] in Hids.
    assert (Hrest : isSome (lightIds (lightSources s) rest) = true).
    { destruct (lightIds (lightSources s) rest); [reflexivity|discriminate]. }
    cbn [length] in Hroom.
    cbn [registerLights]. rewrite Hls. cbn [mbind option_bind].
    rewrite bool_decide_eq_false_2 by (rewrite Hmethod; intros Hne; apply Hne; reflexivity).
    fold m.
    destruct (m !! mId ls) as [v|] eqn:Hid.
    + destruct (IH (hashCombine hash (mId ls)) s Hmethod Hslots Hfits Hint Hrest)
        as (hash' & s' & Hrun & Hsrc & Hm' & Hslots' & Hsub & Hall & Hsize & Hfits'
            & Hcount & Hoff & Hdata & Hother).
      { unfold m, buf in *. lia. }
      exists hash', s'. split; [exact Hrun|]. cbn zeta. fold m buf.
      split; [exact Hsrc|]. split; [exact Hm'|]. split; [exact Hslots'|].
      split; [exact Hsub|]. split; [|split].
      * intros vb' Hvb'. apply elem_of_cons in Hvb' as [->|Hvb']; [|apply Hall; exact Hvb'].
        unfold slotOf. rewrite Hsrc, Hls. cbn [mbind option_bind].
        exists v. eapply lookup_weaken; [exact Hid|exact Hsub].
      * cbn [length]. unfold m in *. lia.
      * split; [exact Hfits'|]. split; [exact Hcount|]. split; [exact Hoff|].
        split; [exact Hdata|exact Hother].
    + set (index := Z.of_nat (size m) + 1).
      assert (Hindex : to_int index = index) by (apply to_int_small; unfold index; lia).
      rewrite Hindex.
      destruct (updateGPUPointLight_frame index (mLightSource vb) frameNum viewMatrix
                  s ls Hls Hfits) as (d & Hgpu & Hlen & Hframe).
      { fold buf. unfold index. lia. }
      rewrite Hgpu. cbn [mbind option_bind]. fold buf.
      set (s1 := setLightBuffer s frameNum (withData buf d)).
      assert (Hm1 : getLightIndexMap s1 frameNum = m) by reflexivity.
      rewrite Hm1.
      set (s2 := setLightIndexMap s1 frameNum (<[mId ls := index]> m)).
      assert (Hm2 : getLightIndexMap s2 frameNum = <[mId ls := index]> m).
      { unfold s2, getLightIndexMap, setLightIndexMap. cbn [mLightIndexMaps with_mLightIndexMaps].
        apply get2_set2_same. }
      assert (Hb2 : getLightBuffer s2 frameNum = withData buf d).
      { unfold s2, s1, getLightBuffer, setLightIndexMap, setLightBuffer.
        cbn [mLightBuffers with_mLightIndexMaps with_mLightBuffers].
        apply get2_set2_same. }
      assert (Hfits2 : bufferFits (withData buf d) = true).
      { unfold bufferFits. cbn [mData mOffsets mCount withData]. rewrite Hlen.
        exact Hfits. }
      destruct (IH (hashCombine hash (mId ls)) s2)
        as (hash' & s' & Hrun & Hsrc & Hm' & Hslots' & Hsub & Hall & Hsize & Hfits'
            & Hcount & Hoff & Hdata & Hother).
      { exact Hmethod. }
      { rewrite Hm2. apply slotsAssigned_insert; assumption. }
      { rewrite Hb2. exact Hfits2. }
      { rewrite Hb2. exact Hint. }
      { exact Hrest. }
      { rewrite Hm2, Hb2, map_size_insert_None by exact Hid.
        cbn [mCount withData]. fold buf. lia. }
      rewrite Hm2, Hb2 in *. cbn [mData mOffsets mCount withData] in *.
      change (lightSources s2) with (lightSources s) in *.
      exists hash', s'. split; [exact Hrun|]. cbn zeta. fold m buf.
      split; [exact Hsrc|]. split; [exact Hm'|]. split; [exact Hslots'|].
      assert (Hsub' : m ⊆ getLightIndexMap s' frameNum).
      { etrans; [|exact Hsub]. apply insert_subseteq. exact Hid. }
      split; [exact Hsub'|]. split; [|split; [|split; [|split; [|split; [|split]]]]].
      * intros vb' Hvb'. apply elem_of_cons in Hvb' as [->|Hvb']; [|apply Hall; exact Hvb'].
        unfold slotOf. rewrite Hsrc, Hls. cbn [mbind option_bind].
        exists index. eapply lookup_weaken; [|exact Hsub]. apply lookup_insert_eq.
      * rewrite map_size_insert_None in Hsize by exact Hid. cbn [length].
        unfold m in *. lia.
      * exact Hfits'.
      * exact Hcount.
      * exact Hoff.
      * intros k Hk.
        destruct (bufferFits_spec _ Hfits) as [Hfit _].
        pose proof (layoutFits_slot _ _ _ Diffuse Hfit eq_refl) as [? ?].
        rewrite Hdata.
        -- apply Hframe. left. fold index in Hk. exact Hk.
        -- rewrite map_size_insert_None by exact Hid. fold buf. nia.
      * intros g Hg. destruct (Hother g Hg) as [Hmg Hbg]. split.
        -- rewrite Hmg. unfold s2, s1, getLightIndexMap, setLightIndexMap, setLightBuffer.
           cbn [mLightIndexMaps with_mLightIndexMaps with_mLightBuffers].
           apply get2_set2_other. exact Hg.
        -- rewrite Hbg. unfold s2, s1, getLightBuffer, setLightIndexMap, setLightBuffer.
           cbn [mLightBuffers with_mLightIndexMaps with_mLightBuffers].
           apply get2_set2_other. exact Hg.
Qed.

End Registration.

(** X6. Registration in the shared-buffer tier is safe while the buffer
    has room, and hands out distinct slots.  When the index map of the
    frame holds the slots 1, ..., n, the buffer of the frame holds its
    records under its layout, the light sources of the list exist and
    n plus the length of the list is below the record count, the first
    loop of [getLightListStateSet] is defined (no record is written
    outside the array).  Afterwards the slots are again 1, ..., n' with
    each held by one light, every light that had a slot keeps it, every
    light of the list has a slot between 1 and the record count, and the
    records 0, ..., n of the buffer (the sun's and those of the lights
    registered before) are as they were. *)
Theorem registerLights_assigns_slots `{External} (l : LightList) (frameNum : Z)
        (viewMatrix : Matrixf) (hash : Z) (s : Scene) :
  let m := getLightIndexMap s frameNum in
  let buf := getLightBuffer s frameNum in
  getLightingMethod s = SingleUBO ->
  slotsAssigned m ->
  bufferFits buf = true ->
  LightBuffer.mCount buf < 2 ^ 31 ->
  isSome (lightIds (lightSources s) l) = true ->
  Z.of_nat (size m) + Z.of_nat (length l) < LightBuffer.mCount buf ->
  exists hash' s',
    registerLights l frameNum viewMatrix hash s = Some (hash', s')
    /\ let m' := getLightIndexMap s' frameNum in
       let buf' := getLightBuffer s' frameNum in
       slotsAssigned m'
       /\ (forall id1 id2 v, m' !! id1 = Some v -> m' !! id2 = Some v -> id1 = id2)
       /\ (forall id v, m !! id = Some v -> m' !! id = Some v)
       /\ (forall vb, vb ∈ l ->
             exists v, slotOf s' frameNum vb = Some v /\ 1 <= v < LightBuffer.mCount buf)
       /\ bufferFits buf' = true
       /\ (forall k : nat,
             Z.of_nat k < LightBuffer.mStride (LightBuffer.mOffsets buf)
                          * (Z.of_nat (size m) + 1) ->
             LightBuffer.mData buf' !! k = LightBuffer.mData buf !! k).
Proof.
  intros m buf Hmethod Hslots Hfits Hint Hids Hroom.
  destruct (registerLights_slots l frameNum viewMatrix hash s
              Hmethod Hslots Hfits Hint Hids Hroom)
    as (hash' & s' & Hrun & Hsrc & Hm' & Hslots' & Hsub & Hall & Hsize & Hfits'
        & Hcount & Hoff & Hdata & Hother).
  exists hash', s'. split; [exact Hrun|]. cbn zeta.
  split; [exact Hslots'|]. split; [|split; [|split; [|split]]].
  - intros id1 id2 v. apply slotsAssigned_inj. exact Hslots'.
  - intros id v Hv. eapply lookup_weaken; [exact Hv|exact Hsub].
  - intros vb Hvb. destruct (Hall vb Hvb) as [v Hv]. exists v. split; [exact Hv|].
    unfold slotOf in Hv.
    destruct (lightSources s' !! mLightSource vb) as [ls|]; [|discriminate].
    cbn [mbind option_bind] in Hv.
    destruct Hslots' as [Hrange _]. specialize (Hrange _ _ Hv). cbn in Hrange.
    unfold m, buf in *. lia.
  - exact Hfits'.
  - exact Hdata.
Qed.

Lemma registerLights_assigns_slots_witness :
  exists hash' s',
    @registerLights TranslationOnly twoLights 0 (mkVec3 0 0 0) 0 (newScene noFadeSettings)
    = Some (hash', s')
    /\ slotsAssigned (getLightIndexMap s' 0).
Proof.
  destruct (@registerLights_assigns_slots TranslationOnly twoLights 0 (mkVec3 0 0 0) 0
              (newScene noFadeSettings))
    as (hash' & s' & Hrun & Hslots & _).
  - vm_compute. reflexivity.
  - refine (bool_decide_unpack _ _). vm_compute. exact I.
  - vm_compute. reflexivity.
  - vm_compute. reflexivity.
  - vm_compute. reflexivity.
  - vm_compute. reflexivity.
  - exists hash', s'. split; [exact Hrun|exact Hslots].
Defined.


(** ** The two generations *)

Section Generations.
Context `{External}.
Variables (frameNum g : Z).
Hypothesis Hother : parity g <> parity frameNum.

Lemma keepsGeneration_refl (s : Scene) : keepsGeneration g s s.
Proof. unfold keepsGeneration. auto. Qed.

Lemma keepsGeneration_trans (s1 s2 s3 : Scene) :
  keepsGeneration g s1 s2 -> keepsGeneration g s2 s3 -> keepsGeneration g s1 s3.
Proof.
  unfold keepsGeneration. intros (A1 & B1 & C1 & D1) (A2 & B2 & C2 & D2).
  split; [congruence|]. split; [congruence|]. split; [congruence|].
  intros p. rewrite D2. apply D1.
Qed.

Lemma keepsGeneration_setLight (s : Scene) (p : LightSourcePtr) (ls : LightSource)
      (light : Light) :
  lightSources s !! p = Some ls ->
  keepsGeneration g s (with_lightSources s (<[p := setLight ls frameNum light]>
                                             (lightSources s))).
Proof.
  intros Hls. unfold keepsGeneration. cbn. repeat split; try reflexivity.
  intros q. destruct (decide (p = q)) as [<-|Hne].
  - rewrite lookup_insert_eq, Hls. cbn. f_equal.
    unfold getLight, setLight. cbn [mLight]. apply get2_set2_other. exact Hother.
  - rewrite lookup_insert_ne by exact Hne. reflexivity.
Qed.

Lemma keepsGeneration_setLightIndexMap (s : Scene) (m : gmap Z Z) :
  keepsGeneration g s (setLightIndexMap s frameNum m).
Proof.
  unfold keepsGeneration, getLightIndexMap, setLightIndexMap. cbn.
  repeat split; try reflexivity. apply get2_set2_other. exact Hother.
Qed.

Lemma keepsGeneration_setLightBuffer (s : Scene) (b : LightBuffer.t) :
  keepsGeneration g s (setLightBuffer s frameNum b).
Proof.
  unfold keepsGeneration, getLightBuffer, setLightBuffer. cbn.
  repeat split; try reflexivity. apply get2_set2_other. exact Hother.
Qed.

Lemma updateGPUPointLight_generation (index : Z) (lightSource : LightSourcePtr)
      (viewMatrix : Matrixf) (s s' : Scene) :
  updateGPUPointLight index lightSource frameNum viewMatrix s = Some s' ->
  keepsGeneration g s s'.
Proof.
  unfold updateGPUPointLight.
  destruct (lightSources s !! lightSource); [|discriminate]. cbn [mbind option_bind].
  destruct (LightBuffer.setDiffuse _ _ _); [|discriminate]. cbn [mbind option_bind].
  destruct (LightBuffer.setAmbient _ _ _); [|discriminate]. cbn [mbind option_bind].
  destruct (LightBuffer.setAttenuationRadius _ _ _); [|discriminate].
  cbn [mbind option_bind].
  destruct (LightBuffer.setPosition _ _ _); [|discriminate]. cbn [mbind option_bind].
  intros [= <-]. apply keepsGeneration_setLightBuffer.
Qed.

Lemma registerLights_generation (l : LightList) (viewMatrix : Matrixf)
      (hash hash' : Z) (s s' : Scene) :
  registerLights l frameNum viewMatrix hash s = Some (hash', s') ->
  keepsGeneration g s s'.
Proof.
  revert hash s. induction l as [|vb l IH]; intros hash s Hrun.
  - cbn in Hrun. injection Hrun as _ <-. apply keepsGeneration_refl.
  - cbn [registerLights] in Hrun.
    destruct (lightSources s !! mLightSource vb) as [ls|]; [|discriminate].
    cbn [mbind option_bind] in Hrun.
    destruct (bool_decide (getLightingMethod s ≠ SingleUBO)); [eapply IH; exact Hrun|].
    destruct (getLightIndexMap s frameNum !! mId ls); [eapply IH; exact Hrun|].
    destruct (updateGPUPointLight _ _ _ _ s) as [s1|] eqn:Hgpu; [|discriminate].
    cbn [mbind option_bind] in Hrun.
    eapply keepsGeneration_trans;
      [eapply updateGPUPointLight_generation; exact Hgpu|].
    eapply keepsGeneration_trans; [|eapply IH; exact Hrun].
    apply keepsGeneration_setLightIndexMap.
Qed.

Lemma generateIndices_generation (l : LightList) (pointCount : Z) (indices : list Z)
      (s : Scene) (pointCount' : Z) (indices' : list Z) (s' : Scene) :
  generateIndices l frameNum pointCount indices s = Some (pointCount', indices', s') ->
  keepsGeneration g s s'.
Proof.
  revert pointCount indices s. induction l as [|vb l IH]; intros pc idx s Hrun.
  - cbn in Hrun. injection Hrun as _ _ <-. apply keepsGeneration_refl.
  - cbn [generateIndices] in Hrun.
    destruct (lightSources s !! mLightSource vb) as [ls|]; [|discriminate].
    cbn [mbind option_bind] in Hrun.
    destruct (getLightIndexMap s frameNum !! mId ls);
      (destruct (pc <? Z.of_nat (length idx)); [|discriminate]);
      apply IH in Hrun.
    + exact Hrun.
    + eapply keepsGeneration_trans; [apply keepsGeneration_setLightIndexMap|exact Hrun].
Qed.

Lemma generateLights_generation (l : LightList) (s s' : Scene)
      (lights : list (LightSourcePtr * Z)) :
  generateLights l frameNum s = Some (lights, s') -> keepsGeneration g s s'.
Proof.
  revert lights s. induction l as [|vb l IH]; intros lights s Hrun.
  - cbn in Hrun. injection Hrun as _ <-. apply keepsGeneration_refl.
  - cbn [generateLights] in Hrun.
    destruct (lightSources s !! mLightSource vb) as [ls|] eqn:Hls; [|discriminate].
    cbn [mbind option_bind] in Hrun.
    match type of Hrun with
    | context [generateLights l frameNum ?s1] =>
        destruct (generateLights l frameNum s1) as [[lights1 s2]|] eqn:Hrest;
          [|discriminate]
    end.
    cbn [mbind option_bind] in Hrun. injection Hrun as _ <-.
    eapply keepsGeneration_trans; [|eapply IH; exact Hrest].
    apply keepsGeneration_setLight. exact Hls.
Qed.

Lemma generate_generation (l : LightList) (s s' : Scene) (ss : StateSet) :
  generate l frameNum s = Some (ss, s') -> keepsGeneration g s s'.
Proof.
  unfold generate. destruct (getLightingMethod s).
  - unfold StateSetGeneratorFFP_generate.
    destruct (lightsOf l frameNum s); [|discriminate]. cbn [mbind option_bind].
    destruct (forallb _ _); [|discriminate]. intros [= _ <-].
    apply keepsGeneration_refl.
  - unfold StateSetGeneratorPerObjectUniform_generate.
    destruct (generateLights l frameNum s) as [[lights s1]|] eqn:Hgen; [|discriminate].
    cbn [mbind option_bind]. intros [= _ <-].
    eapply generateLights_generation. exact Hgen.
  - unfold StateSetGeneratorSingleUBO_generate.
    destruct (generateIndices l frameNum 0 _ s) as [[[pc idx] s1]|] eqn:Hgen;
      [|discriminate].
    cbn [mbind option_bind]. intros [= _ <-].
    eapply generateIndices_generation. exact Hgen.
Qed.

Lemma generator_update_generation (found : StateSetPtr) (l : LightList)
      (s s' : Scene) :
  generator_update found l frameNum s = Some s' -> keepsGeneration g s s'.
Proof.
  unfold generator_update.
  destruct (getLightingMethod s); try (intros [= <-]; apply keepsGeneration_refl).
  unfold StateSetGeneratorSingleUBO_update.
  destruct (stateSets s !! found) as [[| |arr cnt]|]; try discriminate.
  cbn [mbind option_bind].
  destruct (updateIndices _ _ _ _ _ _ _) as [[n arr']|]; [|discriminate].
  cbn [mbind option_bind]. intros [= <-].
  unfold keepsGeneration. cbn. auto.
Qed.

Lemma getLightListStateSet_generation (l : LightList) (viewMatrix : Matrixf)
      (s s' : Scene) (p : StateSetPtr) :
  getLightListStateSet l frameNum viewMatrix s = Some (p, s') ->
  keepsGeneration g s s'.
Proof.
  unfold getLightListStateSet.
  destruct (registerLights l frameNum viewMatrix 0 s) as [[hash s1]|] eqn:Hreg;
    [|discriminate].
  cbn [mbind option_bind].
  apply registerLights_generation in Hreg.
  destruct (getStateSetCache s1 frameNum !! hash) as [found|].
  - destruct (generator_update found l frameNum s1) as [s2|] eqn:Hupd; [|discriminate].
    cbn [mbind option_bind]. intros [= _ <-].
    eapply keepsGeneration_trans; [exact Hreg|].
    eapply generator_update_generation. exact Hupd.
  - destruct (generate l frameNum s1) as [[ss s2]|] eqn:Hgen; [|discriminate].
    cbn [mbind option_bind]. intros [= _ <-].
    eapply keepsGeneration_trans; [exact Hreg|].
    eapply keepsGeneration_trans; [eapply generate_generation; exact Hgen|].
    unfold keepsGeneration, getStateSetCache. cbn.
    repeat split; try reflexivity. apply get2_set2_other. exact Hother.
Qed.

Lemma collectLights_generation (transforms : list LightSourceTransform)
      (isReflection : bool) (viewMatrix : Matrixf)
      (bounds result : list LightSourceViewBound) (s s' : Scene) :
  collectLights transforms isReflection viewMatrix frameNum bounds s = Some (result, s') ->
  keepsGeneration g s s'.
Proof.
  revert bounds s. induction transforms as [|t ts IH]; intros bounds s Hrun.
  - cbn in Hrun. injection Hrun as _ <-. apply keepsGeneration_refl.
  - cbn [collectLights] in Hrun.
    destruct (lightSources s !! lst_mLightSource t) as [ls|] eqn:Hls; [|discriminate].
    cbn [mbind option_bind] in Hrun.
    destruct (negb isReflection && negb (Qeq_bool (mPointLightFadeEnd s) 0)).
    + destruct (Qeq_bool (mPointLightFadeEnd s - mPointLightFadeStart s) 0);
        [discriminate|].
      destruct (Qeq_bool _ 0).
      * eapply IH. exact Hrun.
      * apply IH in Hrun.
        eapply keepsGeneration_trans; [|exact Hrun].
        unfold Light_fade. apply keepsGeneration_setLight. exact Hls.
    + eapply IH. exact Hrun.
Qed.

Lemma getLightsInViewSpace_generation (camera : Camera) (viewMatrix : Matrixf)
      (s s' : Scene) (result : list LightSourceViewBound) :
  getLightsInViewSpace camera viewMatrix frameNum s = Some (result, s') ->
  keepsGeneration g s s'.
Proof.
  unfold getLightsInViewSpace.
  destruct (viewBoundsOfCamera camera viewMatrix frameNum s) as [[bounds s1]|] eqn:Hview;
    [|discriminate].
  cbn [mbind option_bind]. intros [= _ <-].
  assert (Hkeep : keepsGeneration g s s1).
  { unfold viewBoundsOfCamera in Hview.
    destruct (mLightsInViewSpace s !! cameraPtr camera).
    - injection Hview as _ <-. apply keepsGeneration_refl.
    - eapply collectLights_generation. exact Hview. }
  eapply keepsGeneration_trans; [exact Hkeep|].
  unfold keepsGeneration. cbn. auto.
Qed.

Lemma addLight_generation (lightSource : LightSourcePtr) (worldMat : Matrixf)
      (s s' : Scene) :
  addLight lightSource worldMat frameNum s = Some s' -> keepsGeneration g s s'.
Proof.
  unfold addLight.
  destruct (lightSources s !! lightSource) as [ls|] eqn:Hls; [|discriminate].
  cbn [mbind option_bind]. intros [= <-].
  eapply keepsGeneration_trans; [apply keepsGeneration_setLight; exact Hls|].
  unfold keepsGeneration. cbn. auto.
Qed.

End Generations.

(** X7. The two generations do not interfere.  A call of [addLight],
    [getLightsInViewSpace] or [getLightListStateSet] for a frame leaves
    what is kept for the frames of the other parity as it is: their index
    map, their light buffer, their generation of the state-set cache and
    the [osg::Light] that every light source holds for them.  (The fade
    of [getLightsInViewSpace], the position set by [addLight], the slots
    and the records written by [getLightListStateSet] all go to the
    generation of the frame of the call.) *)
Theorem calls_keep_other_generation `{External} (op : Operation) (frameNum g : Z)
        (s : Scene) :
  frameOf op = Some frameNum ->
  parity g <> parity frameNum ->
  isSome (step op s) = true ->
  exists s', step op s = Some s' /\ keepsGeneration g s s'.
Proof.
  intros Hframe Hg Hdef.
  destruct (step op s) as [s'|] eqn:Hstep; [|discriminate].
  exists s'. split; [reflexivity|].
  destruct op; cbn [frameOf] in Hframe; try discriminate;
    injection Hframe as ->; cbn [step] in Hstep.
  - eapply addLight_generation; eassumption.
  - destruct (getLightsInViewSpace _ _ _ s) as [[r s1]|] eqn:Hcall; [|discriminate].
    cbn in Hstep. injection Hstep as <-.
    eapply getLightsInViewSpace_generation; eassumption.
  - destruct (getLightListStateSet _ _ _ s) as [[p s1]|] eqn:Hcall; [|discriminate].
    cbn in Hstep. injection Hstep as <-.
    eapply getLightListStateSet_generation; eassumption.
Qed.

Lemma calls_keep_other_generation_witness :
  exists s',
    @step TranslationOnly (@OpGetLightListStateSet TranslationOnly twoLights 0 (mkVec3 0 0 0))
          (newScene noFadeSettings) = Some s'
    /\ @keepsGeneration TranslationOnly 1 (newScene noFadeSettings) s'.
Proof.
  apply (@calls_keep_other_generation TranslationOnly
           (@OpGetLightListStateSet TranslationOnly twoLights 0 (mkVec3 0 0 0)) 0 1
           (newScene noFadeSettings)).
  - reflexivity.
  - vm_compute. discriminate.
  - vm_compute. reflexivity.
Defined.

(** ** Names of the lighting methods *)

Lemma mLightingMethodSettingMap_lookup (value : string) (method : LightingMethod) :
  mLightingMethodSettingMap !! value = Some method ->
  value = match method with
          | FFP => "legacy"
          | PerObjectUniform => "shaders compatibility"
          | SingleUBO => "shaders"
          end.
Proof.
  unfold mLightingMethodSettingMap.
  rewrite !lookup_insert_Some, lookup_empty.
  intros [[<- <-]|[_ [[<- <-]|[_ [[<- <-]|[_ ?]]]]]]; try reflexivity; discriminate.
Qed.

(** X5. The names of the lighting methods round-trip.  The name that
    [getLightingMethodString] gives a method is read back by
    [getLightingMethodFromString] as that method, without a warning; no
    method has the empty name.  In the other direction a name of the
    settings map comes back as it is, and any other string comes back as
    the name of the fallback, "shaders compatibility". *)
Theorem lighting_method_names_round_trip :
  (forall method,
     getLightingMethodFromString (getLightingMethodString method) = (method, [])
     /\ getLightingMethodString method <> "")
  /\ forall value,
      getLightingMethodString (getLightingMethodFromString value).1
      = match mLightingMethodSettingMap !! value with
        | Some _ => value
        | None => "shaders compatibility"
        end.
Proof.
  assert (Hname : forall method,
             getLightingMethodString method
             = match method with
               | FFP => "legacy"
               | PerObjectUniform => "shaders compatibility"
               | SingleUBO => "shaders"
               end).
  { intros []; vm_compute; reflexivity. }
  split.
  - intros method. rewrite Hname. destruct method; split; try discriminate;
      vm_compute; reflexivity.
  - intros value. unfold getLightingMethodFromString.
    destruct (mLightingMethodSettingMap !! value) as [method|] eqn:Hlookup.
    + cbn [fst]. rewrite Hname. symmetry.
      apply mLightingMethodSettingMap_lookup. exact Hlookup.
    + cbn [fst]. apply Hname.
Qed.

(** ** The index arrays of the shared-buffer tier *)

Section IndexArrays.
Context `{External}.

Lemma lightIds_exist (store : gmap LightSourcePtr LightSource) (l : LightList) :
  isSome (lightIds store l) = true ->
  forall vb, vb ∈ l -> is_Some (store !! mLightSource vb).
Proof.
  induction l as [|vb0 l IH]; intros Hids vb Hvb.
  - apply elem_of_nil in Hvb. destruct Hvb.
  - cbn [lightIds] in Hids.
    destruct (store !! mLightSource vb0) as [ls|] eqn:Hls; [|discriminate].
    cbn [mbind option_bind] in Hids.
    apply elem_of_cons in Hvb as [->|Hvb]; [rewrite Hls; eauto|].
    apply IH; [|exact Hvb].
    destruct (lightIds store l); [reflexivity|discriminate].
Qed.

(** The loop of [generate]: [m0] is the index map before the loop, which
    the loop extends with the slot 0 for the lights that have none. *)
Lemma generateIndices_values (frameNum : Z) (m0 : gmap Z Z) (l : LightList) :
  forall (pointCount : Z) (indices : list Z) (s : Scene),
  0 <= pointCount ->
  pointCount + Z.of_nat (length l) <= Z.of_nat (length indices) ->
  (forall vb, vb ∈ l -> is_Some (lightSources s !! mLightSource vb)) ->
  (forall id, default 0 (getLightIndexMap s frameNum !! id) = default 0 (m0 !! id)) ->
  exists indices' s',
    generateIndices l frameNum pointCount indices s
    = Some (pointCount + Z.of_nat (length l), indices', s')
    /\ length indices' = length indices
    /\ lightSources s' = lightSources s
    /\ (forall id, default 0 (getLightIndexMap s' frameNum !! id) = default 0 (m0 !! id))
    /\ (forall id, is_Some (getLightIndexMap s frameNum !! id) ->
          is_Some (getLightIndexMap s' frameNum !! id))
    /\ (forall (i : nat) vb ls,
          l !! i = Some vb -> lightSources s !! mLightSource vb = Some ls ->
          indices' !! (Z.to_nat pointCount + i)%nat = Some (default 0 (m0 !! mId ls))
          /\ is_Some (getLightIndexMap s' frameNum !! mId ls))
    /\ (forall k : nat,
          (k < Z.to_nat pointCount \/ Z.to_nat pointCount + length l <= k)%nat ->
          indices' !! k = indices !! k).
Proof.
  induction l as [|vb l IH]; intros pc idx s Hpc Hroom Hexist Hmap.
  - exists idx, s. cbn [generateIndices length].
    replace (pc + Z.of_nat 0) with pc by lia.
    split; [reflexivity|]. split; [reflexivity|]. split; [reflexivity|].
    split; [exact Hmap|]. split; [auto|]. split; [|reflexivity].
    intros i vb ls Hi. rewrite lookup_nil in Hi. discriminate.
  - cbn [length] in Hroom.
    destruct (Hexist vb) as [ls Hls]; [apply elem_of_cons; left; reflexivity|].
    cbn [generateIndices]. rewrite Hls. cbn [mbind option_bind].
    set (m := getLightIndexMap s frameNum) in *.
    set (bufIndex := default 0 (m0 !! mId ls)).
    assert (Hstep : exists s1,
               match m !! mId ls with
               | Some v => (v, s)
               | None => (0, setLightIndexMap s frameNum (<[mId ls := 0]> m))
               end = (bufIndex, s1)
               /\ lightSources s1 = lightSources s
               /\ (forall id, default 0 (getLightIndexMap s1 frameNum !! id)
                              = default 0 (m0 !! id))
               /\ (forall id, is_Some (m !! id) ->
                     is_Some (getLightIndexMap s1 frameNum !! id))
               /\ is_Some (getLightIndexMap s1 frameNum !! mId ls)).
    { unfold bufIndex. rewrite <- Hmap. fold m.
      destruct (m !! mId ls) as [v|] eqn:Hv.
      - exists s. split; [reflexivity|]. split; [reflexivity|].
        split; [exact Hmap|]. split; [auto|]. fold m. rewrite Hv. eauto.
      - eexists. split; [reflexivity|]. split; [reflexivity|].
        unfold getLightIndexMap, setLightIndexMap.
        cbn [mLightIndexMaps with_mLightIndexMaps]. rewrite get2_set2_same.
        split; [|split].
        + intros id. destruct (decide (mId ls = id)) as [<-|Hne].
          * rewrite lookup_insert_eq, <- Hmap. fold m. rewrite Hv. reflexivity.
          * rewrite lookup_insert_ne by exact Hne. apply Hmap.
        + intros id Hid. destruct (decide (mId ls = id)) as [<-|Hne].
          * rewrite lookup_insert_eq. eauto.
          * rewrite lookup_insert_ne by exact Hne. exact Hid.
        + rewrite lookup_insert_eq. eauto. }
    destruct Hstep as (s1 & -> & Hsrc1 & Hmap1 & Hmono1 & Hreg1).
    replace (pc <? Z.of_nat (length idx)) with true by (symmetry; apply Z.ltb_lt; lia).
    destruct (IH (pc + 1) (<[Z.to_nat pc := bufIndex]> idx) s1)
      as (idx' & s' & Hrun & Hlen & Hsrc & Hmap' & Hmono & Hvals & Hout).
    { lia. }
    { rewrite length_insert. lia. }
    { intros vb' Hvb'. rewrite Hsrc1. apply Hexist. apply elem_of_cons. right. exact Hvb'. }
    { exact Hmap1. }
    exists idx', s'. cbn [length].
    replace (pc + Z.of_nat (S (length l))) with (pc + 1 + Z.of_nat (length l)) by lia.
    split; [exact Hrun|]. split; [rewrite Hlen; apply length_insert|].
    split; [rewrite Hsrc; exact Hsrc1|]. split; [exact Hmap'|].
    split; [intros id Hid; apply Hmono, Hmono1, Hid|]. split.
    + intros [|i] vb' ls' Hi Hls'.
      * cbn in Hi. injection Hi as <-. rewrite Hls in Hls'. injection Hls' as <-.
        split; [|apply Hmono, Hreg1].
        rewrite Hout by lia. rewrite Nat.add_0_r.
        apply list_lookup_insert_eq. lia.
      * cbn in Hi. rewrite <- Hsrc1 in Hls'.
        replace (Z.to_nat pc + S i)%nat with (Z.to_nat (pc + 1) + i)%nat by lia.
        eapply Hvals; eassumption.
    + intros k Hk. rewrite Hout by lia.
      apply list_lookup_insert_ne. lia.
Qed.

Lemma generateIndices_overflow (frameNum : Z) (l : LightList) :
  forall (pointCount : Z) (indices : list Z) (s : Scene),
  0 <= pointCount <= Z.of_nat (length indices) ->
  Z.of_nat (length indices) < pointCount + Z.of_nat (length l) ->
  generateIndices l frameNum pointCount indices s = None.
Proof.
  induction l as [|vb l IH]; intros pc idx s Hpc Hover.
  - cbn [length] in Hover. lia.
  - cbn [generateIndices].
    destruct (lightSources s !! mLightSource vb) as [ls|]; [|reflexivity].
    cbn [mbind option_bind].
    destruct (getLightIndexMap s frameNum !! mId ls);
      (destruct (pc <? Z.of_nat (length idx)) eqn:Hlt; [|reflexivity]);
      apply Z.ltb_lt in Hlt; apply IH; rewrite length_insert;
      cbn [length] in Hover; lia.
Qed.

(** [generate] of the shared-buffer tier on a list within the light
    cap. *)
Lemma SingleUBO_generate_within_cap (l : LightList) (frameNum : Z) (s : Scene) :
  0 <= getMaxLights s ->
  isSome (lightIds (lightSources s) l) = true ->
  Z.of_nat (length l) <= getMaxLights s ->
  exists indices s',
    StateSetGeneratorSingleUBO_generate l frameNum s
    = Some (StateSetSingleUBO indices (Z.of_nat (length l)), s')
    /\ Z.of_nat (length indices) = getMaxLights s
    /\ (forall (i : nat) vb, l !! i = Some vb ->
          indices !! i = Some (default 0 (slotOf s frameNum vb))
          /\ slotOf s' frameNum vb = Some (default 0 (slotOf s frameNum vb)))
    /\ (forall i : nat, (length l <= i)%nat -> Z.of_nat i < getMaxLights s ->
          indices !! i = Some 0)
    /\ lightSources s' = lightSources s.
Proof.
  intros Hmax Hids Hlen.
  pose proof (lightIds_exist _ _ Hids) as Hexist.
  unfold StateSetGeneratorSingleUBO_generate.
  destruct (generateIndices_values frameNum (getLightIndexMap s frameNum) l 0
              (replicate (Z.to_nat (getMaxLights s)) 0) s)
    as (idx & s' & Hrun & Hlen' & Hsrc & Hmap & Hmono & Hvals & Hout).
  { lia. }
  { rewrite length_replicate. lia. }
  { exact Hexist. }
  { reflexivity. }
  rewrite Hrun. cbn [mbind option_bind]. rewrite Z.add_0_l.
  exists idx, s'. split; [reflexivity|].
  split; [rewrite Hlen', length_replicate; lia|].
  split; [|split; [|exact Hsrc]].
  - intros i vb Hi.
    destruct (Hexist vb) as [ls Hls]; [eapply list_elem_of_lookup_2; exact Hi|].
    unfold slotOf. rewrite Hsrc, Hls. cbn [mbind option_bind].
    destruct (Hvals i vb ls Hi Hls) as [Hval [v Hv]].
    split; [exact Hval|].
    specialize (Hmap (mId ls)). rewrite Hv in Hmap. cbn in Hmap.
    rewrite Hv, Hmap. reflexivity.
  - intros i Hi Hlt. rewrite Hout by (cbn; lia).
    apply lookup_replicate_2. lia.
Qed.

(** X8. The index array that the shared-buffer tier generates.  For a
    list of existing lights that is no longer than the light cap,
    [StateSetGeneratorSingleUBO::generate] builds an array of [maxLights]
    integers and a count equal to the length of the list; entry [i] is
    the slot that the index map of the frame holds for light [i], or 0
    when it holds none (the map then records 0 for that light); the
    entries past the list are 0.  For a longer list [indices->at] throws:
    the call has no result. *)
Theorem generate_indexes_slots (l : LightList) (frameNum : Z) (s : Scene) :
  0 <= getMaxLights s ->
  isSome (lightIds (lightSources s) l) = true ->
  if Z.of_nat (length l) <=? getMaxLights s
  then
    exists indices s',
      StateSetGeneratorSingleUBO_generate l frameNum s
      = Some (StateSetSingleUBO indices (Z.of_nat (length l)), s')
      /\ Z.of_nat (length indices) = getMaxLights s
      /\ (forall (i : nat) vb, l !! i = Some vb ->
            indices !! i = Some (default 0 (slotOf s frameNum vb))
            /\ slotOf s' frameNum vb = Some (default 0 (slotOf s frameNum vb)))
      /\ (forall i : nat, (length l <= i)%nat -> Z.of_nat i < getMaxLights s ->
            indices !! i = Some 0)
      /\ lightSources s' = lightSources s
  else StateSetGeneratorSingleUBO_generate l frameNum s = None.
Proof.
  intros Hmax Hids.
  destruct (Z.of_nat (length l) <=? getMaxLights s) eqn:Hlen.
  - apply Z.leb_le in Hlen. apply SingleUBO_generate_within_cap; assumption.
  - apply Z.leb_gt in Hlen. unfold StateSetGeneratorSingleUBO_generate.
    rewrite generateIndices_overflow; [reflexivity| |];
      rewrite length_replicate; lia.
Qed.

(** The loop of the update hook when every light it visits has a slot:
    nothing is skipped, so entry [j] receives the slot of light [j]. *)
Lemma updateIndices_all_found (l : LightList) (frameNum : Z) (s : Scene) (fuel : nat) :
  forall (i : Z) (uOldArray : list Z),
  0 <= i ->
  i + Z.of_nat fuel <= Z.of_nat (length l) ->
  (forall (j : nat) vb, i <= Z.of_nat j < i + Z.of_nat fuel -> l !! j = Some vb ->
     is_Some (slotOf s frameNum vb)) ->
  exists uOldArray',
    updateIndices l (getLightIndexMap s frameNum) s fuel i i uOldArray
    = Some (i + Z.of_nat fuel, uOldArray')
    /\ length uOldArray' = length uOldArray
    /\ (forall (j : nat) vb, i <= Z.of_nat j < i + Z.of_nat fuel -> l !! j = Some vb ->
          (j < length uOldArray)%nat -> uOldArray' !! j = slotOf s frameNum vb)
    /\ (forall k : nat, Z.of_nat k < i \/ i + Z.of_nat fuel <= Z.of_nat k ->
          uOldArray' !! k = uOldArray !! k).
Proof.
  induction fuel as [|fuel IH]; intros i arr Hi Hfuel Hslots.
  - exists arr. cbn [updateIndices]. replace (i + Z.of_nat 0) with i by lia.
    split; [reflexivity|]. split; [reflexivity|]. split; [|reflexivity].
    intros j vb Hj. lia.
  - cbn [updateIndices].
    destruct (lookup_lt_is_Some_2 l (Z.to_nat i)) as [vb Hvb]; [lia|].
    rewrite Hvb. cbn [mbind option_bind].
    destruct (Hslots (Z.to_nat i) vb) as [v Hv]; [lia|exact Hvb|].
    pose proof Hv as Hv'. unfold slotOf in Hv'.
    destruct (lightSources s !! mLightSource vb) as [ls|] eqn:Hls; [|discriminate].
    cbn [mbind option_bind] in Hv' |- *. rewrite Hv'.
    destruct (IH (i + 1) (<[Z.to_nat i := v]> arr)) as (arr' & Hrun & Hlen & Hvals & Hout).
    { lia. }
    { lia. }
    { intros j vb' Hj. apply Hslots. lia. }
    exists arr'.
    replace (i + Z.of_nat (S fuel)) with (i + 1 + Z.of_nat fuel) by lia.
    split; [exact Hrun|]. split; [rewrite Hlen; apply length_insert|]. split.
    + intros j vb' Hj Hjvb Hjlen.
      destruct (decide (j = Z.to_nat i)) as [->|Hne].
      * rewrite Hvb in Hjvb. injection Hjvb as <-. rewrite Hout by lia.
        rewrite Hv. apply list_lookup_insert_eq. exact Hjlen.
      * apply Hvals; [lia|exact Hjvb|rewrite length_insert; exact Hjlen].
    + intros k Hk. rewrite Hout by lia. apply list_lookup_insert_ne. lia.
Qed.

(** X9. The update hook refreshes a cached index array.  When the first
    [min(maxLights, oldCount)] lights of the list have a slot in the index
    map of the frame (as they have once the list is registered) and the
    list has that many elements, [StateSetGeneratorSingleUBO::update] is
    defined; it changes the state set it is given and nothing else, keeps
    the length of "PointLightIndex", sets "PointLightCount" to that
    number (or to 0 when it is negative), puts in every entry below it
    that the array has the slot that the light at that position holds
    now, and leaves the entries from the count on as they were. *)
Theorem update_hook_refreshes (stateset : StateSetPtr) (l : LightList) (frameNum : Z)
        (s : Scene) (uOldArray : list Z) (oldCount : Z) :
  let count := Z.min (getMaxLights s) oldCount in
  stateSets s !! stateset = Some (StateSetSingleUBO uOldArray oldCount) ->
  count <= Z.of_nat (length l) ->
  forallb (fun vb => isSome (slotOf s frameNum vb)) (take (Z.to_nat count) l) = true ->
  exists uNewArray,
    StateSetGeneratorSingleUBO_update stateset l frameNum s
    = Some (with_stateSets s
              (<[stateset := StateSetSingleUBO uNewArray (Z.max 0 count)]> (stateSets s)))
    /\ length uNewArray = length uOldArray
    /\ (forall (j : nat) vb, Z.of_nat j < count -> l !! j = Some vb ->
          (j < length uOldArray)%nat -> uNewArray !! j = slotOf s frameNum vb)
    /\ (forall k : nat, Z.max 0 count <= Z.of_nat k -> uNewArray !! k = uOldArray !! k).
Proof.
  intros count Hset Hlen Hslots.
  unfold StateSetGeneratorSingleUBO_update. rewrite Hset. cbn [mbind option_bind].
  fold count.
  destruct (updateIndices_all_found l frameNum s (Z.to_nat count) 0 uOldArray)
    as (arr' & Hrun & Hlen' & Hvals & Hout).
  { lia. }
  { lia. }
  { intros j vb Hj Hvb.
    rewrite forallb_forall in Hslots.
    assert (Hin : In vb (take (Z.to_nat count) l)).
    { apply list_elem_of_In. apply (list_elem_of_lookup_2 _ j).
      rewrite lookup_take_lt by lia. exact Hvb. }
    specialize (Hslots vb Hin). destruct (slotOf s frameNum vb); [eauto|discriminate]. }
  rewrite Hrun. cbn [mbind option_bind].
  replace (0 + Z.of_nat (Z.to_nat count)) with (Z.max 0 count) by lia.
  exists arr'. split; [reflexivity|]. split; [exact Hlen'|]. split.
  - intros j vb Hj. apply Hvals. lia.
  - intros k Hk. apply Hout. lia.
Qed.

End IndexArrays.


Lemma generate_indexes_slots_witness :
  exists indices s',
    @StateSetGeneratorSingleUBO_generate TranslationOnly twoLights 0
                                         (newScene noFadeSettings)
    = Some (StateSetSingleUBO indices 2, s')
    /\ Z.of_nat (length indices) = 8.
Proof.
  pose proof (@generate_indexes_slots TranslationOnly twoLights 0
                (newScene noFadeSettings)) as Hgen.
  assert (Hfits : (Z.of_nat (length twoLights) <=? getMaxLights (newScene noFadeSettings))
                  = true) by (vm_compute; reflexivity).
  rewrite Hfits in Hgen.
  destruct Hgen as (indices & s' & Hrun & Hlen & _).
  - vm_compute. discriminate.
  - vm_compute. reflexivity.
  - exists indices, s'. split; [exact Hrun|]. rewrite Hlen. vm_compute. reflexivity.
Defined.

Lemma update_hook_refreshes_witness :
  exists uNewArray,
    @StateSetGeneratorSingleUBO_update TranslationOnly firstCall.1 twoLights 0 firstCall.2
    = Some (with_stateSets firstCall.2
              (<[firstCall.1 :=
                   StateSetSingleUBO uNewArray
                     (Z.max 0 (Z.min (getMaxLights firstCall.2) 2))]>
                 (stateSets firstCall.2)))
    /\ length uNewArray = 8%nat.
Proof.
  destruct (@update_hook_refreshes TranslationOnly firstCall.1 twoLights 0 firstCall.2
              [1; 2; 0; 0; 0; 0; 0; 0] 2)
    as (uNewArray & Hrun & Hlen & _).
  - vm_compute. reflexivity.
  - vm_compute. discriminate.
  - vm_compute. reflexivity.
  - exists uNewArray. split; [exact Hrun|exact Hlen].
Defined.

(** X10. The first request for a list in a frame, in the shared-buffer
    tier.  Under the conditions of registration (slots 1, ..., n in the
    index map, a buffer that holds its records, room for the list, lights
    that exist), for a list no longer than the light cap whose key is not
    in the cache of the frame, [getLightListStateSet] is defined: it
    returns a state set at an address that was not in use, files it in
    the cache of the frame under the key of the list, and the state set
    has the length of the list as "PointLightCount" and, in entry [i] of
    "PointLightIndex", the buffer slot of light [i], which lies between 1
    and the record count. *)
Theorem getLightListStateSet_first_request `{External} (l : LightList) (frameNum : Z)
        (viewMatrix : Matrixf) (s : Scene) (ids : list Z) :
  let m := getLightIndexMap s frameNum in
  let buf := getLightBuffer s frameNum in
  getLightingMethod s = SingleUBO ->
  slotsAssigned m ->
  bufferFits buf = true ->
  LightBuffer.mCount buf < 2 ^ 31 ->
  lightIds (lightSources s) l = Some ids ->
  Z.of_nat (size m) + Z.of_nat (length l) < LightBuffer.mCount buf ->
  Z.of_nat (length l) <= getMaxLights s ->
  getStateSetCache s frameNum !! hashIds ids = None ->
  exists stateset s' indices,
    getLightListStateSet l frameNum viewMatrix s = Some (stateset, s')
    /\ stateSets s !! stateset = None
    /\ getStateSetCache s' frameNum !! hashIds ids = Some stateset
    /\ stateSets s' !! stateset = Some (StateSetSingleUBO indices (Z.of_nat (length l)))
    /\ Z.of_nat (length indices) = getMaxLights s
    /\ forall (i : nat) vb, l !! i = Some vb ->
        exists v, indices !! i = Some v
                  /\ slotOf s' frameNum vb = Some v
                  /\ 1 <= v < LightBuffer.mCount buf.
Proof.
  intros m buf Hmethod Hslots Hfits Hint Hids Hroom Hcap Hmiss.
  assert (Hids' : isSome (lightIds (lightSources s) l) = true) by (rewrite Hids; reflexivity).
  destruct (registerLights_slots l frameNum viewMatrix 0 s
              Hmethod Hslots Hfits Hint Hids' Hroom)
    as (hash & s1 & Hrun & Hsrc & Hmethod1 & Hslots1 & Hsub & Hall & Hsize & _).
  destruct (registerLights_spec _ _ _ _ _ _ _ Hrun)
    as ((Hst1 & Hcache1 & _ & Hmax1 & _) & _ & ids' & Hids1 & Hhash).
  rewrite Hids in Hids1. injection Hids1 as <-.
  change (fold_left hashCombine ids 0) with (hashIds ids) in Hhash. subst hash.
  unfold getLightListStateSet. rewrite Hrun. cbn [mbind option_bind].
  unfold getStateSetCache in *. rewrite Hcache1, Hmiss.
  unfold generate. rewrite Hmethod1.
  pose proof (SingleUBO_generate_within_cap l frameNum s1) as Hgen.
  unfold getMaxLights in *. rewrite Hmax1 in Hgen.
  destruct Hgen as (indices & s2 & Hgen & Hlen & Hvals & _ & Hsrc2).
  { lia. }
  { rewrite Hsrc. exact Hids'. }
  { exact Hcap. }
  rewrite Hgen. cbn [mbind option_bind].
  assert (Hkeep2 : stateSets s2 = stateSets s).
  { assert (Hg : generate l frameNum s1
                 = Some (StateSetSingleUBO indices (Z.of_nat (length l)), s2)).
    { unfold generate. rewrite Hmethod1. exact Hgen. }
    destruct (generate_spec _ _ _ _ _ Hg) as [(Hst2 & _) _]. congruence. }
  assert (Hcache2 : mStateSetCache s2 = mStateSetCache s).
  { assert (Hg : generate l frameNum s1
                 = Some (StateSetSingleUBO indices (Z.of_nat (length l)), s2)).
    { unfold generate. rewrite Hmethod1. exact Hgen. }
    destruct (generate_spec _ _ _ _ _ Hg) as [(_ & Hc2 & _) _]. congruence. }
  eexists _, _, indices. split; [reflexivity|].
  cbn [stateSets mStateSetCache with_stateSets with_mStateSetCache].
  rewrite Hkeep2. split; [|split; [|split; [|split]]].
  - apply not_elem_of_dom. apply is_fresh.
  - rewrite get2_set2_same. apply lookup_insert_eq.
  - apply lookup_insert_eq.
  - exact Hlen.
  - intros i vb Hi. destruct (Hvals i vb Hi) as [Hidx Hslot2].
    destruct (Hall vb) as [v Hv]; [eapply list_elem_of_lookup_2; exact Hi|].
    rewrite Hv in Hidx, Hslot2. cbn [default] in Hidx, Hslot2.
    exists v. split; [exact Hidx|]. split; [exact Hslot2|].
    unfold slotOf in Hv.
    destruct (lightSources s1 !! mLightSource vb) as [ls|]; [|discriminate].
    cbn [mbind option_bind] in Hv.
    destruct Hslots1 as [Hrange _]. specialize (Hrange _ _ Hv). cbn in Hrange.
    unfold m, buf in *. lia.
Qed.

Lemma getLightListStateSet_first_request_witness :
  exists stateset s' indices,
    @getLightListStateSet TranslationOnly twoLights 0 (mkVec3 0 0 0)
                          (newScene noFadeSettings) = Some (stateset, s')
    /\ stateSets s' !! stateset = Some (StateSetSingleUBO indices 2).
Proof.
  destruct (@getLightListStateSet_first_request TranslationOnly twoLights 0 (mkVec3 0 0 0)
              (newScene noFadeSettings) [11; 12])
    as (stateset & s' & indices & Hrun & _ & _ & Hset & _).
  - vm_compute. reflexivity.
  - refine (bool_decide_unpack _ _). vm_compute. exact I.
  - vm_compute. reflexivity.
  - vm_compute. reflexivity.
  - vm_compute. reflexivity.
  - vm_compute. reflexivity.
  - vm_compute. discriminate.
  - vm_compute. reflexivity.
  - exists stateset, s', indices. split; [exact Hrun|exact Hset].
Defined.

(** ** updateMaxLights *)

Section MaxLights.
Context `{External}.










End MaxLights.



(** ** Queries of the lights in view space *)

Section ViewSpaceQueries.
Context `{External}.

Lemma truncateToScene_length (bounds : list LightSourceViewBound) :
  Z.of_nat (length (truncateToScene bounds)) <= getMaxLightsInScene - 1.
Proof.
  unfold truncateToScene.
  change (to_size_t (getMaxLightsInScene - 1)) with 340.
  change (getMaxLightsInScene - 1) with 340.
  change (Z.to_nat (getMaxLightsInScene - 2)) with 339%nat.
  destruct (340 <? Z.of_nat (length bounds)) eqn:Hover.
  - destruct bounds as [|first others]; [cbn; lia|].
    cbn [length]. rewrite length_take. lia.
  - apply Z.ltb_ge in Hover. exact Hover.
Qed.

Lemma truncateToScene_idem (bounds : list LightSourceViewBound) :
  truncateToScene (truncateToScene bounds) = truncateToScene bounds.
Proof.
  pose proof (truncateToScene_length bounds) as Hlen.
  unfold truncateToScene at 1.
  change (to_size_t (getMaxLightsInScene - 1)) with (getMaxLightsInScene - 1).
  replace (getMaxLightsInScene - 1 <? Z.of_nat (length (truncateToScene bounds)))
    with false by (symmetry; apply Z.ltb_ge; exact Hlen).
  reflexivity.
Qed.

(** X12. [getLightsInViewSpace] answers once per camera and frame.  After
    a call that is defined, the same call, or one for the same camera
    with any other view matrix or frame number, returns the same list and
    leaves the manager as it is: the lights are not collected, faded or
    sorted again until [update] empties [mLightsInViewSpace].  In the
    shared-buffer tier the list has at most [getMaxLightsInScene() - 1]
    entries. *)
Theorem getLightsInViewSpace_once_per_camera (camera : Camera) (viewMatrix : Matrixf)
        (frameNum : Z) (s : Scene) :
  isSome (getLightsInViewSpace camera viewMatrix frameNum s) = true ->
  exists bounds s',
    getLightsInViewSpace camera viewMatrix frameNum s = Some (bounds, s')
    /\ mLightsInViewSpace s' !! cameraPtr camera = Some bounds
    /\ (forall viewMatrix' frameNum',
          getLightsInViewSpace camera viewMatrix' frameNum' s' = Some (bounds, s'))
    /\ (getLightingMethod s = SingleUBO ->
        Z.of_nat (length bounds) <= getMaxLightsInScene - 1).
Proof.
  intros Hdef.
  destruct (getLightsInViewSpace camera viewMatrix frameNum s) as [[bounds s']|] eqn:Hcall;
    [|discriminate].
  exists bounds, s'. split; [reflexivity|].
  unfold getLightsInViewSpace in Hcall.
  destruct (viewBoundsOfCamera camera viewMatrix frameNum s) as [[collected s1]|] eqn:Hview;
    [|discriminate].
  cbn [mbind option_bind] in Hcall.
  pose proof (viewBoundsOfCamera_scene _ _ _ _ _ _ Hview) as Hscene.
  assert (Hmethod : getLightingMethod s1 = getLightingMethod s).
  { rewrite Hscene. reflexivity. }
  injection Hcall as Hbounds Hs'.
  split; [|split].
  - rewrite <- Hs'. cbn [mLightsInViewSpace with_mLightsInViewSpace].
    rewrite Hbounds. apply lookup_insert_eq.
  - intros viewMatrix' frameNum'. unfold getLightsInViewSpace, viewBoundsOfCamera.
    assert (Hlookup : mLightsInViewSpace s' !! cameraPtr camera = Some bounds).
    { rewrite <- Hs'. cbn [mLightsInViewSpace with_mLightsInViewSpace].
      rewrite Hbounds. apply lookup_insert_eq. }
    rewrite Hlookup. cbn [mbind option_bind].
    assert (Hmethod' : getLightingMethod s' = getLightingMethod s1).
    { rewrite <- Hs'. reflexivity. }
    rewrite Hmethod'.
    assert (Hsame : (if bool_decide (getLightingMethod s1 = SingleUBO)
                     then truncateToScene bounds else bounds) = bounds).
    { rewrite <- Hbounds.
      destruct (bool_decide (getLightingMethod s1 = SingleUBO)); [|reflexivity].
      apply truncateToScene_idem. }
    rewrite Hsame. do 2 f_equal.
    rewrite <- Hs' at 2. rewrite <- Hs'.
    cbn [mLightsInViewSpace with_mLightsInViewSpace].
    rewrite Hbounds, insert_insert_eq. reflexivity.
  - intros Hubo. rewrite <- Hbounds, Hmethod.
    rewrite bool_decide_eq_true_2 by exact Hubo. apply truncateToScene_length.
Qed.

(** The loop over [mLights] when no fade is computed. *)
Lemma collectLights_no_fade (viewMatrix : Matrixf) (frameNum : Z) (isReflection : bool)
      (s : Scene) (ts : list LightSourceTransform) :
  negb isReflection && negb (Qeq_bool (mPointLightFadeEnd s) 0) = false ->
  forallb (fun t => isSome (lightSources s !! lst_mLightSource t)) ts = true ->
  forall bounds,
  exists extra,
    collectLights ts isReflection viewMatrix frameNum bounds s = Some (bounds ++ extra, s)
    /\ length extra = length ts
    /\ forall (i : nat) t, ts !! i = Some t ->
        exists ls, lightSources s !! lst_mLightSource t = Some ls
                   /\ extra !! i
                      = Some (mkLightSourceViewBound (lst_mLightSource t)
                                                     (viewBoundOf t viewMatrix ls s)).
Proof.
  intros Hnofade. induction ts as [|t ts IH]; intros Hexist bounds.
  - exists []. cbn [collectLights]. rewrite app_nil_r.
    split; [reflexivity|]. split; [reflexivity|].
    intros i t Hi. rewrite lookup_nil in Hi. discriminate.
  - cbn [forallb] in Hexist. apply andb_true_iff in Hexist as [Ht Hexist].
    destruct (lightSources s !! lst_mLightSource t) as [ls|] eqn:Hls; [|discriminate].
    cbn [collectLights]. rewrite Hls. cbn [mbind option_bind]. rewrite Hnofade.
    destruct (IH Hexist (bounds ++ [mkLightSourceViewBound (lst_mLightSource t)
                                      (viewBoundOf t viewMatrix ls s)]))
      as (extra & Hrun & Hlen & Hvals).
    eexists (_ :: extra). rewrite Hrun, <- app_assoc.
    split; [reflexivity|]. split; [cbn [length]; rewrite Hlen; reflexivity|].
    intros [|i] t' Hi.
    + cbn in Hi. injection Hi as <-. exists ls. split; [exact Hls|reflexivity].
    + cbn in Hi. apply Hvals. exact Hi.
Qed.

(** X13. No fade for the reflection camera, nor when the fade is off.
    On the first query of a camera in a frame, when the camera is named
    "ReflectionCamera" or the maximum light distance is 0, and the
    registered light sources exist, [getLightsInViewSpace] is defined and
    changes no light source: the manager afterwards differs from the one
    before by the entry of the camera in [mLightsInViewSpace] alone.
    Unless the shared-buffer tier has to cut the list, the list returned
    has one entry per registered light, in the order of registration,
    with the view-space bound of that light. *)
Theorem getLightsInViewSpace_without_fade (camera : Camera) (viewMatrix : Matrixf)
        (frameNum : Z) (s : Scene) :
  isReflectionCamera camera || Qeq_bool (mPointLightFadeEnd s) 0 = true ->
  mLightsInViewSpace s !! cameraPtr camera = None ->
  forallb (fun t => isSome (lightSources s !! lst_mLightSource t)) (mLights s) = true ->
  exists bounds,
    getLightsInViewSpace camera viewMatrix frameNum s
    = Some (bounds, with_mLightsInViewSpace s (<[cameraPtr camera := bounds]>
                                               (mLightsInViewSpace s)))
    /\ (bool_decide (getLightingMethod s = SingleUBO)
        && (getMaxLightsInScene - 1 <? Z.of_nat (length (mLights s))) = false ->
        length bounds = length (mLights s)
        /\ forall (i : nat) t, mLights s !! i = Some t ->
            exists ls, lightSources s !! lst_mLightSource t = Some ls
                       /\ bounds !! i
                          = Some (mkLightSourceViewBound (lst_mLightSource t)
                                                         (viewBoundOf t viewMatrix ls s))).
Proof.
  intros Hoff Hfirst Hexist.
  assert (Hnofade : negb (isReflectionCamera camera)
                    && negb (Qeq_bool (mPointLightFadeEnd s) 0) = false).
  { destruct (isReflectionCamera camera), (Qeq_bool (mPointLightFadeEnd s) 0);
      try reflexivity; discriminate. }
  destruct (collectLights_no_fade viewMatrix frameNum (isReflectionCamera camera) s
              (mLights s) Hnofade Hexist []) as (extra & Hrun & Hlen & Hvals).
  cbn [app] in Hrun.
  unfold getLightsInViewSpace, viewBoundsOfCamera. rewrite Hfirst, Hrun.
  cbn [mbind option_bind].
  eexists. split; [reflexivity|].
  intros Hfits.
  assert (Hsame : (if bool_decide (getLightingMethod s = SingleUBO)
                   then truncateToScene extra else extra) = extra).
  { destruct (bool_decide (getLightingMethod s = SingleUBO)); [|reflexivity].
    cbn [andb] in Hfits. unfold truncateToScene.
    change (to_size_t (getMaxLightsInScene - 1)) with (getMaxLightsInScene - 1).
    rewrite Hlen, Hfits. reflexivity. }
  rewrite Hsame. split; [exact Hlen|exact Hvals].
Qed.

End ViewSpaceQueries.

Lemma getLightsInViewSpace_once_per_camera_witness :
  exists bounds s',
    @getLightsInViewSpace TranslationOnly mainCamera (mkVec3 0 0 0) 0 fadeScene
    = Some (bounds, s')
    /\ mLightsInViewSpace s' !! cameraPtr mainCamera = Some bounds.
Proof.
  destruct (@getLightsInViewSpace_once_per_camera TranslationOnly mainCamera
              (mkVec3 0 0 0) 0 fadeScene)
    as (bounds & s' & Hrun & Hcached & _).
  - vm_compute. reflexivity.
  - exists bounds, s'. split; [exact Hrun|exact Hcached].
Defined.

Lemma getLightsInViewSpace_without_fade_witness :
  exists bounds,
    @getLightsInViewSpace TranslationOnly (mkCamera 1 "ReflectionCamera") (mkVec3 0 0 0) 0
                          fadeScene
    = Some (bounds,
            with_mLightsInViewSpace fadeScene
              (<[1%nat := bounds]> (mLightsInViewSpace fadeScene))).
Proof.
  destruct (@getLightsInViewSpace_without_fade TranslationOnly
              (mkCamera 1 "ReflectionCamera") (mkVec3 0 0 0) 0 fadeScene)
    as (bounds & Hrun & _).
  - vm_compute. reflexivity.
  - vm_compute. reflexivity.
  - vm_compute. reflexivity.
  - exists bounds. exact Hrun.
Defined.

(** ** The list that the callback requests *)

Section Requests.
Context `{External}.

Lemma removeCulled_subset (isCulled : BoundingSphere -> bool) (maxLights : Z)
      (rest : LightList) :
  forall (visited : nat) x, x ∈ removeCulled isCulled maxLights visited rest -> x ∈ rest.
Proof.
  induction rest as [|l rest IH]; intros visited x Hx; [exact Hx|].
  cbn [removeCulled] in Hx.
  destruct (maxLights <? Z.of_nat (visited + length (l :: rest))); [|exact Hx].
  destruct (isCulled (doubled (mViewBound l))).
  - apply elem_of_cons. right. eapply IH. exact Hx.
  - apply elem_of_cons in Hx as [->|Hx]; apply elem_of_cons; [left; reflexivity|right].
    eapply IH. exact Hx.
Qed.

Lemma reduceLightList_subset (isCulled : BoundingSphere -> bool) (maxLights : Z)
      (l : LightList) (x : LightSourceViewBound) :
  x ∈ reduceLightList isCulled maxLights l -> x ∈ l.
Proof.
  unfold reduceLightList. intros Hx.
  apply (removeCulled_subset isCulled maxLights l 0).
  destruct (maxLights <? _); [|exact Hx].
  apply subseteq_take in Hx.
  apply list_elem_of_In. eapply Permutation_in; [apply (std_sort_perm significance)|].
  apply list_elem_of_In. exact Hx.
Qed.

Lemma lightsOf_defined (l : LightList) (frameNum : Z) (s : Scene) :
  (forall vb, vb ∈ l -> is_Some (lightSources s !! mLightSource vb)) ->
  exists lights, lightsOf l frameNum s = Some lights /\ length lights = length l.
Proof.
  induction l as [|vb l IH]; intros Hexist.
  - exists []. split; reflexivity.
  - destruct (Hexist vb) as [ls Hls]; [apply elem_of_cons; left; reflexivity|].
    destruct IH as (lights & Hrun & Hlen).
    { intros vb' Hvb'. apply Hexist. apply elem_of_cons. right. exact Hvb'. }
    cbn [lightsOf]. rewrite Hls, Hrun. cbn [mbind option_bind].
    eexists. split; [reflexivity|]. cbn [length]. rewrite Hlen. reflexivity.
Qed.

(** X14. The list that [pushLightState] requests stays within the limits
    of the generators.  When the start light lies between 0 and the light
    cap, [requestedLightList] has at most [maxLights - startLight]
    elements, all of them elements of the list of the callback.  For
    lights that exist, the generator of the fixed-function tier is then
    defined when there are at least [maxLights] dummy attributes (every
    dummy it indexes exists) and the lights it hands to the light state
    end at or before [maxLights]; the generator of the shared-buffer tier
    is defined too ([indices->at] does not throw). *)
Theorem requested_list_within_limits (cv : CullVisitor) (s : Scene) (l : LightList)
        (frameNum : Z) :
  0 <= getStartLight s <= getMaxLights s ->
  getMaxLights s < 2 ^ 64 ->
  isSome (lightIds (lightSources s) l) = true ->
  let requested := requestedLightList cv s l in
  Z.of_nat (length requested) <= getMaxLights s - getStartLight s
  /\ (forall x, x ∈ requested -> x ∈ l)
  /\ (getMaxLights s <= mDummies s ->
      exists lights modes dummies,
        StateSetGeneratorFFP_generate requested frameNum s
        = Some (StateSetFFP (getStartLight s) lights modes dummies, s)
        /\ getStartLight s + Z.of_nat (length lights) <= getMaxLights s)
  /\ exists indices s',
      StateSetGeneratorSingleUBO_generate requested frameNum s
      = Some (StateSetSingleUBO indices (Z.of_nat (length requested)), s').
Proof.
  intros Hstart Hmax Hids requested.
  set (budget := to_size_t (getMaxLights s - getStartLight s)).
  assert (Hbudget : budget = getMaxLights s - getStartLight s).
  { unfold budget, to_size_t. apply Z.mod_small. lia. }
  assert (Hlen : Z.of_nat (length requested) <= budget).
  { unfold requested, requestedLightList. fold budget.
    destruct (budget <? Z.of_nat (length l)) eqn:Hover.
    - apply Z.ltb_lt in Hover. rewrite reduceLightList_length; lia.
    - apply Z.ltb_ge in Hover. exact Hover. }
  assert (Hsub : forall x, x ∈ requested -> x ∈ l).
  { unfold requested, requestedLightList. intros x.
    destruct (_ <? _); [apply reduceLightList_subset|tauto]. }
  assert (Hexist : forall vb, vb ∈ requested ->
                     is_Some (lightSources s !! mLightSource vb)).
  { intros vb Hvb. apply (lightIds_exist _ _ Hids). apply Hsub. exact Hvb. }
  split; [lia|]. split; [exact Hsub|]. split.
  - intros Hdummies. unfold StateSetGeneratorFFP_generate.
    destruct (lightsOf_defined requested frameNum s Hexist) as (lights & Hlights & Hll).
    rewrite Hlights. cbn [mbind option_bind].
    match goal with |- context [forallb ?f ?d] => assert (Hall : forallb f d = true) end.
    { apply forallb_forall. intros k Hk. apply in_map_iff in Hk as (i & <- & Hi).
      apply in_seq in Hi. apply andb_true_iff. split.
      - apply Z.leb_le. lia.
      - apply Z.ltb_lt. lia. }
    rewrite Hall. eexists _, _, _. split; [reflexivity|]. rewrite Hll. lia.
  - unfold StateSetGeneratorSingleUBO_generate.
    destruct (generateIndices_values frameNum (getLightIndexMap s frameNum) requested 0
                (replicate (Z.to_nat (getMaxLights s)) 0) s)
      as (idx & s' & Hrun & _).
    { lia. }
    { rewrite length_replicate. lia. }
    { exact Hexist. }
    { reflexivity. }
    rewrite Hrun. cbn [mbind option_bind]. rewrite Z.add_0_l. eauto.
Qed.

End Requests.

Lemma requested_list_within_limits_witness :
  Z.of_nat (length (@requestedLightList TranslationOnly (exampleCullVisitor false)
                      (newScene smallBudgetSettings) threeLights))
  <= getMaxLights (newScene smallBudgetSettings)
     - getStartLight (newScene smallBudgetSettings).
Proof.
  destruct (@requested_list_within_limits TranslationOnly (exampleCullVisitor false)
              (newScene smallBudgetSettings) threeLights 0) as (Hlen & _).
  - vm_compute. split; discriminate.
  - vm_compute. reflexivity.
  - vm_compute. reflexivity.
  - exact Hlen.
Defined.

(** ** The generator of the per-object tier *)

Section PerObject.
Context `{External}.

Lemma withRadius_idem (frameNum : Z) (ls : LightSource) :
  withRadius frameNum (withRadius frameNum ls) = withRadius frameNum ls.
Proof.
  unfold withRadius, setLight, getLight, get2, set2. destruct ls as [id r fade [l0 l1]].
  cbn. destruct (parity frameNum); reflexivity.
Qed.

Lemma generateLights_radius (frameNum : Z) (l : LightList) :
  forall s : Scene,
  (forall vb, vb ∈ l -> is_Some (lightSources s !! mLightSource vb)) ->
  exists s',
    generateLights l frameNum s
    = Some (map (fun vb => (mLightSource vb, frameNum mod 2)) l, s')
    /\ s' = with_lightSources s (lightSources s')
    /\ forall p,
        lightSources s' !! p
        = if bool_decide (p ∈ map mLightSource l)
          then withRadius frameNum <$> lightSources s !! p
          else lightSources s !! p.
Proof.
  induction l as [|vb l IH]; intros s Hexist.
  - exists s. split; [reflexivity|]. split; [destruct s; reflexivity|].
    intros p. rewrite bool_decide_eq_false_2 by apply not_elem_of_nil. reflexivity.
  - destruct (Hexist vb) as [ls Hls]; [apply elem_of_cons; left; reflexivity|].
    cbn [generateLights]. rewrite Hls. cbn [mbind option_bind].
    fold (withRadius frameNum ls).
    set (s1 := with_lightSources s (<[mLightSource vb := withRadius frameNum ls]>
                                      (lightSources s))).
    destruct (IH s1) as (s' & Hrun & Hscene & Hstore).
    { intros vb' Hvb'. unfold s1. cbn [lightSources with_lightSources].
      destruct (decide (mLightSource vb = mLightSource vb')) as [->|Hne].
      - rewrite lookup_insert_eq. eauto.
      - rewrite lookup_insert_ne by exact Hne. apply Hexist.
        apply elem_of_cons. right. exact Hvb'. }
    rewrite Hrun. cbn [mbind option_bind].
    exists s'. split; [reflexivity|]. split.
    + rewrite Hscene at 1. reflexivity.
    + intros p. rewrite Hstore. unfold s1. cbn [lightSources with_lightSources map].
      destruct (decide (p = mLightSource vb)) as [->|Hne].
      * rewrite lookup_insert_eq, Hls.
        rewrite (bool_decide_eq_true_2 (_ ∈ _ :: _)) by (apply elem_of_cons; auto).
        destruct (bool_decide _); [|reflexivity].
        cbn. rewrite withRadius_idem. reflexivity.
      * rewrite lookup_insert_ne by congruence.
        destruct (decide (p ∈ map mLightSource l)) as [Hin|Hin].
        -- rewrite !bool_decide_eq_true_2; [reflexivity| |exact Hin].
           apply elem_of_cons. right. exact Hin.
        -- rewrite !bool_decide_eq_false_2; [reflexivity| |exact Hin].
           intros Hc. apply elem_of_cons in Hc as [Hc|Hc]; [congruence|auto].
Qed.

(** X15. The generator of the per-object tier.  For a list of lights
    that exist, [StateSetGeneratorPerObjectUniform::generate] is defined;
    the state set holds the lights of the frame of the list, in order,
    and the count of the list plus one (for the sun).  On the way it
    attaches to the light of the frame of each light source of the list
    the radius of that source, which [getLightRadius] then returns, and
    changes nothing else: the other light sources, and the lights of the
    other parity, are as before. *)
Theorem perObjectUniform_generate_radius (l : LightList) (frameNum : Z) (s : Scene) :
  isSome (lightIds (lightSources s) l) = true ->
  exists s',
    StateSetGeneratorPerObjectUniform_generate l frameNum s
    = Some (StateSetPerObjectUniform (map (fun vb => (mLightSource vb, frameNum mod 2)) l)
                                     (to_int (Z.of_nat (length l) + 1)), s')
    /\ s' = with_lightSources s (lightSources s')
    /\ (forall vb, vb ∈ l ->
          exists ls, lightSources s !! mLightSource vb = Some ls
                     /\ lightSources s' !! mLightSource vb = Some (withRadius frameNum ls)
                     /\ getLightRadius (getLight (withRadius frameNum ls) frameNum)
                        = mRadius ls
                     /\ forall g, parity g <> parity frameNum ->
                          getLight (withRadius frameNum ls) g = getLight ls g)
    /\ (forall p, p ∉ map mLightSource l -> lightSources s' !! p = lightSources s !! p).
Proof.
  intros Hids.
  pose proof (lightIds_exist _ _ Hids) as Hexist.
  destruct (generateLights_radius frameNum l s Hexist) as (s' & Hrun & Hscene & Hstore).
  unfold StateSetGeneratorPerObjectUniform_generate. rewrite Hrun.
  cbn [mbind option_bind].
  exists s'. split; [reflexivity|]. split; [exact Hscene|]. split.
  - intros vb Hvb. destruct (Hexist vb Hvb) as [ls Hls].
    exists ls. split; [exact Hls|]. split; [|split].
    + rewrite Hstore, bool_decide_eq_true_2, Hls; [reflexivity|].
      apply list_elem_of_fmap_2. exact Hvb.
    + unfold getLightRadius, withRadius, getLight, setLight. cbn [mLight].
      rewrite get2_set2_same. reflexivity.
    + intros g Hg. unfold withRadius, getLight, setLight. cbn [mLight].
      apply get2_set2_other. exact Hg.
  - intros p Hp. rewrite Hstore, bool_decide_eq_false_2 by exact Hp. reflexivity.
Qed.

End PerObject.

Lemma perObjectUniform_generate_radius_witness :
  exists s',
    @StateSetGeneratorPerObjectUniform_generate TranslationOnly twoLights 0
                                                (newScene noFadeSettings)
    = Some (StateSetPerObjectUniform [(1%nat, 0); (2%nat, 0)] 3, s').
Proof.
  destruct (@perObjectUniform_generate_radius TranslationOnly twoLights 0
              (newScene noFadeSettings)) as (s' & Hrun & _).
  - vm_compute. reflexivity.
  - exists s'. exact Hrun.
Defined.

(** ** The ranges of the settings *)

(** X16. [updateSettings] keeps the settings in range.  Outside the
    fixed-function tier, whatever the configuration holds, afterwards the
    radius multiplier lies between 0 and 5 and the fade end is not
    negative.  When the fade end is positive the fade start is the fade
    end times the "light fade start" fraction clamped to [0, 1], so it
    lies between 0 and the fade end.  When the "maximum light distance"
    is not positive the fade end is 0 and the fade start is not written:
    it keeps the value it had.  No other member changes. *)
Theorem updateSettings_ranges `{External} (cfg : Settings) (s : Scene) :
  getLightingMethod s <> FFP ->
  let s' := updateSettings cfg s in
  (0 <= mPointLightRadiusMultiplier s' <= 5)%Q
  /\ (0 <= mPointLightFadeEnd s')%Q
  /\ ((0 < setting_maximum_light_distance cfg)%Q ->
      (mPointLightFadeEnd s' == setting_maximum_light_distance cfg)%Q
      /\ (mPointLightFadeStart s'
          == mPointLightFadeEnd s' * clampQ (setting_light_fade_start cfg) 0 1)%Q
      /\ (0 <= mPointLightFadeStart s' <= mPointLightFadeEnd s')%Q)
  /\ ((setting_maximum_light_distance cfg <= 0)%Q ->
      (mPointLightFadeEnd s' == 0)%Q
      /\ mPointLightFadeStart s' = mPointLightFadeStart s)
  /\ s' = with_settings s (mPointLightRadiusMultiplier s') (mPointLightFadeEnd s')
                        (mPointLightFadeStart s').
Proof.
  intros Hmethod s'.
  assert (Hmax : forall x, ((0 < x)%Q -> maxQ 0 x = x)
                           /\ ((x <= 0)%Q -> (maxQ 0 x == 0)%Q)).
  { intros x. unfold maxQ. destruct (Qltb 0 x) eqn:E.
    - split; [reflexivity|]. intros Hx. apply Qltb_lt in E.
      exfalso. exact (Qlt_irrefl _ (Qlt_le_trans _ _ _ E Hx)).
    - split; [|reflexivity]. intros Hx. apply Qltb_ge in E.
      exfalso. exact (Qlt_irrefl _ (Qlt_le_trans _ _ _ Hx E)). }
  assert (Hs' : s' = if Qltb 0 (maxQ 0 (setting_maximum_light_distance cfg))
                     then with_settings s
                            (clampQ (setting_light_bounds_multiplier cfg) 0 5)
                            (maxQ 0 (setting_maximum_light_distance cfg))
                            (maxQ 0 (setting_maximum_light_distance cfg)
                             * clampQ (setting_light_fade_start cfg) 0 1)
                     else with_settings s
                            (clampQ (setting_light_bounds_multiplier cfg) 0 5)
                            (maxQ 0 (setting_maximum_light_distance cfg))
                            (mPointLightFadeStart s)).
  { unfold s', updateSettings. rewrite bool_decide_eq_false_2 by exact Hmethod.
    reflexivity. }
  assert (Hmult : (0 <= clampQ (setting_light_bounds_multiplier cfg) 0 5 <= 5)%Q)
    by (apply clampQ_range; discriminate).
  assert (Hfrac : (0 <= clampQ (setting_light_fade_start cfg) 0 1 <= 1)%Q)
    by (apply clampQ_range; discriminate).
  pose proof (maxQ_zero_nonneg (setting_maximum_light_distance cfg)) as Hend.
  destruct (Hmax (setting_maximum_light_distance cfg)) as [Hpos Hneg].
  rewrite Hs'. clear Hs'.
  destruct (Qltb 0 (maxQ 0 (setting_maximum_light_distance cfg))) eqn:E;
    cbn [mPointLightRadiusMultiplier mPointLightFadeEnd mPointLightFadeStart with_settings].
  - apply Qltb_lt in E.
    split; [exact Hmult|]. split; [exact Hend|]. split; [|split].
    + intros Hx. rewrite (Hpos Hx). split; [reflexivity|]. split; [reflexivity|].
      split.
      * apply Qmult_le_0_compat; [apply Qlt_le_weak; exact Hx|apply Hfrac].
      * rewrite <- (Qmult_1_r (setting_maximum_light_distance cfg)) at 2.
        apply Qmult_le_l; [exact Hx|apply Hfrac].
    + intros Hx. exfalso. rewrite (Hneg Hx) in E. exact (Qlt_irrefl _ E).
    + reflexivity.
  - apply Qltb_ge in E.
    split; [exact Hmult|]. split; [exact Hend|]. split; [|split].
    + intros Hx. exfalso. rewrite (Hpos Hx) in E.
      exact (Qlt_irrefl _ (Qlt_le_trans _ _ _ Hx E)).
    + intros Hx. split; [apply Hneg; exact Hx|reflexivity].
    + reflexivity.
Qed.

Lemma updateSettings_ranges_witness :
  (0 <= mPointLightFadeStart (@updateSettings TranslationOnly halfFadeSettings
                                (newScene noFadeSettings))
   <= mPointLightFadeEnd (@updateSettings TranslationOnly halfFadeSettings
                            (newScene noFadeSettings)))%Q.
Proof.
  destruct (@updateSettings_ranges TranslationOnly halfFadeSettings
              (newScene noFadeSettings)) as (_ & _ & Hon & _).
  - vm_compute. discriminate.
  - apply Hon. vm_compute. reflexivity.
Defined.

(** ** The light state of the fixed-function tier *)

Section LightState.

Lemma vector_resize_length {A} (d : A) (l : list A) (n : nat) :
  length (vector_resize d l n) = n.
Proof. unfold vector_resize. rewrite length_app, length_take, length_replicate. lia. Qed.

Lemma vector_resize_same {A} (d : A) (l : list A) :
  vector_resize d l (length l) = l.
Proof.
  unfold vector_resize. rewrite firstn_all, Nat.sub_diag. apply app_nil_r.
Qed.

Lemma getLightStateCache_lookup (contextid size : nat)
      (cv : list (list (option LightPtr))) :
  exists cache,
    getLightStateCache contextid size cv !! contextid = Some cache
    /\ length cache = size
    /\ (contextid < length (getLightStateCache contextid size cv))%nat.
Proof.
  unfold getLightStateCache.
  set (cv1 := if (length cv <? contextid + 1)%nat
              then vector_resize [] cv (contextid + 1) else cv).
  assert (Hlen : (contextid < length cv1)%nat).
  { unfold cv1. destruct (length cv <? contextid + 1)%nat eqn:E.
    - rewrite vector_resize_length. lia.
    - apply Nat.ltb_ge in E. lia. }
  destruct (lookup_lt_is_Some_2 cv1 contextid Hlen) as [c Hc].
  exists (vector_resize None c size). split; [|split].
  - rewrite list_lookup_alter_eq, Hc. reflexivity.
  - apply vector_resize_length.
  - rewrite length_alter. exact Hlen.
Qed.

(** The vector is as [getLightStateCache] leaves it: asking again
    changes nothing. *)
Lemma getLightStateCache_settled (contextid size : nat)
      (cv : list (list (option LightPtr))) (cache : list (option LightPtr)) :
  cv !! contextid = Some cache -> length cache = size ->
  getLightStateCache contextid size cv = cv.
Proof.
  intros Hc Hlen. unfold getLightStateCache.
  pose proof (lookup_lt_Some _ _ _ Hc) as Hlt.
  replace (length cv <? contextid + 1)%nat with false
    by (symmetry; apply Nat.ltb_ge; lia).
  apply list_eq. intros k. destruct (decide (k = contextid)) as [->|Hne].
  - rewrite list_lookup_alter_eq, Hc. cbn. rewrite <- Hlen, vector_resize_same.
    reflexivity.
  - apply list_lookup_alter_ne. congruence.
Qed.

Lemma staleLights_ext (mIndex : Z) (mLights : list LightPtr) :
  forall (i : Z) (c1 c2 : list (option LightPtr)),
  0 <= i + mIndex ->
  (forall k : nat, i + mIndex <= Z.of_nat k -> c1 !! k = c2 !! k) ->
  staleLights mIndex mLights i c1 = staleLights mIndex mLights i c2.
Proof.
  induction mLights as [|light rest IH]; intros i c1 c2 Hi Hsame; [reflexivity|].
  cbn [staleLights]. rewrite (Hsame (Z.to_nat (i + mIndex))) by lia.
  f_equal. apply IH; [lia|]. intros k Hk. apply Hsame. lia.
Qed.

(** The loop sends the lights whose slot held another light when the
    loop began, in order, and records every light in its slot. *)
Lemma applyLights_spec (mIndex : Z) (mLights : list LightPtr) :
  forall (i : Z) (cache : list (option LightPtr)) (calls : list GLCall),
  0 <= i -> 0 <= mIndex ->
  i + mIndex + Z.of_nat (length mLights) <= Z.of_nat (length cache) ->
  Z.of_nat (length cache) <= 2 ^ 16 ->
  exists cache',
    applyLights mIndex mLights i cache calls
    = Some (cache', calls ++ staleLights mIndex mLights i cache)
    /\ length cache' = length cache
    /\ (forall (j : nat) light, mLights !! j = Some light ->
          cache' !! (Z.to_nat (i + mIndex) + j)%nat = Some (Some light))
    /\ (forall k : nat,
          Z.of_nat k < i + mIndex
          \/ i + mIndex + Z.of_nat (length mLights) <= Z.of_nat k ->
          cache' !! k = cache !! k).
Proof.
  induction mLights as [|light rest IH]; intros i cache calls Hi Hm Hfit Hsmall.
  - exists cache. cbn [applyLights staleLights]. rewrite app_nil_r.
    split; [reflexivity|]. split; [reflexivity|]. split; [|reflexivity].
    intros j light Hj. rewrite lookup_nil in Hj. discriminate.
  - cbn [length] in Hfit. cbn [applyLights staleLights].
    assert (Hslot : to_size_t (i + mIndex) = i + mIndex)
      by (unfold to_size_t; apply Z.mod_small; lia).
    assert (Hnum : to_unsigned (to_size_t (to_size_t (GL_LIGHT0 + i) + mIndex))
                   = GL_LIGHT0 + i + mIndex).
    { assert (H1 : to_size_t (GL_LIGHT0 + i) = GL_LIGHT0 + i)
        by (unfold to_size_t, GL_LIGHT0; apply Z.mod_small; lia).
      rewrite H1.
      assert (H2 : to_size_t (GL_LIGHT0 + i + mIndex) = GL_LIGHT0 + i + mIndex)
        by (unfold to_size_t, GL_LIGHT0; apply Z.mod_small; lia).
      rewrite H2. unfold to_unsigned, GL_LIGHT0. apply Z.mod_small. lia. }
    rewrite Hslot, Hnum.
    destruct (lookup_lt_is_Some_2 cache (Z.to_nat (i + mIndex))) as [current Hcur];
      [lia|].
    rewrite Hcur. cbn [mbind option_bind].
    destruct (decide (current = Some light)) as [->|Hne].
    + rewrite bool_decide_eq_false_2 by (intros Hc; apply Hc; reflexivity).
      rewrite bool_decide_eq_true_2 by reflexivity. cbn [app].
      destruct (IH (i + 1) cache calls) as (cache' & Hrun & Hlen & Hvals & Hout);
        try lia.
      exists cache'. split; [exact Hrun|]. split; [exact Hlen|]. split.
      * intros [|j] light' Hj.
        -- cbn in Hj. injection Hj as <-. rewrite Nat.add_0_r, Hout by lia.
           exact Hcur.
        -- cbn in Hj.
           replace (Z.to_nat (i + mIndex) + S j)%nat
             with (Z.to_nat (i + 1 + mIndex) + j)%nat by lia.
           apply Hvals. exact Hj.
      * intros k Hk. cbn [length] in Hk. apply Hout. lia.
    + rewrite bool_decide_eq_true_2 by exact Hne.
      rewrite bool_decide_eq_false_2 by congruence.
      destruct (IH (i + 1) (<[Z.to_nat (i + mIndex) := Some light]> cache)
                   (calls ++ [ApplyLight (GL_LIGHT0 + i + mIndex) light]))
        as (cache' & Hrun & Hlen & Hvals & Hout);
        try (rewrite ?length_insert; lia).
      exists cache'. rewrite <- app_assoc in Hrun.
      rewrite (staleLights_ext mIndex rest (i + 1) _ cache) in Hrun.
      2: lia.
      2: { intros k Hk. apply list_lookup_insert_ne. lia. }
      split; [exact Hrun|]. split; [rewrite Hlen; apply length_insert|]. split.
      * intros [|j] light' Hj.
        -- cbn in Hj. injection Hj as <-. rewrite Nat.add_0_r, Hout by lia.
           apply list_lookup_insert_eq. lia.
        -- cbn in Hj.
           replace (Z.to_nat (i + mIndex) + S j)%nat
             with (Z.to_nat (i + 1 + mIndex) + j)%nat by lia.
           apply Hvals. exact Hj.
      * intros k Hk. cbn [length] in Hk. rewrite Hout by lia.
        apply list_lookup_insert_ne. lia.
Qed.

Lemma staleLights_none (mIndex : Z) (mLights : list LightPtr) :
  forall (i : Z) (cache : list (option LightPtr)),
  0 <= i + mIndex ->
  (forall (j : nat) light, mLights !! j = Some light ->
     cache !! (Z.to_nat (i + mIndex) + j)%nat = Some (Some light)) ->
  staleLights mIndex mLights i cache = [].
Proof.
  induction mLights as [|light rest IH]; intros i cache Hi Hall; [reflexivity|].
  cbn [staleLights].
  rewrite bool_decide_eq_true_2.
  - cbn [app]. apply IH; [lia|]. intros j light' Hj.
    replace (Z.to_nat (i + 1 + mIndex) + j)%nat
      with (Z.to_nat (i + mIndex) + S j)%nat by lia.
    apply Hall. exact Hj.
  - specialize (Hall 0%nat light eq_refl). rewrite Nat.add_0_r in Hall. exact Hall.
Qed.

(** When the slot of one light was emptied and the other slots hold
    their lights, that light alone is stale. *)
Lemma staleLights_one (mIndex : Z) (mLights : list LightPtr) :
  forall (i : Z) (cache : list (option LightPtr)) (n : nat) (light : LightPtr),
  0 <= i + mIndex ->
  mLights !! n = Some light ->
  (forall (j : nat) light', mLights !! j = Some light' ->
     cache !! (Z.to_nat (i + mIndex) + j)%nat = Some (Some light')) ->
  staleLights mIndex mLights i
              (<[(Z.to_nat (i + mIndex) + n)%nat := None]> cache)
  = [ApplyLight (GL_LIGHT0 + i + mIndex + Z.of_nat n) light].
Proof.
  induction mLights as [|light0 rest IH]; intros i cache n light Hi Hn Hall.
  - rewrite lookup_nil in Hn. discriminate.
  - cbn [staleLights].
    pose proof (Hall 0%nat light0 eq_refl) as H0. rewrite Nat.add_0_r in H0.
    pose proof (lookup_lt_Some _ _ _ H0) as Hlt0.
    destruct n as [|n].
    + cbn in Hn. injection Hn as ->. rewrite Nat.add_0_r.
      rewrite bool_decide_eq_false_2
        by (rewrite list_lookup_insert_eq by exact Hlt0; discriminate).
      rewrite (staleLights_ext mIndex rest (i + 1) _ cache).
      * rewrite staleLights_none.
        -- cbn [app]. do 2 f_equal. lia.
        -- lia.
        -- intros j light' Hj.
           replace (Z.to_nat (i + 1 + mIndex) + j)%nat
             with (Z.to_nat (i + mIndex) + S j)%nat by lia.
           apply Hall. exact Hj.
      * lia.
      * intros k Hk. apply list_lookup_insert_ne. lia.
    + cbn in Hn.
      rewrite bool_decide_eq_true_2
        by (rewrite list_lookup_insert_ne by lia; exact H0).
      cbn [app].
      replace (Z.to_nat (i + mIndex) + S n)%nat
        with (Z.to_nat (i + 1 + mIndex) + n)%nat by lia.
      rewrite (IH (i + 1) cache n light); [do 2 f_equal; lia|lia|exact Hn|].
      intros j light' Hj.
      replace (Z.to_nat (i + 1 + mIndex) + j)%nat
        with (Z.to_nat (i + mIndex) + S j)%nat by lia.
      apply Hall. exact Hj.
Qed.


Lemma applyLights_overflow (mIndex : Z) (mLights : list LightPtr) :
  forall (i : Z) (cache : list (option LightPtr)) (calls : list GLCall),
  0 <= i -> 0 <= mIndex ->
  i + mIndex <= Z.of_nat (length cache) ->
  Z.of_nat (length cache) < i + mIndex + Z.of_nat (length mLights) ->
  Z.of_nat (length cache) < 2 ^ 64 ->
  applyLights mIndex mLights i cache calls = None.
Proof.
  induction mLights as [|light rest IH]; intros i cache calls Hi Hm Hle Hover Hsmall.
  - cbn [length] in Hover. lia.
  - cbn [length] in Hover. cbn [applyLights].
    destruct (decide (i + mIndex = Z.of_nat (length cache))) as [Heq|Hne].
    + assert (Hslot : to_size_t (i + mIndex) = i + mIndex)
        by (unfold to_size_t; apply Z.mod_small; lia).
      rewrite Hslot, lookup_ge_None_2 by lia. reflexivity.
    + assert (Hslot : to_size_t (i + mIndex) = i + mIndex)
        by (unfold to_size_t; apply Z.mod_small; lia).
      rewrite Hslot.
      destruct (cache !! Z.to_nat (i + mIndex)) as [current|]; [|reflexivity].
      cbn [mbind option_bind].
      destruct (bool_decide (current ≠ Some light)); apply IH;
        rewrite ?length_insert; lia.
Qed.

(** [FFPLightStateAttribute::apply] on lights that fit the cache. *)
Lemma FFP_apply_spec (mIndex : Z) (mLights : list LightPtr) (contextid : nat)
      (st : GLState) :
  mLights <> [] -> 0 <= mIndex -> mIndex + Z.of_nat (length mLights) <= 8 ->
  exists cache',
    FFPLightStateAttribute_apply mIndex mLights contextid st
    = Some (mkGLState
              (<[contextid := cache']> (getLightStateCache contextid 8 (cacheVector st)))
              (glCalls st ++ [ApplyInitialViewMatrix]
               ++ staleLights mIndex mLights 0 (lastAppliedLight st contextid)
               ++ [RestoreModelViewMatrix]))
    /\ length cache' = 8%nat
    /\ getLightStateCache contextid 8
         (<[contextid := cache']> (getLightStateCache contextid 8 (cacheVector st)))
       = <[contextid := cache']> (getLightStateCache contextid 8 (cacheVector st))
    /\ (<[contextid := cache']> (getLightStateCache contextid 8 (cacheVector st)))
         !! contextid = Some cache'
    /\ (forall (j : nat) light, mLights !! j = Some light ->
          cache' !! (Z.to_nat mIndex + j)%nat = Some (Some light))
    /\ (forall k : nat,
          Z.of_nat k < mIndex \/ mIndex + Z.of_nat (length mLights) <= Z.of_nat k ->
          cache' !! k = lastAppliedLight st contextid !! k).
Proof.
  intros Hne Hm Hfit.
  destruct (getLightStateCache_lookup contextid 8 (cacheVector st))
    as (cache & Hcache & Hlen & Hctx).
  assert (Hlast : lastAppliedLight st contextid = cache).
  { unfold lastAppliedLight. rewrite Hcache. reflexivity. }
  destruct (applyLights_spec mIndex mLights 0 cache
              (glCalls st ++ [ApplyInitialViewMatrix]))
    as (cache' & Hrun & Hlen' & Hvals & Hout); try lia.
  exists cache'. rewrite Hlast.
  assert (Hlookup : (<[contextid := cache']>
                       (getLightStateCache contextid 8 (cacheVector st)))
                      !! contextid = Some cache').
  { apply list_lookup_insert_eq. exact Hctx. }
  split; [|split; [|split; [|split; [|split]]]].
  - unfold FFPLightStateAttribute_apply.
    destruct mLights as [|light rest]; [congruence|].
    rewrite Hcache. cbn [mbind option_bind]. rewrite Hrun. cbn [mbind option_bind].
    rewrite <- !app_assoc. reflexivity.
  - lia.
  - apply (getLightStateCache_settled _ _ _ cache'); [exact Hlookup|lia].
  - exact Hlookup.
  - intros j light Hj. specialize (Hvals j light Hj).
    replace (Z.to_nat (0 + mIndex)) with (Z.to_nat mIndex) in Hvals by lia.
    exact Hvals.
  - intros k Hk. apply Hout. lia.
Qed.

(** X17. [FFPLightStateAttribute::apply] tracks what each light slot
    holds.  For a non-empty list of lights the call is defined exactly
    when the lights fit the eight slots of the cache from [mIndex] on
    (otherwise [lastAppliedLight] is read past its end).  When it is
    defined, the calls issued are [applyModelViewMatrix] with the initial
    view matrix, [applyLight] on [GL_LIGHT0 + mIndex + i] for each light
    [i] whose slot held another light or none, in order, and
    [applyModelViewMatrix] with the saved matrix; afterwards every light
    is recorded in its slot and the other slots are as before.  Applying
    the attribute again sends no light: only the two matrix calls are
    issued and the cache does not change. *)
Theorem FFP_apply_sends_stale_lights (mIndex : Z) (mLights : list LightPtr)
        (contextid : nat) (st : GLState) :
  mLights <> [] ->
  0 <= mIndex ->
  mIndex + Z.of_nat (length mLights) < 2 ^ 64 ->
  if mIndex + Z.of_nat (length mLights) <=? 8
  then
    exists st',
      FFPLightStateAttribute_apply mIndex mLights contextid st = Some st'
      /\ glCalls st'
         = glCalls st ++ [ApplyInitialViewMatrix]
           ++ staleLights mIndex mLights 0 (lastAppliedLight st contextid)
           ++ [RestoreModelViewMatrix]
      /\ (forall (j : nat) light, mLights !! j = Some light ->
            lastAppliedLight st' contextid !! (Z.to_nat mIndex + j)%nat
            = Some (Some light))
      /\ (forall k : nat,
            Z.of_nat k < mIndex \/ mIndex + Z.of_nat (length mLights) <= Z.of_nat k ->
            lastAppliedLight st' contextid !! k = lastAppliedLight st contextid !! k)
      /\ FFPLightStateAttribute_apply mIndex mLights contextid st'
         = Some (mkGLState (cacheVector st')
                           (glCalls st' ++ [ApplyInitialViewMatrix;
                                            RestoreModelViewMatrix]))
  else FFPLightStateAttribute_apply mIndex mLights contextid st = None.
Proof.
  intros Hne Hm Hsmall.
  destruct (mIndex + Z.of_nat (length mLights) <=? 8) eqn:Hfit.
  - apply Z.leb_le in Hfit.
    destruct (FFP_apply_spec mIndex mLights contextid st Hne Hm Hfit)
      as (cache' & Hrun & Hlen & Hsettled & Hlookup & Hvals & Hout).
    eexists. split; [exact Hrun|].
    assert (Hlast : lastAppliedLight
                      (mkGLState
                         (<[contextid := cache']>
                            (getLightStateCache contextid 8 (cacheVector st)))
                         (glCalls st ++ [ApplyInitialViewMatrix]
                          ++ staleLights mIndex mLights 0 (lastAppliedLight st contextid)
                          ++ [RestoreModelViewMatrix])) contextid = cache').
    { unfold lastAppliedLight. cbn [cacheVector]. rewrite Hsettled, Hlookup.
      reflexivity. }
    rewrite Hlast. cbn [glCalls cacheVector].
    split; [reflexivity|]. split; [exact Hvals|]. split; [exact Hout|].
    match goal with
    | |- FFPLightStateAttribute_apply _ _ _ ?st1 = _ =>
        destruct (FFP_apply_spec mIndex mLights contextid st1 Hne Hm Hfit)
          as (cache2 & Hrun2 & Hlen2 & _ & _ & Hvals2 & Hout2)
    end.
    rewrite Hrun2. rewrite Hlast in Hout2 |- *. cbn [glCalls cacheVector].
    rewrite Hsettled.
    rewrite (staleLights_none mIndex mLights 0 cache') by (try lia; exact Hvals).
    cbn [app].
    assert (Hsame : cache2 = cache').
    { apply list_eq. intros k.
      destruct (decide (Z.of_nat k < mIndex
                        \/ mIndex + Z.of_nat (length mLights) <= Z.of_nat k)) as [Hk|Hk].
      - apply Hout2. exact Hk.
      - destruct (lookup_lt_is_Some_2 mLights (k - Z.to_nat mIndex)) as [light Hl];
          [lia|].
        pose proof (Hvals2 _ _ Hl) as H2. pose proof (Hvals _ _ Hl) as H1.
        replace (Z.to_nat mIndex + (k - Z.to_nat mIndex))%nat with k in H1, H2 by lia.
        congruence. }
    rewrite Hsame, list_insert_insert_eq. reflexivity.
  - apply Z.leb_gt in Hfit.
    unfold FFPLightStateAttribute_apply.
    destruct mLights as [|light rest] eqn:Hl; [congruence|]. rewrite <- Hl in *.
    destruct (getLightStateCache_lookup contextid 8 (cacheVector st))
      as (cache & Hcache & Hlen & Hctx).
    rewrite Hcache. cbn [mbind option_bind].
    destruct (decide (mIndex <= 8)) as [Hle|Hgt].
    + rewrite applyLights_overflow; [reflexivity|lia|lia|lia|lia|lia].
    + rewrite Hl. cbn [applyLights].
      assert (Hslot : to_size_t (0 + mIndex) = mIndex).
      { unfold to_size_t. apply Z.mod_small. rewrite Hl in Hsmall. cbn [length] in Hsmall.
        lia. }
      rewrite Hslot, lookup_ge_None_2 by lia. reflexivity.
Qed.

(** X18. A slot that [DisableLight] reset is sent again, and no other.
    After the attribute was applied, [DisableLight::apply] for the slot of
    one of its lights issues the null colours for that slot and empties
    it in the cache; the next apply of the attribute then sends that one
    light, on [GL_LIGHT0 + mIndex + n], between the two matrix calls. *)
Theorem DisableLight_resends (mIndex : Z) (mLights : list LightPtr) (contextid : nat)
        (st : GLState) (n : nat) (light : LightPtr) :
  0 <= mIndex ->
  mIndex + Z.of_nat (length mLights) <= 8 ->
  mLights !! n = Some light ->
  exists st1 st2 st3,
    FFPLightStateAttribute_apply mIndex mLights contextid st = Some st1
    /\ DisableLight_apply (mIndex + Z.of_nat n) contextid st1 = Some st2
    /\ FFPLightStateAttribute_apply mIndex mLights contextid st2 = Some st3
    /\ lastAppliedLight st2 contextid !! (Z.to_nat mIndex + n)%nat = Some None
    /\ glCalls st3
       = glCalls st1
         ++ [NullLight (GL_LIGHT0 + mIndex + Z.of_nat n);
             ApplyInitialViewMatrix;
             ApplyLight (GL_LIGHT0 + mIndex + Z.of_nat n) light;
             RestoreModelViewMatrix].
Proof.
  intros Hm Hfit Hn.
  assert (Hne : mLights <> []) by (intros ->; rewrite lookup_nil in Hn; discriminate).
  pose proof (lookup_lt_Some _ _ _ Hn) as Hnlt.
  destruct (FFP_apply_spec mIndex mLights contextid st Hne Hm Hfit)
    as (cache1 & Hrun1 & Hlen1 & Hsettled1 & Hlookup1 & Hvals1 & _).
  set (cv1 := <[contextid := cache1]> (getLightStateCache contextid 8 (cacheVector st)))
    in *.
  set (st1 := mkGLState cv1 _) in Hrun1.
  set (cache2 := <[(Z.to_nat mIndex + n)%nat := None]> cache1).
  set (st2 := mkGLState (<[contextid := cache2]> cv1)
                        (glCalls st1 ++ [NullLight (GL_LIGHT0 + mIndex + Z.of_nat n)])).
  assert (Hctx : (contextid < length cv1)%nat) by (eapply lookup_lt_Some; exact Hlookup1).
  assert (Hdis : DisableLight_apply (mIndex + Z.of_nat n) contextid st1 = Some st2).
  { unfold DisableLight_apply. cbn [cacheVector glCalls st1].
    rewrite Hsettled1, Hlookup1. cbn [mbind option_bind].
    replace (Z.to_nat (mIndex + Z.of_nat n) <? length cache1)%nat with true
      by (symmetry; apply Nat.ltb_lt; lia).
    assert (Hnum : to_int (to_size_t (GL_LIGHT0 + (mIndex + Z.of_nat n)))
                   = GL_LIGHT0 + mIndex + Z.of_nat n).
    { assert (H1 : to_size_t (GL_LIGHT0 + (mIndex + Z.of_nat n))
                   = GL_LIGHT0 + mIndex + Z.of_nat n)
        by (unfold to_size_t, GL_LIGHT0; rewrite Z.mod_small; lia).
      rewrite H1. apply to_int_small. unfold GL_LIGHT0. lia. }
    rewrite Hnum.
    replace (Z.to_nat (mIndex + Z.of_nat n)) with (Z.to_nat mIndex + n)%nat by lia.
    reflexivity. }
  assert (Hlookup2 : (<[contextid := cache2]> cv1) !! contextid = Some cache2)
    by (apply list_lookup_insert_eq; exact Hctx).
  assert (Hlen2 : length cache2 = 8%nat)
    by (unfold cache2; rewrite length_insert; exact Hlen1).
  assert (Hlast2 : lastAppliedLight st2 contextid = cache2).
  { unfold lastAppliedLight. cbn [cacheVector st2].
    rewrite (getLightStateCache_settled _ _ _ cache2 Hlookup2 Hlen2), Hlookup2.
    reflexivity. }
  destruct (FFP_apply_spec mIndex mLights contextid st2 Hne Hm Hfit)
    as (cache3 & Hrun3 & _).
  eexists st1, st2, _. split; [exact Hrun1|]. split; [exact Hdis|].
  split; [exact Hrun3|]. split.
  - rewrite Hlast2. unfold cache2. apply list_lookup_insert_eq. lia.
  - cbn [glCalls]. rewrite Hlast2. unfold cache2.
    replace (Z.to_nat mIndex + n)%nat with (Z.to_nat (0 + mIndex) + n)%nat by lia.
    rewrite (staleLights_one mIndex mLights 0 cache1 n light); [|lia|exact Hn|].
    + cbn [st2 glCalls]. rewrite <- !app_assoc. cbn [app].
      replace (GL_LIGHT0 + 0 + mIndex + Z.of_nat n)
        with (GL_LIGHT0 + mIndex + Z.of_nat n) by lia.
      reflexivity.
    + intros j light' Hj.
      replace (Z.to_nat (0 + mIndex)) with (Z.to_nat mIndex) by lia.
      apply Hvals1. exact Hj.
Qed.

End LightState.

Lemma FFP_apply_sends_stale_lights_witness :
  exists st',
    FFPLightStateAttribute_apply 1 [(1%nat, 0); (2%nat, 0)] 0 (mkGLState [] []) = Some st'
    /\ glCalls st' = [ApplyInitialViewMatrix; ApplyLight 16385 (1%nat, 0);
                      ApplyLight 16386 (2%nat, 0); RestoreModelViewMatrix].
Proof.
  pose proof (FFP_apply_sends_stale_lights 1 [(1%nat, 0); (2%nat, 0)] 0
                (mkGLState [] [])) as Happly.
  cbn [Z.leb length Z.of_nat] in Happly.
  destruct Happly as (st' & Hrun & Hcalls & _).
  - discriminate.
  - lia.
  - vm_compute. reflexivity.
  - exists st'. split; [exact Hrun|]. rewrite Hcalls. vm_compute. reflexivity.
Defined.

Lemma DisableLight_resends_witness :
  exists st1 st2 st3,
    FFPLightStateAttribute_apply 1 [(1%nat, 0); (2%nat, 0)] 0 (mkGLState [] []) = Some st1
    /\ DisableLight_apply 2 0 st1 = Some st2
    /\ FFPLightStateAttribute_apply 1 [(1%nat, 0); (2%nat, 0)] 0 st2 = Some st3
    /\ glCalls st3
       = glCalls st1 ++ [NullLight 16386; ApplyInitialViewMatrix;
                         ApplyLight 16386 (2%nat, 0); RestoreModelViewMatrix].
Proof.
  destruct (DisableLight_resends 1 [(1%nat, 0); (2%nat, 0)] 0 (mkGLState [] []) 1
              (2%nat, 0)) as (st1 & st2 & st3 & H1 & H2 & H3 & _ & Hcalls).
  - lia.
  - vm_compute. discriminate.
  - reflexivity.
  - exists st1, st2, st3. split; [exact H1|]. split; [exact H2|]. split; [exact H3|].
    exact Hcalls.
Defined.


(** ** The slots and the buffers in every reachable state *)

Section Reachable.
Context `{External}.
Import LightBuffer.













End Reachable.



(** ** The tier that the constructor selects *)

Lemma getLightingMethodFromString_method (value : string) :
  (getLightingMethodFromString value).1
  = if bool_decide (value = "shaders") then SingleUBO
    else if bool_decide (value = "legacy") then FFP
         else PerObjectUniform.
Proof.
  destruct (decide (value = "shaders")) as [->|H1]; [vm_compute; reflexivity|].
  destruct (decide (value = "legacy")) as [->|H2]; [vm_compute; reflexivity|].
  rewrite !bool_decide_eq_false_2 by assumption.
  destruct (decide (value = "shaders compatibility")) as [->|H3];
    [vm_compute; reflexivity|].
  unfold getLightingMethodFromString, mLightingMethodSettingMap.
  rewrite !lookup_insert_ne, lookup_empty by congruence. reflexivity.
Qed.

(** X20. The tier of a new manager.  [LightManager(true)] is in the
    fixed-function tier with [mFFPMaxLights] lights and as many dummies,
    whatever the settings say, and logs nothing.  [LightManager(false)]
    is in the per-object tier when the uniform-buffer or the gpu-shader4
    extension is missing or the "lighting method" setting names neither
    "shaders" nor "legacy" (an unknown name included); otherwise it is in
    the shared-buffer tier, also when the setting is "legacy".  Its light
    cap is the "max lights" setting clamped to the limits of the manager.
    A new manager holds no registered light, no cached state set and no
    slot, and its start light is 0. *)
Theorem LightManager_new_tier `{External}
        (ffp supportsUBO supportsGPU4 hasLoggedWarnings : bool) (cfg : Settings)
        (endian : LightBuffer.Endian) (store : gmap LightSourcePtr LightSource) :
  let s := fst (LightManager_new ffp supportsUBO supportsGPU4 hasLoggedWarnings
                                 cfg endian store) in
  let log := snd (LightManager_new ffp supportsUBO supportsGPU4 hasLoggedWarnings
                                   cfg endian store) in
  getLightingMethod s
  = (if ffp then FFP
     else if supportsUBO && supportsGPU4
             && (bool_decide (setting_lighting_method cfg = "shaders")
                 || bool_decide (setting_lighting_method cfg = "legacy"))
          then SingleUBO else PerObjectUniform)
  /\ getMaxLights s
     = (if ffp then mFFPMaxLights
        else clampZ (setting_max_lights cfg) mMaxLightsLowerLimit mMaxLightsUpperLimit)
  /\ mDummies s = (if ffp then mFFPMaxLights else 0)
  /\ (if ffp then log = [] else True)
  /\ mLights s = []
  /\ mStateSetCache s = (∅, ∅)
  /\ mLightIndexMaps s = (∅, ∅)
  /\ getStartLight s = 0.
Proof.
  intros s log. unfold s, log, LightManager_new. clear s log.
  destruct ffp.
  - cbn. repeat split; reflexivity.
  - pose proof (getLightingMethodFromString_method (setting_lighting_method cfg))
      as Hmethod.
    destruct (getLightingMethodFromString (setting_lighting_method cfg))
      as [method log0].
    cbn [fst snd] in *.
    assert (Hkeep : forall s1,
               getLightingMethod (updateSettings cfg s1) = getLightingMethod s1
               /\ getMaxLights (updateSettings cfg s1) = getMaxLights s1
               /\ mDummies (updateSettings cfg s1) = mDummies s1
               /\ mLights (updateSettings cfg s1) = mLights s1
               /\ mStateSetCache (updateSettings cfg s1) = mStateSetCache s1
               /\ mLightIndexMaps (updateSettings cfg s1) = mLightIndexMaps s1
               /\ getStartLight (updateSettings cfg s1) = getStartLight s1).
    { intros s1. unfold updateSettings.
      destruct (bool_decide (getLightingMethod s1 = FFP)); [repeat split; reflexivity|].
      destruct (Qltb 0 (maxQ 0 (setting_maximum_light_distance cfg)));
        repeat split; reflexivity. }
    match goal with
    | |- context [updateSettings cfg ?s1] =>
        destruct (Hkeep s1) as (-> & -> & -> & -> & -> & -> & ->)
    end.
    subst method.
    destruct supportsUBO, supportsGPU4;
      destruct (bool_decide (setting_lighting_method cfg = "shaders"));
      destruct (bool_decide (setting_lighting_method cfg = "legacy"));
      cbn; repeat split; reflexivity.
Qed.


(** ** The lights that a node callback passes on *)

Lemma requestedLightList_subset `{External} (cv : CullVisitor) (s : Scene) (l : LightList)
      (x : LightSourceViewBound) :
  x ∈ requestedLightList cv s l -> x ∈ l.
Proof.
  unfold requestedLightList.
  destruct (_ <? _); [apply reduceLightList_subset|tauto].
Qed.

(** X21. At a new traversal number the callback rebuilds its list and
    passes on no ignored light.  When a light manager is known, the
    traversal mask meets the lighting mask and the traversal number
    differs from the one of the last call, a call of [pushLightState]
    that is defined queries [getLightsInViewSpace] for the current camera
    with the initial view matrix, records the traversal number, and keeps
    as [mLightList] exactly the lights returned whose source is not among
    the ignored ones and whose bound intersects the bound of the node in
    view space.  No state set is pushed when that list is empty;
    otherwise the state set pushed is the one of
    [getLightListStateSet] for the requested list, every light of which
    is one of [mLightList]: not ignored, and intersecting the node. *)
Theorem pushLightState_rebuilds_list `{External} (cb : LightListCallback)
        (cv : CullVisitor) (s : Scene) :
  let nodeBound := transformBoundingSphere (cv_modelViewMatrix cv) (cv_nodeBound cv) in
  mLightManager cb || cv_findLightManager cv = true ->
  Z.land (cv_traversalMask cv) (mLightingMask s) <> 0 ->
  mLastFrameNumber cb <> cv_traversalNumber cv ->
  isSome (pushLightState cb cv s) = true ->
  exists pushed cb' s' lights s1,
    pushLightState cb cv s = Some (pushed, cb', s')
    /\ getLightsInViewSpace (cv_currentCamera cv) (cv_initialViewMatrix cv)
                            (cv_traversalNumber cv) s = Some (lights, s1)
    /\ mLastFrameNumber cb' = cv_traversalNumber cv
    /\ mIgnoredLightSources cb' = mIgnoredLightSources cb
    /\ (forall l, l ∈ mLightList cb' <->
                  l ∈ lights
                  /\ (mLightSource l ∉ mIgnoredLightSources cb)
                  /\ intersects (mViewBound l) nodeBound = true)
    /\ (forall l, l ∈ requestedLightList cv s1 (mLightList cb') ->
          (mLightSource l ∉ mIgnoredLightSources cb)
          /\ intersects (mViewBound l) nodeBound = true)
    /\ match pushed with
       | None => mLightList cb' = [] /\ s' = s1
       | Some stateset =>
           mLightList cb' <> []
           /\ getLightListStateSet (requestedLightList cv s1 (mLightList cb'))
                                   (cv_traversalNumber cv) (cv_initialViewMatrix cv) s1
              = Some (stateset, s')
       end.
Proof.
  intros nodeBound Hfound Hmask Hframe Hdef.
  unfold pushLightState in *. rewrite Hfound in *. cbn [negb] in *.
  replace (Z.land (cv_traversalMask cv) (mLightingMask s) =? 0) with false in *
    by (symmetry; apply Z.eqb_neq; exact Hmask).
  cbn [mLastFrameNumber mLightList mIgnoredLightSources] in *.
  rewrite bool_decide_eq_true_2 in * by exact Hframe.
  destruct (getLightsInViewSpace (cv_currentCamera cv) (cv_initialViewMatrix cv)
              (cv_traversalNumber cv) s) as [[lights s1]|] eqn:Hview; [|discriminate].
  cbn [mbind option_bind mLightList] in *. fold nodeBound in Hdef |- *.
  set (cb0 := mkLightListCallback true (mLastFrameNumber cb) (mLightList cb)
                                  (mIgnoredLightSources cb)) in *.
  set (kept := intersectingLights cb0 nodeBound lights) in *.
  assert (Hkept : forall l, l ∈ kept <->
                    l ∈ lights
                    /\ (mLightSource l ∉ mIgnoredLightSources cb)
                    /\ intersects (mViewBound l) nodeBound = true).
  { intros l. unfold kept, intersectingLights. rewrite list_elem_of_filter.
    cbn [mIgnoredLightSources cb0]. tauto. }
  assert (Hreq : forall l, l ∈ requestedLightList cv s1 kept ->
                   (mLightSource l ∉ mIgnoredLightSources cb)
                   /\ intersects (mViewBound l) nodeBound = true).
  { intros l Hl. apply requestedLightList_subset in Hl. apply Hkept in Hl. tauto. }
  destruct kept as [|l0 kept'] eqn:Hlist.
  - eexists None, _, s1, lights, s1. split; [reflexivity|]. split; [reflexivity|].
    cbn [mLastFrameNumber mIgnoredLightSources mLightList].
    split; [reflexivity|]. split; [reflexivity|]. split; [exact Hkept|].
    split; [exact Hreq|]. split; reflexivity.
  - rewrite <- Hlist in *.
    destruct (getLightListStateSet (requestedLightList cv s1 kept) _ _ s1)
      as [[stateset s2]|] eqn:Hget; [|discriminate].
    cbn [mbind option_bind].
    eexists (Some stateset), _, s2, lights, s1. split; [reflexivity|].
    split; [reflexivity|].
    cbn [mLastFrameNumber mIgnoredLightSources mLightList].
    split; [reflexivity|]. split; [reflexivity|]. split; [exact Hkept|].
    split; [exact Hreq|]. split; [rewrite Hlist; discriminate|exact Hget].
Qed.

Lemma pushLightState_rebuilds_list_witness :
  exists pushed cb' s',
    @pushLightState TranslationOnly (mkLightListCallback true 7 [] {[2%nat]})
                    (exampleCullVisitor false) fadeScene
    = Some (pushed, cb', s')
    /\ mLastFrameNumber cb' = 0.
Proof.
  destruct (@pushLightState_rebuilds_list TranslationOnly
              (mkLightListCallback true 7 [] {[2%nat]}) (exampleCullVisitor false)
              fadeScene)
    as (pushed & cb' & s' & lights & s1 & Hrun & _ & Hframe & _).
  - reflexivity.
  - vm_compute. discriminate.
  - vm_compute. discriminate.
  - vm_compute. reflexivity.
  - exists pushed, cb', s'. split; [exact Hrun|exact Hframe].
Defined.

(** ** The default light state of the fixed-function tier *)

(** X22. [setStartLight] resets the light slots from the start light on.
    The call records the start light.  In the fixed-function tier, with
    a start light that is not negative and a light cap of at most 8, it
    sets a [DisableLight] attribute for each index from [start] to
    [maxLights - 1] and no other; each of them applies within the cache
    of the context: it issues the null colours on [GL_LIGHT0] plus its
    index and empties that slot.  In the other tiers it sets none. *)
Theorem setStartLight_disables `{External} (start : Z) (s : Scene) :
  0 <= start ->
  getMaxLights s <= 8 ->
  let s' := (setStartLight start s).1 in
  let disabled := (setStartLight start s).2 in
  getStartLight s' = start
  /\ getMaxLights s' = getMaxLights s
  /\ getLightingMethod s' = getLightingMethod s
  /\ (if usingFFP s
      then
        (forall i, i ∈ disabled <-> start <= i < getMaxLights s)
        /\ forall i contextid st,
            i ∈ disabled ->
            exists st',
              DisableLight_apply i contextid st = Some st'
              /\ glCalls st' = glCalls st ++ [NullLight (GL_LIGHT0 + i)]
              /\ lastAppliedLight st' contextid !! Z.to_nat i = Some None
      else disabled = []).
Proof.
  intros Hstart Hcap s' disabled. unfold s', disabled, setStartLight. clear s' disabled.
  unfold usingFFP, getMaxLights, getStartLight, getLightingMethod. cbn [mLightingMethod mMaxLights].
  destruct (bool_decide (mLightingMethod s = FFP)) eqn:Hffp; cbn [negb fst snd mStartLight
    mMaxLights mLightingMethod]; (split; [reflexivity|]); (split; [reflexivity|]);
    (split; [reflexivity|]); [|reflexivity].
  unfold getMaxLights in Hcap.
  assert (Hin : forall i,
             i ∈ map (fun k => to_size_t (start + Z.of_nat k))
                     (seq 0 (Z.to_nat (mMaxLights s - start)))
             <-> start <= i < mMaxLights s).
  { intros i. rewrite list_elem_of_In, in_map_iff. split.
    - intros (k & <- & Hk). apply in_seq in Hk.
      unfold to_size_t. rewrite Z.mod_small by lia. lia.
    - intros Hi. exists (Z.to_nat (i - start)). split.
      + unfold to_size_t. rewrite Z.mod_small by lia. lia.
      + apply in_seq. lia. }
  split; [exact Hin|].
  intros i contextid st Hi. apply Hin in Hi.
  unfold DisableLight_apply.
  destruct (getLightStateCache_lookup contextid 8 (cacheVector st))
    as (cache & Hcache & Hlen & Hctx).
  rewrite Hcache. cbn [mbind option_bind].
  replace (Z.to_nat i <? length cache)%nat with true
    by (symmetry; apply Nat.ltb_lt; lia).
  assert (Hnum : to_int (to_size_t (GL_LIGHT0 + i)) = GL_LIGHT0 + i).
  { assert (H1 : to_size_t (GL_LIGHT0 + i) = GL_LIGHT0 + i)
      by (unfold to_size_t, GL_LIGHT0; rewrite Z.mod_small; lia).
    rewrite H1. apply to_int_small. unfold GL_LIGHT0. lia. }
  rewrite Hnum. eexists. split; [reflexivity|]. cbn [glCalls]. split; [reflexivity|].
  unfold lastAppliedLight. cbn [cacheVector].
  assert (Hlookup : (<[contextid := <[Z.to_nat i := None]> cache]>
                       (getLightStateCache contextid 8 (cacheVector st)))
                      !! contextid = Some (<[Z.to_nat i := None]> cache))
    by (apply list_lookup_insert_eq; exact Hctx).
  rewrite (getLightStateCache_settled _ _ _ _ Hlookup)
    by (rewrite length_insert; exact Hlen).
  rewrite Hlookup. cbn [default]. apply list_lookup_insert_eq. lia.
Qed.

Lemma setStartLight_disables_witness :
  getStartLight
    (@setStartLight TranslationOnly 6
       (@LightManager_new TranslationOnly true true true false noFadeSettings
                          LightBuffer.LittleEndian exampleStore).1).1
  = 6.
Proof.
  destruct (@setStartLight_disables TranslationOnly 6
              (@LightManager_new TranslationOnly true true true false noFadeSettings
                                 LightBuffer.LittleEndian exampleStore).1)
    as (Hstart & _).
  - lia.
  - vm_compute. discriminate.
  - exact Hstart.
Defined.
